(** * bugger: the context assembler, the reply parser and the webhook

    A shallow embedding of [lib/context-engine.ts], [lib/ai-agent.ts],
    [lib/linear-types.ts] and [api/webhook.ts].

    Conventions of the embedding:
    - a JavaScript string is a Rocq [string]; each character stands for one
      UTF-16 code unit below 256, so [length] is the JavaScript [.length];
    - a JavaScript number that counts something is a [Z];
    - a function that can throw returns a [Result];
    - what the program reads is a [Checkout]: the directory tree below
      [repoPath] and the answers of the [git] commands;
    - what the program writes and runs is recorded in a log of [Effect]s;
    - the call of the model and the calls of the hosting and tracker APIs
      are not embedded: [parseClaudeResponse] takes the text of the reply,
      the handler takes the outcome of [fixBug] as a parameter. *)

From Stdlib Require Import String Ascii List ZArith NArith Lia Bool.

#[local] Set Warnings "-register-all".

Import ListNotations.

Open Scope bool_scope.
Open Scope list_scope.
Open Scope Z_scope.

Notation "s +++ t" := (String.append s t) (at level 60, right associativity).

(** ** Exceptions *)

Inductive Result (A : Type) : Type :=
| Ok (a : A)
| Throw (message : string).

Arguments Ok {A} a.
Arguments Throw {A} message.

Definition bind {A B : Type} (r : Result A) (k : A -> Result B) : Result B :=
  match r with
  | Ok a => k a
  | Throw m => Throw m
  end.

Notation "'try!' x <- r ;; k" := (bind r (fun x => k))
  (at level 10, x name, r at level 100, k at level 200).

(** ** The JavaScript built-ins the program calls *)

Module JS.

Definition code (c : ascii) : N := N_of_ascii c.

Definition between (lo hi : N) (c : ascii) : bool :=
  (lo <=? code c)%N && (code c <=? hi)%N.

(** [\d], [\w] and [\s] of a regular expression without the [u] and [i] flags. *)
Definition isDigit (c : ascii) : bool := between 48 57 c.

Definition isWord (c : ascii) : bool :=
  between 97 122 c || between 65 90 c || isDigit c || (code c =? 95)%N.

Definition isSpace (c : ascii) : bool :=
  between 9 13 c || (code c =? 32)%N || (code c =? 160)%N.

(** A line terminator: what [.] refuses and what [$] with the [m] flag
    stops at. *)
Definition isLineTerminator (c : ascii) : bool :=
  (code c =? 10)%N || (code c =? 13)%N.

Definition len (s : string) : Z := Z.of_nat (String.length s).

Fixpoint take (n : nat) (s : string) : string :=
  match n, s with
  | S k, String c r => String c (take k r)
  | _, _ => EmptyString
  end.

Fixpoint drop (n : nat) (s : string) : string :=
  match n, s with
  | S k, String _ r => drop k r
  | _, _ => s
  end.

(** [s.slice(0, n)] *)
Definition slice0 (n : nat) (s : string) : string := take n s.

(** The longest prefix of [s] whose characters all satisfy [p]. *)
Fixpoint spanLength (p : ascii -> bool) (s : string) : nat :=
  match s with
  | String c r => if p c then S (spanLength p r) else O
  | EmptyString => O
  end.

Fixpoint startsWith (prefix s : string) : bool :=
  match prefix, s with
  | EmptyString, _ => true
  | String a p, String b r => Ascii.eqb a b && startsWith p r
  | String _ _, EmptyString => false
  end.

(** [s.includes(pattern)]: case-sensitive substring test. *)
Fixpoint includes (pattern s : string) : bool :=
  startsWith pattern s ||
  match s with
  | String _ r => includes pattern r
  | EmptyString => false
  end.

Fixpoint rev_string (s acc : string) : string :=
  match s with
  | String c r => rev_string r (String c acc)
  | EmptyString => acc
  end.

Definition reverse (s : string) : string := rev_string s EmptyString.

Definition endsWith (suffix s : string) : bool :=
  startsWith (reverse suffix) (reverse s).

(** [s.split(sep)] for a one-character separator: never the empty list. *)
Fixpoint split (sep : ascii) (s : string) : list string :=
  match s with
  | EmptyString => [EmptyString]
  | String c r =>
      if Ascii.eqb c sep then EmptyString :: split sep r
      else match split sep r with
           | piece :: pieces => String c piece :: pieces
           | [] => [String c EmptyString]
           end
  end.

Definition trimStart (s : string) : string := drop (spanLength isSpace s) s.

Definition trim (s : string) : string :=
  reverse (trimStart (reverse (trimStart s))).

Definition lowerChar (c : ascii) : ascii :=
  if between 65 90 c || between 192 214 c || between 216 222 c
  then ascii_of_N (code c + 32)
  else c.

Fixpoint toLowerCase (s : string) : string :=
  match s with
  | String c r => String (lowerChar c) (toLowerCase r)
  | EmptyString => EmptyString
  end.

(** Truthiness of a string: only the empty string is falsy. *)
Definition truthy (s : string) : bool :=
  match s with EmptyString => false | _ => true end.

(** [[...new Set(l)]]: the first occurrence of every element, in order. *)
Fixpoint dedupe (seen l : list string) : list string :=
  match l with
  | [] => []
  | x :: r =>
      if existsb (String.eqb x) seen then dedupe seen r
      else x :: dedupe (x :: seen) r
  end.

Definition unique (l : list string) : list string := dedupe [] l.

(** [text.match(re)] for a regular expression with the [g] flag, where
    [re] is given as a matcher: [re s] is the length of the match that
    starts at the head of [s], if there is one.  After a match the scan
    resumes behind it; [skip] counts the characters still covered by the
    previous match. *)
Fixpoint matchAllFrom (re : string -> option nat) (s : string) (skip : nat)
  : list string :=
  match s with
  | EmptyString => []
  | String _ r =>
      match skip with
      | S k => matchAllFrom re r k
      | O =>
          match re s with
          | Some n => take n s :: matchAllFrom re r (Nat.pred n)
          | None => matchAllFrom re r O
          end
      end
  end.

Definition matchAll (re : string -> option nat) (s : string) : list string :=
  matchAllFrom re s O.

(** Decimal digits of a non-negative integer, as template literals and
    [JSON.stringify] print it. *)
Fixpoint digitsOf (fuel : nat) (n : N) (acc : string) : string :=
  match fuel with
  | O => acc
  | S f =>
      let acc' := String (ascii_of_N (48 + n mod 10)) acc in
      if (n <? 10)%N then acc' else digitsOf f (n / 10)%N acc'
  end.

Definition numberToString (n : N) : string :=
  digitsOf (S (N.to_nat (N.log2 n))) n EmptyString.

Definition hexDigit (n : N) : ascii :=
  if (n <? 10)%N then ascii_of_N (48 + n) else ascii_of_N (87 + n).

Definition dquote : string := String (ascii_of_N 34) EmptyString.

(** [JSON.stringify] of a string: the quoted form. *)
Definition quoteChar (c : ascii) : string :=
  let n := code c in
  if (n =? 34)%N then "\"%string +++ dquote
  else if (n =? 92)%N then "\\"%string
  else if (n =? 8)%N then "\b"%string
  else if (n =? 9)%N then "\t"%string
  else if (n =? 10)%N then "\n"%string
  else if (n =? 12)%N then "\f"%string
  else if (n =? 13)%N then "\r"%string
  else if (n <? 32)%N
       then "\u00"%string +++ String (hexDigit (n / 16)) (String (hexDigit (n mod 16)) EmptyString)
  else String c EmptyString.

Fixpoint quoteBody (s : string) : string :=
  match s with
  | String c r => quoteChar c +++ quoteBody r
  | EmptyString => EmptyString
  end.

Definition stringifyString (s : string) : string :=
  dquote +++ quoteBody s +++ dquote.

(** [pieces.join(sep)] *)
Fixpoint join (sep : string) (pieces : list string) : string :=
  match pieces with
  | [] => EmptyString
  | [x] => x
  | x :: r => x +++ sep +++ join sep r
  end.

End JS.


(** ** path.join and path.dirname (POSIX) *)

Module Path.
Import JS.

Definition isDots (segment : string) : bool := String.eqb segment "..".

(** [normalizeString]: the segments that remain, last one first. *)
Fixpoint normalizeSegments (allowAboveRoot : bool) (segments kept : list string)
  : list string :=
  match segments with
  | [] => kept
  | seg :: rest =>
      if negb (truthy seg) || String.eqb seg "." then
        normalizeSegments allowAboveRoot rest kept
      else if isDots seg then
        match kept with
        | top :: below =>
            if isDots top
            then normalizeSegments allowAboveRoot rest
                   (if allowAboveRoot then seg :: kept else kept)
            else normalizeSegments allowAboveRoot rest below
        | [] =>
            normalizeSegments allowAboveRoot rest
              (if allowAboveRoot then [seg] else [])
        end
      else normalizeSegments allowAboveRoot rest (seg :: kept)
  end.

Definition normalize (p : string) : string :=
  match p with
  | EmptyString => "."%string
  | String _ _ =>
      let isAbsolute := startsWith "/" p in
      let trailingSeparator := endsWith "/" p in
      let body :=
        join "/" (rev (normalizeSegments (negb isAbsolute) (split "/" p) [])) in
      match body with
      | EmptyString =>
          if isAbsolute then "/"%string
          else if trailingSeparator then "./"%string else "."%string
      | String _ _ =>
          let body' := if trailingSeparator then body +++ "/" else body in
          if isAbsolute then "/" +++ body' else body'
      end
  end.

Definition join (pieces : list string) : string :=
  match filter truthy pieces with
  | [] => "."%string
  | nonEmpty => normalize (JS.join "/" nonEmpty)
  end.

(** [dirname]: the text before the last [/] that a name follows at once;
    the [/] at the first place does not count. *)
Fixpoint lastSlash (s : string) (index : nat) (seen : option nat) : option nat :=
  match s with
  | String c (String d _ as r) =>
      lastSlash r (S index)
        (if (code c =? 47)%N && negb (code d =? 47)%N && negb (Nat.eqb index 0)
         then Some index else seen)
  | _ => seen
  end.

Definition dirname (p : string) : string :=
  match p with
  | EmptyString => "."%string
  | String _ _ =>
      let hasRoot := startsWith "/" p in
      match lastSlash p O None with
      | None => if hasRoot then "/"%string else "."%string
      | Some e =>
          if hasRoot && Nat.eqb e 1 then "//"%string else take e p
      end
  end.

End Path.

(** ** Outbound effects

    What the program asks of the file system and the shell, in the order
    asked.  The [World] answers an effect, given the
    effects completed so far: with the text it returns, or not at all when
    it fails.  A failed effect is not logged and raises.  [Exec command]
    is [execSync(command)]: the command line as it is handed to [/bin/sh];
    what the shell reads in it is followed in [Shell]. *)

Module Effects.

Inductive Effect : Type :=
| Mkdir (dir : string)
| WriteFile (fullPath data : string)
| Exec (command : string).

Definition World : Type := list Effect -> Effect -> option string.

Definition M (A : Type) : Type := list Effect -> Result A * list Effect.

Definition ret {A : Type} (a : A) : M A := fun log => (Ok a, log).

Definition raise {A : Type} (message : string) : M A :=
  fun log => (Throw message, log).

Definition andThen {A B : Type} (m : M A) (k : A -> M B) : M B :=
  fun log =>
    match m log with
    | (Ok a, log') => k a log'
    | (Throw e, log') => (Throw e, log')
    end.

(** [try { m } catch (error) { throw new Error(prefix + error) }] *)
Definition rethrow {A : Type} (prefix : string) (m : M A) : M A :=
  fun log =>
    match m log with
    | (Ok a, log') => (Ok a, log')
    | (Throw e, log') => (Throw (prefix +++ e), log')
    end.

Definition perform (w : World) (e : Effect) : M string :=
  fun log =>
    match w log e with
    | Some out => (Ok out, log ++ [e])
    | None => (Throw "Error", log)
    end.

Fixpoint forEach {A : Type} (f : A -> M string) (l : list A) : M string :=
  match l with
  | [] => ret EmptyString
  | x :: rest => andThen (f x) (fun _ => forEach f rest)
  end.

End Effects.

Notation "'do!' x <- m ;; k" := (Effects.andThen m (fun x => k))
  (at level 10, x name, m at level 100, k at level 200).

(** ** lib/context-engine.ts *)

Module ContextEngine.
Import JS.

Record LinearIssue : Type := {
  id : string;
  title : string;
  description : string;
  priority : Z;
  labels : list string;
  url : string
}.

Record FileContext : Type := {
  path : string;
  content : string;
  lineCount : Z
}.

(** A commit record: [line.split('|')] always has a first piece, the other
    three are [undefined] when the line has fewer pieces. *)
Record Commit : Type := {
  sha : string;
  message : option string;
  author : option string;
  date : option string
}.

Record SearchResult : Type := {
  file : string;
  line : Z;
  lineContent : string
}.

Record BugContext : Type := {
  staticContext : string;
  issueDetails : LinearIssue;
  relevantFiles : list FileContext;
  recentCommits : list Commit;
  searchResults : list SearchResult;
  estimatedTokens : Z
}.

(** *** The checkout

    What [fs.readdir] and [fs.readFile] see below [repoPath].  A file that
    cannot be read has no content; a directory that cannot be listed is not
    [listable].  [execSync] gives the output of a command run in the
    checkout, or nothing when the command fails. *)

Inductive Entry : Type :=
| File (contents : option string)
| Directory (listable : bool) (entries : list (string * Entry)).

Record Checkout : Type := {
  root : Entry;
  execSync : string -> option string
}.

Fixpoint findEntry (name : string) (entries : list (string * Entry))
  : option Entry :=
  match entries with
  | [] => None
  | (n, e) :: rest => if String.eqb n name then Some e else findEntry name rest
  end.

Fixpoint resolve (names : list string) (e : Entry) : option Entry :=
  match names with
  | [] => Some e
  | name :: rest =>
      match e with
      | Directory _ entries =>
          match findEntry name entries with
          | Some child => resolve rest child
          | None => None
          end
      | File _ => None
      end
  end.

(** [readFile]: every path the engine reads is made of plain names
    separated by [/], so [path.join(repoPath, filePath)] is the entry
    reached from the root by these names.  The text of the error is the
    prefix the source writes; the cause appended to it is never read. *)
Definition readFile (co : Checkout) (filePath : string) : Result string :=
  match resolve (split "/" filePath) (root co) with
  | Some (File (Some text)) => Ok text
  | _ => Throw ("Failed to read file " +++ filePath)
  end.

(** [listFiles]: [walk] pushes [path.relative(dir, fullPath)], the path of
    the entry relative to the directory being walked, which is the name of
    the entry. *)
Definition skipped (name : string) : bool :=
  startsWith "." name || String.eqb name "node_modules".

Fixpoint walk (dir : Entry) : Result (list string) :=
  match dir with
  | File _ => Throw "ENOTDIR: not a directory, scandir"
  | Directory false _ => Throw "EACCES: permission denied, scandir"
  | Directory true entries =>
      (fix each (entries : list (string * Entry)) : Result (list string) :=
         match entries with
         | [] => Ok []
         | (name, e) :: rest =>
             if skipped name then each rest
             else match e with
                  | Directory _ _ =>
                      try! below <- walk e ;;
                      try! others <- each rest ;;
                      Ok (below ++ others)
                  | File _ =>
                      try! others <- each rest ;;
                      Ok (name :: others)
                  end
         end) entries
  end.

Definition listFiles (co : Checkout) : Result (list string) := walk (root co).

(** *** Code search *)

Definition nl : ascii := ascii_of_N 10.

Fixpoint matchingLines (pattern file : string) (lines : list string) (index : Z)
  : list SearchResult :=
  match lines with
  | [] => []
  | l :: rest =>
      let others := matchingLines pattern file rest (index + 1) in
      if includes pattern l
      then {| file := file; line := index + 1; lineContent := trim l |} :: others
      else others
  end.

Fixpoint searchFiles (co : Checkout) (pattern : string)
    (fileExtensions : option (list string)) (files : list string)
  : list SearchResult :=
  match files with
  | [] => []
  | f :: rest =>
      let others := searchFiles co pattern fileExtensions rest in
      let wanted :=
        match fileExtensions with
        | Some exts => existsb (fun ext => endsWith ext f) exts
        | None => true
        end in
      if wanted then
        match readFile co f with
        | Ok text => matchingLines pattern f (split nl text) 0 ++ others
        | Throw _ => others
        end
      else others
  end.

Definition searchCode (co : Checkout) (pattern : string)
    (fileExtensions : option (list string)) : Result (list SearchResult) :=
  try! files <- listFiles co ;;
  Ok (searchFiles co pattern fileExtensions files).

(** *** Git log *)

Definition gitLogCommand (filePath : option string) (limit : Z) : string :=
  let fileArg :=
    match filePath with
    | Some p => if truthy p then "-- " +++ dquote +++ p +++ dquote else EmptyString
    | None => EmptyString
    end in
  "git log -" +++ numberToString (Z.to_N limit) +++ " --pretty=format:" +++ dquote
    +++ "%H|%s|%an|%ai" +++ dquote +++ " " +++ fileArg.

Definition parseCommit (l : string) : Commit :=
  let pieces := split "|" l in
  {| sha := nth 0 pieces EmptyString;
     message := nth_error pieces 1;
     author := nth_error pieces 2;
     date := nth_error pieces 3 |}.

Definition getRecentCommits (co : Checkout) (filePath : option string)
    (limit : Z) : list Commit :=
  match execSync co (gitLogCommand filePath limit) with
  | Some output => map parseCommit (filter truthy (split nl output))
  | None => []
  end.

(** *** Signals

    The two regular expressions whose matches [gatherContextForBug] reads,
    each as the matcher at one position. [functions] and [stackTrace] are
    computed by the source and read nowhere. *)

Record Signals : Type := {
  files : list string;
  errors : list string
}.

(** [[\w-]] *)
Definition isPathChar (c : ascii) : bool := isWord c || (code c =? 45)%N.

(** [(?::\d+)?] *)
Definition reLineSuffix (s : string) : nat :=
  match s with
  | String c r =>
      if (code c =? 58)%N
      then match spanLength isDigit r with
           | O => O
           | S d => S (S d)
           end
      else O
  | EmptyString => O
  end.

(** [\w+(?::\d+)?] *)
Definition reExtension (s : string) : option nat :=
  match spanLength isWord s with
  | O => None
  | S n => Some (S n + reLineSuffix (drop (S n) s))%nat
  end.

(** [(?:[\w-]+\/)*[\w-]+\.\w+(?::\d+)?]; [started] tells that the current
    run of [[\w-]] is not empty.  A run ends at [/], which opens the next
    run, or at [.], which must be followed by the extension. *)
Fixpoint reFilePath (started : bool) (s : string) : option nat :=
  match s with
  | EmptyString => None
  | String c r =>
      if isPathChar c then option_map S (reFilePath true r)
      else if started && (code c =? 47)%N then option_map S (reFilePath false r)
      else if started && (code c =? 46)%N then option_map S (reExtension r)
      else None
  end.

Definition filePattern : string -> option nat := reFilePath false.

Definition errorWords : list string :=
  ["Error"; "Exception"; "Failed"; "TypeError"; "ReferenceError"]%string.

(** [(?:Error|Exception|Failed|TypeError|ReferenceError).*$] with the [m]
    flag: from the word to the end of its line. *)
Definition errorPattern (s : string) : option nat :=
  match find (fun w => startsWith w s) errorWords with
  | Some w =>
      let n := String.length w in
      Some (n + spanLength (fun c => negb (isLineTerminator c)) (drop n s))%nat
  | None => None
  end.

Definition extractSignalsFromIssue (issue : LinearIssue) : Signals :=
  let text := title issue +++ String nl (description issue) in
  {| files :=
       unique (map (fun f => nth 0 (split ":" f) EmptyString)
                   (matchAll filePattern text));
     errors := unique (matchAll errorPattern text) |}.

(** *** Token estimate and budget *)

Definition estimateTokens (text : string) : Z := (len text + 3) / 4.

Definition TOKEN_BUDGET : Z := 100000.

(** [TOKEN_BUDGET * 0.7], [TOKEN_BUDGET * 0.8] and [TOKEN_BUDGET * 0.85]:
    the three products are the integers below in double arithmetic too. *)
Definition filesLimit : Z := TOKEN_BUDGET * 7 / 10.
Definition searchLimit : Z := TOKEN_BUDGET * 8 / 10.
Definition commitsLimit : Z := TOKEN_BUDGET * 85 / 100.

(** *** JSON.stringify of the two arrays whose size is counted *)

Definition field (name value : string) : string :=
  dquote +++ name +++ dquote +++ ":" +++ value.

Definition stringifyArray (items : list string) : string :=
  "[" +++ join "," items +++ "]".

Definition stringifyObject (fields : list string) : string :=
  "{" +++ join "," fields +++ "}".

Definition stringifySearchResult (r : SearchResult) : string :=
  stringifyObject
    [ field "file" (stringifyString (file r));
      field "line" (numberToString (Z.to_N (line r)));
      field "content" (stringifyString (lineContent r)) ].

Definition optionalField (name : string) (value : option string) : list string :=
  match value with
  | Some v => [field name (stringifyString v)]
  | None => []
  end.

Definition stringifyCommit (c : Commit) : string :=
  stringifyObject
    (field "sha" (stringifyString (sha c))
     :: optionalField "message" (message c)
     ++ optionalField "author" (author c)
     ++ optionalField "date" (date c)).

Definition stringifySearchResults (l : list SearchResult) : string :=
  stringifyArray (map stringifySearchResult l).

Definition stringifyCommits (l : list Commit) : string :=
  stringifyArray (map stringifyCommit l).

(** *** gatherContextForBug *)

Definition sourceExtensions : list string :=
  [".ts"; ".tsx"; ".js"; ".jsx"; ".py"; ".go"; ".rs"]%string.

(** Step 1: the static notes and the tokens counted for them. *)
Definition loadStaticContext (co : Checkout) : string * Z :=
  match readFile co ".ai/context.md" with
  | Ok text => (text, estimateTokens text)
  | Throw _ => ("No project context file found."%string, 0)
  end.

(** Step 3: the loop over [signals.files]. *)
Fixpoint addFiles (co : Checkout) (paths : list string)
    (included : list FileContext) (tokensUsed : Z) : list FileContext * Z :=
  match paths with
  | [] => (included, tokensUsed)
  | filePath :: rest =>
      if tokensUsed >=? filesLimit then (included, tokensUsed)
      else
        match readFile co filePath with
        | Ok text =>
            let tokens := estimateTokens text in
            if tokensUsed + tokens <? filesLimit
            then addFiles co rest
                   (included ++ [{| path := filePath; content := text;
                                    lineCount := Z.of_nat (length (split nl text)) |}])
                   (tokensUsed + tokens)
            else addFiles co rest included tokensUsed
        | Throw _ => addFiles co rest included tokensUsed
        end
  end.

(** Step 4: the code search. *)
Definition searchStep (co : Checkout) (signals : Signals) (tokensUsed : Z)
  : Result (list SearchResult * Z) :=
  match errors signals with
  | first :: _ =>
      if tokensUsed <? searchLimit then
        try! found <- searchCode co first (Some sourceExtensions) ;;
        let kept := firstn 20 found in
        Ok (kept, tokensUsed + estimateTokens (stringifySearchResults kept))
      else Ok ([], tokensUsed)
  | [] => Ok ([], tokensUsed)
  end.

(** Step 5: the recent commits. *)
Definition commitsStep (co : Checkout) (tokensUsed : Z) : list Commit * Z :=
  if tokensUsed <? commitsLimit then
    let commits := getRecentCommits co None 5 in
    (commits, tokensUsed + estimateTokens (stringifyCommits commits))
  else ([], tokensUsed).

Definition gatherContext (co : Checkout) (issue : LinearIssue)
    (signals : Signals) : Result BugContext :=
  let '(notes, t1) := loadStaticContext co in
  let '(included, t3) := addFiles co (files signals) [] t1 in
  try! found <- searchStep co signals t3 ;;
  let '(hits, t4) := found in
  let '(commits, t5) := commitsStep co t4 in
  Ok {| staticContext := notes;
        issueDetails := issue;
        relevantFiles := included;
        recentCommits := commits;
        searchResults := hits;
        estimatedTokens := t5 |}.

Definition gatherContextForBug (co : Checkout) (issue : LinearIssue)
  : Result BugContext :=
  gatherContext co issue (extractSignalsFromIssue issue).

(** *** The write side *)

Import Effects.

Record Engine : Type := {
  githubToken : string;
  repoPath : string;
  owner : string;
  repo : string
}.

Section Writes.

Variable w : World.
Variable engine : Engine.

Definition writeFile (filePath text : string) : M string :=
  let fullPath := Path.join [repoPath engine; filePath] in
  do! _ <- perform w (Mkdir (Path.dirname fullPath)) ;;
  perform w (WriteFile fullPath text).

Definition createBranch (branchName : string) : M string :=
  rethrow ("Failed to create branch " +++ branchName +++ ": ")
    (perform w (Exec ("git checkout -b " +++ branchName))).

Definition gitAdd (f : string) : Effect :=
  Exec ("git add " +++ dquote +++ f +++ dquote).

Definition gitCommit (text : string) : Effect :=
  Exec ("git commit -m " +++ dquote +++ text +++ dquote).

Definition gitRevParse : Effect := Exec "git rev-parse HEAD".

Definition commit (text : string) (staged : list string) : M string :=
  rethrow "Failed to commit: "
    (do! _ <- forEach (fun f => perform w (gitAdd f)) staged ;;
     do! _ <- perform w (gitCommit text) ;;
     do! out <- perform w gitRevParse ;;
     ret (trim out)).

Definition pushBranch (branchName : string) : M string :=
  rethrow ("Failed to push branch " +++ branchName +++ ": ")
    (perform w (Exec ("git push -u origin " +++ branchName))).

End Writes.

End ContextEngine.

(** ** JSON.parse

    The values [JSON.parse] builds.  A string value is a list of UTF-16
    code units, because a [\u] escape can denote any of them; a number keeps
    the sign, the digits and the decimal exponent of its literal, that is
    the real [mantissa * 10 ^ exponent] before it is rounded to a double;
    an object keeps its members in the order of the text. *)

Module Json.
Import JS.

Inductive Value : Type :=
| JNull
| JBool (b : bool)
| JNumber (negative : bool) (mantissa : N) (exponent : Z)
| JString (units : list N)
| JArray (items : list Value)
| JObject (members : list (list N * Value)).

Fixpoint unitsOf (s : string) : list N :=
  match s with
  | String c r => code c :: unitsOf r
  | EmptyString => []
  end.

Definition str (s : string) : Value := JString (unitsOf s).

Definition isJsonSpace (c : ascii) : bool :=
  (code c =? 9)%N || (code c =? 10)%N || (code c =? 13)%N || (code c =? 32)%N.

Definition skipSpace (s : string) : string := drop (spanLength isJsonSpace s) s.

Definition hexValue (c : ascii) : option N :=
  if isDigit c then Some (code c - 48)%N
  else if between 97 102 c then Some (code c - 87)%N
  else if between 65 70 c then Some (code c - 55)%N
  else None.

Definition hex4 (s : string) : option (N * string) :=
  match s with
  | String a (String b (String c (String d r))) =>
      match hexValue a, hexValue b, hexValue c, hexValue d with
      | Some x, Some y, Some z, Some w => Some (((x * 16 + y) * 16 + z) * 16 + w, r)%N
      | _, _, _, _ => None
      end
  | _ => None
  end.

Definition escapeUnit (c : ascii) : option N :=
  let n := code c in
  if (n =? 34)%N || (n =? 92)%N || (n =? 47)%N then Some n
  else if (n =? 98)%N then Some 8%N
  else if (n =? 102)%N then Some 12%N
  else if (n =? 110)%N then Some 10%N
  else if (n =? 114)%N then Some 13%N
  else if (n =? 116)%N then Some 9%N
  else None.

(** The characters of a string literal behind its opening quote. *)
Fixpoint parseChars (s : string) : option (list N * string) :=
  match s with
  | EmptyString => None
  | String c r =>
      if (code c =? 34)%N then Some ([], r)
      else if (code c <? 32)%N then None
      else if (code c =? 92)%N then
        match r with
        | String e r' =>
            if (code e =? 117)%N then
              match hex4 r' with
              | Some (u, r'') =>
                  (* four characters shorter than [r'] *)
                  match r' with
                  | String _ (String _ (String _ (String _ rest))) =>
                      match parseChars rest with
                      | Some (us, out) => Some (u :: us, out)
                      | None => None
                      end
                  | _ => None
                  end
              | None => None
              end
            else
              match escapeUnit e with
              | Some u =>
                  match parseChars r' with
                  | Some (us, out) => Some (u :: us, out)
                  | None => None
                  end
              | None => None
              end
        | EmptyString => None
        end
      else
        match parseChars r with
        | Some (us, out) => Some (code c :: us, out)
        | None => None
        end
  end.

Fixpoint digitsValue (s : string) (n : nat) (acc : N) : N :=
  match n, s with
  | S k, String c r => digitsValue r k (acc * 10 + (code c - 48))%N
  | _, _ => acc
  end.

(** A number literal: an optional minus, an integer part without a
    leading zero, an optional fraction and an optional exponent. *)
Definition parseNumber (s : string) : option (Value * string) :=
  let '(negative, s1) :=
    match s with
    | String c r => if (code c =? 45)%N then (true, r) else (false, s)
    | EmptyString => (false, s)
    end in
  let intLength :=
    match s1 with
    | String c _ => if (code c =? 48)%N then 1%nat else spanLength isDigit s1
    | EmptyString => O
    end in
  match intLength with
  | O => None
  | S _ =>
      let int := digitsValue s1 intLength 0 in
      let s2 := drop intLength s1 in
      let fraction :=
        match s2 with
        | String c r =>
            if (code c =? 46)%N then
              match spanLength isDigit r with
              | O => None
              | S k => Some (Some (S k, r))
              end
            else Some None
        | EmptyString => Some None
        end in
      match fraction with
      | None => None
      | Some frac =>
          let '(mantissa, scale, s3) :=
            match frac with
            | Some (k, r) => (digitsValue r k int, Z.of_nat k, drop k r)
            | None => (int, 0, s2)
            end in
          let exponentPart :=
            match s3 with
            | String c r =>
                if (code c =? 101)%N || (code c =? 69)%N then
                  let '(minus, r1) :=
                    match r with
                    | String g r' =>
                        if (code g =? 45)%N then (true, r')
                        else if (code g =? 43)%N then (false, r')
                        else (false, r)
                    | EmptyString => (false, r)
                    end in
                  match spanLength isDigit r1 with
                  | O => None
                  | S k =>
                      let e := Z.of_N (digitsValue r1 (S k) 0) in
                      Some ((if minus then - e else e), drop (S k) r1)
                  end
                else Some (0, s3)
            | EmptyString => Some (0, s3)
            end in
          match exponentPart with
          | None => None
          | Some (e, rest) => Some (JNumber negative mantissa (e - scale), rest)
          end
      end
  end.

Definition expect (word : string) (v : Value) (s : string)
  : option (Value * string) :=
  if startsWith word s then Some (v, drop (String.length word) s) else None.

(** A value, the elements of an array behind [[], and the members of an
    object behind [{].  Every call consumes a character before the next
    one, so the length of the text is fuel enough. *)
Fixpoint parseValue (fuel : nat) (s : string) : option (Value * string) :=
  match fuel with
  | O => None
  | S f =>
      match skipSpace s with
      | EmptyString => None
      | String c r as s' =>
          let n := code c in
          if (n =? 123)%N then
            match skipSpace r with
            | String d r' as body =>
                if (code d =? 125)%N then Some (JObject [], r')
                else match parseMembers f body with
                     | Some (ms, out) => Some (JObject ms, out)
                     | None => None
                     end
            | EmptyString => None
            end
          else if (n =? 91)%N then
            match skipSpace r with
            | String d r' as body =>
                if (code d =? 93)%N then Some (JArray [], r')
                else match parseElements f body with
                     | Some (vs, out) => Some (JArray vs, out)
                     | None => None
                     end
            | EmptyString => None
            end
          else if (n =? 34)%N then
            match parseChars r with
            | Some (us, out) => Some (JString us, out)
            | None => None
            end
          else if (n =? 116)%N then expect "true" (JBool true) s'
          else if (n =? 102)%N then expect "false" (JBool false) s'
          else if (n =? 110)%N then expect "null" JNull s'
          else parseNumber s'
      end
  end

with parseElements (fuel : nat) (s : string) : option (list Value * string) :=
  match fuel with
  | O => None
  | S f =>
      match parseValue f s with
      | Some (v, out) =>
          match skipSpace out with
          | String c r =>
              if (code c =? 93)%N then Some ([v], r)
              else if (code c =? 44)%N then
                match parseElements f r with
                | Some (vs, out') => Some (v :: vs, out')
                | None => None
                end
              else None
          | EmptyString => None
          end
      | None => None
      end
  end

with parseMembers (fuel : nat) (s : string)
  : option (list (list N * Value) * string) :=
  match fuel with
  | O => None
  | S f =>
      match skipSpace s with
      | String q r =>
          if (code q =? 34)%N then
            match parseChars r with
            | Some (key, out) =>
                match skipSpace out with
                | String c r1 =>
                    if (code c =? 58)%N then
                      match parseValue f r1 with
                      | Some (v, out1) =>
                          match skipSpace out1 with
                          | String d r2 =>
                              if (code d =? 125)%N then Some ([(key, v)], r2)
                              else if (code d =? 44)%N then
                                match parseMembers f r2 with
                                | Some (ms, out2) => Some ((key, v) :: ms, out2)
                                | None => None
                                end
                              else None
                          | EmptyString => None
                          end
                      | None => None
                      end
                    else None
                | EmptyString => None
                end
            | None => None
            end
          else None
      | EmptyString => None
      end
  end.

(** [JSON.parse(text)]: [None] stands for the [SyntaxError]. *)
Definition parse (text : string) : option Value :=
  match parseValue (S (String.length text)) text with
  | Some (v, rest) =>
      match skipSpace rest with
      | EmptyString => Some v
      | String _ _ => None
      end
  | None => None
  end.

Definition sameUnits (a b : list N) : bool :=
  if list_eq_dec N.eq_dec a b then true else false.

(** [object.name] on a parsed object: the last member of that name, or
    [undefined]. *)
Fixpoint getProperty (name : list N) (members : list (list N * Value))
  : option Value :=
  match members with
  | [] => None
  | (k, v) :: rest =>
      match getProperty name rest with
      | Some later => Some later
      | None => if sameUnits k name then Some v else None
      end
  end.

(** A number literal whose double is [0]: the mantissa is zero, or the
    real is at most [2 ^ -1075], half the least positive double. *)
Definition roundsToZero (mantissa : N) (exponent : Z) : bool :=
  (mantissa =? 0)%N ||
  ((exponent <? 0) && (Z.of_N mantissa * 2 ^ 1075 <=? 10 ^ (- exponent))).

(** Truthiness of a property: [undefined], [null], [false], zero and the
    empty string are falsy. *)
Definition truthy (v : option Value) : bool :=
  match v with
  | None => false
  | Some JNull => false
  | Some (JBool b) => b
  | Some (JNumber _ m e) => negb (roundsToZero m e)
  | Some (JString us) => match us with [] => false | _ => true end
  | Some (JArray _) => true
  | Some (JObject _) => true
  end.

End Json.

(** ** lib/ai-agent.ts: parsing the reply of the model *)

Module Agent.
Import JS Json.

(** What [parseClaudeResponse] returns.  The declared type says strings and
    [{path, content}] records; at run time [description], [reasoning] and
    the entries of [changes] are whatever JSON the reply holds. *)
Record FixReply : Type := {
  success : bool;
  changes : list Value;
  description : Value;
  reasoning : Value;
  error : option string
}.

(** The suffix of [s] that starts at the first [c]. *)
Fixpoint fromFirst (c : ascii) (s : string) : option string :=
  match s with
  | EmptyString => None
  | String d r => if Ascii.eqb d c then Some s else fromFirst c r
  end.

(** The prefix of [s] that ends at the last [c]. *)
Definition toLast (c : ascii) (s : string) : option string :=
  option_map reverse (fromFirst c (reverse s)).

(** [text.match(/\{[\s\S]*\}/)]: from the first [{] to the last [}]
    behind it. *)
Definition jsonMatch (text : string) : option string :=
  match fromFirst "{" text with
  | Some s => toLast "}" s
  | None => None
  end.

(** [parsed.name]; the text handed to [JSON.parse] starts with [{], so
    [parsed] is an object. *)
Definition property (name : string) (parsed : Value) : option Value :=
  match parsed with
  | JObject members => getProperty (unitsOf name) members
  | _ => None
  end.

Definition couldNotFix : string := "AI could not generate a confident fix".

Section Parse.

(** The message of the [SyntaxError] that [JSON.parse] throws on a text;
    the language leaves it to the engine. *)
Variable syntaxErrorMessage : string -> string.

(** The [catch] branch. *)
Definition parseFailure (text message : string) : FixReply :=
  {| success := false;
     changes := [];
     description := str "Failed to parse AI response";
     reasoning := str (slice0 500 text);
     error := Some message |}.

Definition parseClaudeResponse (text : string) : FixReply :=
  match jsonMatch text with
  | None => parseFailure text "No JSON found in response"
  | Some json =>
      match parse json with
      | None => parseFailure text (syntaxErrorMessage json)
      | Some parsed =>
          match property "reasoning" parsed, property "description" parsed,
                property "changes" parsed with
          | Some r, Some d, Some (JArray items) =>
              if truthy (Some r) && truthy (Some d) then
                match items with
                | [] =>
                    {| success := false;
                       changes := [];
                       description := d;
                       reasoning := r;
                       error := Some couldNotFix |}
                | _ :: _ =>
                    {| success := true;
                       changes := items;
                       description := d;
                       reasoning := r;
                       error := None |}
                end
              else parseFailure text "Invalid response structure"
          | _, _, _ => parseFailure text "Invalid response structure"
          end
      end
  end.

End Parse.

End Agent.

(** ** lib/ai-agent.ts: applying a fix (steps 4 and 5 of [fixBug]) *)

Module Applier.
Import JS Effects.

(** The fix at its declared type. *)
Record Change : Type := {
  path : string;
  content : string
}.

Record Fix : Type := {
  success : bool;
  changes : list Change;
  description : string;
  reasoning : string;
  error : option string
}.

Definition nl : string := String ContextEngine.nl EmptyString.

Definition commitMessage (issue : ContextEngine.LinearIssue) (fx : Fix) : string :=
  "Fix: " +++ ContextEngine.title issue +++ nl +++ nl +++ reasoning fx
    +++ nl +++ nl +++ "Linear Issue: " +++ ContextEngine.url issue.

Section Apply.

Variable w : World.
Variable engine : ContextEngine.Engine.

Definition applyChanges (issue : ContextEngine.LinearIssue) (fx : Fix) : M string :=
  do! _ <- forEach (fun change =>
                      ContextEngine.writeFile w engine (path change) (content change))
                   (changes fx) ;;
  ContextEngine.commit w (commitMessage issue fx) (map path (changes fx)).

End Apply.

End Applier.

(** ** lib/linear-types.ts and api/webhook.ts *)

Module Webhook.
Import JS.

Record Label : Type := {
  label_id : string;
  label_name : string
}.

Record Team : Type := {
  team_id : string;
  team_name : string
}.

Record IssueData : Type := {
  id : string;
  title : string;
  description : option string;
  priority : option Z;
  url : string;
  labels : option (list Label);
  team : option Team
}.

Record LinearWebhookPayload : Type := {
  action : string;
  type : string;
  data : IssueData
}.

(** [req.body] before validation: any of the three fields can be absent. *)
Record Body : Type := {
  body_action : option string;
  body_type : option string;
  body_data : option IssueData
}.

Definition parseLinearWebhook (body : option Body) : Result LinearWebhookPayload :=
  match body with
  | Some {| body_action := Some a; body_type := Some t; body_data := Some d |} =>
      if truthy a && truthy t
      then Ok {| action := a; type := t; data := d |}
      else Throw "Invalid Linear webhook payload"
  | _ => Throw "Invalid Linear webhook payload"
  end.

(** [process.env] *)
Record Env : Type := {
  LINEAR_WEBHOOK_SECRET : option string;
  REPO_MAPPING : option string;
  GITHUB_REPOSITORY : option string;
  GITHUB_TOKEN : option string;
  ANTHROPIC_API_KEY : option string;
  LINEAR_API_KEY : option string
}.

(** [x || ''] and the truthiness of a variable of the environment. *)
Definition orEmpty (x : option string) : string :=
  match x with
  | Some s => s
  | None => EmptyString
  end.

Definition isSet (x : option string) : bool := truthy (orEmpty x).

Definition verifyLinearSignature (env : Env) (body : option Body)
    (signature : option string) : bool :=
  if negb (isSet (LINEAR_WEBHOOK_SECRET env)) then true
  else true.

Definition shouldProcessIssue (payload : LinearWebhookPayload) : bool :=
  if negb (String.eqb (action payload) "update")
     && negb (String.eqb (action payload) "create")
  then false
  else
    let labels :=
      match labels (data payload) with
      | Some l => l
      | None => []
      end in
    existsb (fun label => String.eqb (toLowerCase (label_name label)) "ai-fix") labels.

Record RepoInfo : Type := {
  owner : string;
  repo : option string
}.

(** The first position of [s] where [re] matches. *)
Fixpoint firstMatch {A : Type} (re : string -> option A) (s : string) : option A :=
  match re s with
  | Some m => Some m
  | None =>
      match s with
      | String _ r => firstMatch re r
      | EmptyString => None
      end
  end.

Definition notSlash (c : ascii) : bool := negb (code c =? 47)%N.

(** [github\.com\/([^\/]+)\/([^\/\s]+)] at the head of [s]: the two groups. *)
Definition githubUrlPattern (s : string) : option (string * string) :=
  if startsWith "github.com/" s then
    let r := drop 11 s in
    match spanLength notSlash r with
    | O => None
    | S n =>
        match drop (S n) r with
        | String _ r2 =>
            match spanLength (fun c => notSlash c && negb (isSpace c)) r2 with
            | O => None
            | S m => Some (take (S n) r, take (S m) r2)
            end
        | EmptyString => None
        end
    end
  else None.

Definition githubUrlMatch (description : string) : option (string * string) :=
  firstMatch githubUrlPattern description.

(** [s.replace(/\.git$/, '')] *)
Definition stripGit (s : string) : string :=
  if endsWith ".git" s then take (String.length s - 4) s else s.

(** [[a, b] = s.split('/')] *)
Definition ownerAndRepo (s : string) : RepoInfo :=
  let pieces := split "/" s in
  {| owner := nth 0 pieces EmptyString; repo := nth_error pieces 1 |}.

(** The loop over the entries of [REPO_MAPPING]. *)
Fixpoint findMapping (teamKey : string) (mappings : list string)
  : Result (option RepoInfo) :=
  match mappings with
  | [] => Ok None
  | mapping :: rest =>
      let parts := split "=" mapping in
      let team := nth 0 parts EmptyString in
      if String.eqb (toLowerCase (trim team)) (toLowerCase teamKey) then
        match nth_error parts 1 with
        | Some r => Ok (Some (ownerAndRepo (trim r)))
        | None => Throw "Cannot read properties of undefined (reading 'trim')"
        end
      else findMapping teamKey rest
  end.

Definition teamKeyOf (payload : LinearWebhookPayload) : string :=
  match team (data payload) with
  | Some t => if truthy (team_name t) then team_name t else team_id t
  | None => EmptyString
  end.

Definition extractRepoInfo (env : Env) (payload : LinearWebhookPayload)
  : Result (option RepoInfo) :=
  match githubUrlMatch (orEmpty (description (data payload))) with
  | Some (o, r) => Ok (Some {| owner := o; repo := Some (stripGit r) |})
  | None =>
      let teamKey := teamKeyOf payload in
      try! mapped <-
        (if isSet (REPO_MAPPING env) && truthy teamKey
         then findMapping teamKey (split "," (orEmpty (REPO_MAPPING env)))
         else Ok None) ;;
      match mapped with
      | Some info => Ok (Some info)
      | None =>
          if isSet (GITHUB_REPOSITORY env)
          then Ok (Some (ownerAndRepo (orEmpty (GITHUB_REPOSITORY env))))
          else Ok None
      end
  end.

(** *** The handler *)

Record Request : Type := {
  method : string;
  signature : option string;
  body : option Body
}.

(** [FixResult] of lib/ai-agent.ts *)
Record FixResult : Type := {
  success : bool;
  branch : string;
  prUrl : option string;
  prNumber : option Z;
  files : list string;
  fixDescription : string;
  reasoning : string;
  error : option string
}.

Inductive ResponseBody : Type :=
| ErrorBody (error : string)
| MessageBody (message : string)
| FixedBody (pr : option string) (files : list string)
| NotFixedBody (error : option string)
| InternalError (message : string).

Record Response : Type := {
  status : Z;
  json : ResponseBody
}.

(** The comment posted on the issue: which of the two templates, and what
    fills it. *)
Inductive Comment : Type :=
| PrCreated (prUrl : option string) (files : list string) (reasoningHead : string)
| NoFix (reasoning : string).

(** What the handler asks of its collaborators, whether it completes or
    not: the pipeline (clone, fix) and the issue tracker. *)
Inductive Call : Type :=
| CloneRepository (owner : string) (repo : option string)
| FixBug (repoPath : string) (info : RepoInfo) (issue : ContextEngine.LinearIssue)
| PostComment (issueId : string) (comment : Comment).

Definition respond (code : Z) (b : ResponseBody) (calls : list Call)
  : Response * list Call :=
  ({| status := code; json := b |}, calls).

Section Handler.

Variable env : Env.

(** Whether [git pull] or [git clone] completes, and what [agent.fixBug]
    returns ([fixBug] catches every exception itself), at its declared
    type; [Served.handler] follows the handler on what the call gives at
    run time. *)
Variable cloneCompletes : string -> option string -> bool.
Variable fixBug : string -> RepoInfo -> ContextEngine.LinearIssue -> FixResult.

Definition templateArg (x : option string) : string :=
  match x with
  | Some s => s
  | None => "undefined"%string
  end.

Definition issueOf (d : IssueData) : ContextEngine.LinearIssue :=
  {| ContextEngine.id := id d;
     ContextEngine.title := title d;
     ContextEngine.description := orEmpty (description d);
     ContextEngine.priority :=
       match priority d with
       | Some p => p
       | None => 0
       end;
     ContextEngine.labels :=
       match labels d with
       | Some l => map label_name l
       | None => []
       end;
     ContextEngine.url := url d |}.

(** [postLinearComment]: without an API key nothing is sent. *)
Definition postLinearComment (issueId : string) (comment : Comment) : list Call :=
  if isSet (LINEAR_API_KEY env) then [PostComment issueId comment] else [].

Definition handler (req : Request) : Response * list Call :=
  if negb (String.eqb (method req) "POST") then
    respond 405 (ErrorBody "Method not allowed") []
  else if negb (verifyLinearSignature env (body req) (signature req)) then
    respond 401 (ErrorBody "Invalid signature") []
  else
    match parseLinearWebhook (body req) with
    | Throw m => respond 500 (InternalError m) []
    | Ok payload =>
        if negb (shouldProcessIssue payload) then
          respond 200 (MessageBody "Issue ignored (no ai-fix label)") []
        else
          match extractRepoInfo env payload with
          | Throw m => respond 500 (InternalError m) []
          | Ok None =>
              respond 400 (ErrorBody "Could not determine GitHub repository") []
          | Ok (Some repoInfo) =>
              let repoPath :=
                "/tmp/" +++ owner repoInfo +++ "-" +++ templateArg (repo repoInfo) in
              if cloneCompletes (owner repoInfo) (repo repoInfo) then
                let cloned := [CloneRepository (owner repoInfo) (repo repoInfo)] in
                let issue := issueOf (data payload) in
                let result := fixBug repoPath repoInfo issue in
                let fixed := cloned ++ [FixBug repoPath repoInfo issue] in
                if success result then
                  respond 200 (FixedBody (prUrl result) (files result))
                    (fixed ++ postLinearComment (id (data payload))
                                (PrCreated (prUrl result) (files result)
                                           (slice0 200 (reasoning result))))
                else
                  respond 200 (NotFixedBody (error result))
                    (fixed ++ postLinearComment (id (data payload))
                                (NoFix (reasoning result)))
              else
                respond 500 (InternalError "Command failed")
                  [CloneRepository (owner repoInfo) (repo repoInfo)]
          end
    end.

End Handler.

End Webhook.

(** ** lib/context-engine.ts: the symbol search *)

Module Symbols.
Import JS ContextEngine.

(** [{ ...m, context: m.content }]: the hit, and its line once more. *)
Record SymbolResult : Type := {
  hit : SearchResult;
  context : string
}.

Definition scriptExtensions : list string :=
  [".ts"; ".tsx"; ".js"; ".jsx"]%string.

Definition symbolPatterns (symbolName : string) : list string :=
  [ "function " +++ symbolName;
    "const " +++ symbolName;
    "class " +++ symbolName;
    "export function " +++ symbolName;
    "export const " +++ symbolName;
    "export class " +++ symbolName ].

(** The loop over the patterns. *)
Fixpoint searchPatterns (co : Checkout) (patterns : list string)
  : Result (list SymbolResult) :=
  match patterns with
  | [] => Ok []
  | pattern :: rest =>
      try! matches <- searchCode co pattern (Some scriptExtensions) ;;
      try! others <- searchPatterns co rest ;;
      Ok (map (fun m => {| hit := m; context := lineContent m |}) matches ++ others)
  end.

Definition findSymbol (co : Checkout) (symbolName : string)
  : Result (list SymbolResult) :=
  searchPatterns co (symbolPatterns symbolName).

End Symbols.

(** ** The shell of [execSync]

    [execSync(command)] hands [command] to [/bin/sh -c].  What the shell
    reads in a command line is followed here as far as the command lines
    of this program go.  Blanks separate words.  Outside quotes only
    letters, digits and the characters of [-_./:=%+,@] are followed.
    Between double quotes every character stands for itself, but for the
    double quote, which ends the quotes; the backslash, which takes the
    special meaning off a [$], a backquote, a double quote or a backslash
    behind it and swallows a line break; and [$(command)] and
    [`command`], which make the shell run [command] first and put what it
    prints in the word.  Anything else (a parameter, an operator, a single
    quote, a substitution that holds more than plain words and [;], the
    character of code 0, which [execSync] refuses) is not followed: the
    result is [None]. *)

Module Shell.
Import JS.

Inductive Piece : Type :=
| Literal (c : ascii)
| Substitution (command : string).

Definition Word : Type := list Piece.

(** Where the reading stands; a substitution is collected backwards. *)
Inductive Mode : Type :=
| Bare
| Quoted
| Escaped
| Dollar
| Parenthesis (command : string)
| Backquotes (command : string).

Definition isBlank (c : ascii) : bool := (code c =? 32)%N || (code c =? 9)%N.

Definition isBare (c : ascii) : bool :=
  isWord c
  || existsb (N.eqb (code c)) [45; 46; 47; 58; 61; 37; 43; 44; 64]%N.

(** The characters that do not stand for themselves between double
    quotes: the double quote, [$], the backquote, the backslash, and the
    character of code 0. *)
Definition isSpecial (c : ascii) : bool :=
  existsb (N.eqb (code c)) [34; 36; 96; 92; 0]%N.

Definition isPlain (c : ascii) : bool := negb (isSpecial c).

Definition reserved : list string :=
  [ "if"; "then"; "else"; "elif"; "fi"; "do"; "done"; "case"; "esac";
    "while"; "until"; "for"; "in"; "function"; "select"; "time" ]%string.

(** A word that the shell takes for the name of a command: not empty, not
    an assignment, not a reserved word. *)
Fixpoint isAssignment (s : string) : bool :=
  match s with
  | String c r => (code c =? 61)%N || isAssignment r
  | EmptyString => false
  end.

Definition isCommandName (s : string) : bool :=
  truthy s && negb (isAssignment s) && negb (existsb (String.eqb s) reserved).

Definition commandName (s : string) : string :=
  let t := drop (spanLength isBlank s) s in
  take (spanLength isBare t) t.

(** The text of a substitution that is followed: simple commands
    separated by [;]. *)
Definition runnable (command : string) : bool :=
  forallb (fun part => isCommandName (commandName part)) (split ";" command).

Definition push (p : Piece) (current : option Word) : option Word :=
  Some (p :: match current with
             | Some w => w
             | None => []
             end).

Definition opened (current : option Word) : option Word :=
  Some match current with
       | Some w => w
       | None => []
       end.

Definition close (done : list Word) (current : option Word) : list Word :=
  match current with
  | Some w => rev w :: done
  | None => done
  end.

Definition substituted (command : string) (current : option Word) : option (option Word) :=
  if runnable (reverse command)
  then Some (push (Substitution (reverse command)) current)
  else None.

(** The words of a command line; [done] and [current] are kept
    backwards. *)
Fixpoint lex (mode : Mode) (done : list Word) (current : option Word)
    (s : string) : option (list Word) :=
  match s with
  | EmptyString =>
      match mode with
      | Bare => Some (rev (close done current))
      | _ => None
      end
  | String c r =>
      if (code c =? 0)%N then None else
      match mode with
      | Bare =>
          if isBlank c then lex Bare (close done current) None r
          else if (code c =? 34)%N then lex Quoted done (opened current) r
          else if isBare c then lex Bare done (push (Literal c) current) r
          else None
      | Quoted =>
          if (code c =? 34)%N then lex Bare done current r
          else if (code c =? 36)%N then lex Dollar done current r
          else if (code c =? 96)%N then lex (Backquotes EmptyString) done current r
          else if (code c =? 92)%N then lex Escaped done current r
          else lex Quoted done (push (Literal c) current) r
      | Escaped =>
          if isSpecial c then lex Quoted done (push (Literal c) current) r
          else if (code c =? 10)%N then lex Quoted done current r
          else lex Quoted done (push (Literal c) (push (Literal "\") current)) r
      | Dollar =>
          if (code c =? 40)%N then lex (Parenthesis EmptyString) done current r
          else None
      | Parenthesis command =>
          if (code c =? 41)%N then
            match substituted command current with
            | Some next => lex Quoted done next r
            | None => None
            end
          else if isBare c || isBlank c || (code c =? 59)%N
          then lex (Parenthesis (String c command)) done current r
          else None
      | Backquotes command =>
          if (code c =? 96)%N then
            match substituted command current with
            | Some next => lex Quoted done next r
            | None => None
            end
          else if isBare c || isBlank c || (code c =? 59)%N
          then lex (Backquotes (String c command)) done current r
          else None
      end
  end.

Definition words (command : string) : option (list Word) :=
  lex Bare [] None command.

(** The text of a word without substitution. *)
Fixpoint literal (w : Word) : option string :=
  match w with
  | [] => Some EmptyString
  | Literal c :: r => option_map (String c) (literal r)
  | Substitution _ :: _ => None
  end.

Fixpoint literals (ws : list Word) : option (list string) :=
  match ws with
  | [] => Some []
  | w :: r =>
      match literal w, literals r with
      | Some s, Some l => Some (s :: l)
      | _, _ => None
      end
  end.

(** The command and its arguments, when the command line is one simple
    command of literal words. *)
Definition argv (command : string) : option (list string) :=
  match words command with
  | Some ws =>
      match literals ws with
      | Some (name :: args) =>
          if isCommandName name then Some (name :: args) else None
      | Some [] => Some []
      | None => None
      end
  | None => None
  end.

(** The commands that the shell runs first, to fill the words. *)
Definition substitutions (command : string) : option (list string) :=
  option_map
    (flat_map (flat_map (fun p => match p with
                                  | Literal _ => []
                                  | Substitution inner => [inner]
                                  end)))
    (words command).

End Shell.

(** ** lib/ai-agent.ts: [fixBug] and [analyzeAndFix]

    The model is not called here: what the API answers to the prompt built
    from a bundle, a text or an exception, is a parameter.  The request to
    the hosting API is logged beside the effects; its body is kept as the
    arguments of the template of [buildPRDescription].  The effects are
    those on the checkout: the [git log] of the context gathering, the
    branch, the writes, the commit and the push. *)

Module Pipeline.
Import JS Effects.

Record PRDescription : Type := {
  issueUrl : string;
  summary : string;
  analysis : string;
  changedPaths : list string
}.

(** The argument of [octokit.pulls.create]. *)
Record PullRequest : Type := {
  owner : string;
  repo : string;
  title : string;
  head : string;
  base : string;
  body : PRDescription
}.

(** What [fixBug] resolves to.  [fixDescription] and [reasoning] are
    whatever the reply of the model held under these names. *)
Record FixResult : Type := {
  success : bool;
  branch : string;
  prUrl : option string;
  prNumber : option Z;
  files : list string;
  fixDescription : Json.Value;
  reasoning : Json.Value;
  error : option string
}.

Definition buildPRDescription (issue : ContextEngine.LinearIssue)
    (fx : Applier.Fix) : PRDescription :=
  {| issueUrl := ContextEngine.url issue;
     summary := Applier.description fx;
     analysis := Applier.reasoning fx;
     changedPaths := map Applier.path (Applier.changes fx) |}.

(** *** The reply at its declared type

    [fixBug] reads [change.path], [change.content] and [fix.reasoning] as
    strings.  A reply is followed through the writes and the commit when
    it has the declared type: every change an object whose [path] and
    [content] are strings, [description] and [reasoning] strings, all of
    characters that the strings here hold.  What Node makes of another
    successful reply (a [TypeError] of [path.join] or [fs.writeFile], a
    number spelled into the commit message) is not followed. *)

Fixpoint textOf (units : list N) : option string :=
  match units with
  | [] => Some EmptyString
  | u :: r =>
      if (u <? 256)%N then option_map (String (ascii_of_N u)) (textOf r)
      else None
  end.

Definition text (v : option Json.Value) : option string :=
  match v with
  | Some (Json.JString units) => textOf units
  | _ => None
  end.

Definition declaredChange (v : Json.Value) : option Applier.Change :=
  match text (Agent.property "path" v), text (Agent.property "content" v) with
  | Some p, Some c => Some {| Applier.path := p; Applier.content := c |}
  | _, _ => None
  end.

Fixpoint declaredChanges (l : list Json.Value) : option (list Applier.Change) :=
  match l with
  | [] => Some []
  | v :: r =>
      match declaredChange v, declaredChanges r with
      | Some c, Some cs => Some (c :: cs)
      | _, _ => None
      end
  end.

Definition declared (reply : Agent.FixReply) : option Applier.Fix :=
  match declaredChanges (Agent.changes reply),
        text (Some (Agent.description reply)),
        text (Some (Agent.reasoning reply)) with
  | Some cs, Some d, Some r =>
      Some {| Applier.success := Agent.success reply;
              Applier.changes := cs;
              Applier.description := d;
              Applier.reasoning := r;
              Applier.error := Agent.error reply |}
  | _, _, _ => None
  end.

Section FixBug.

Variable w : World.
Variable engine : ContextEngine.Engine.
Variable co : ContextEngine.Checkout.
Variable syntaxErrorMessage : string -> string.

(** What [anthropic.messages.create] answers to the prompt of a bundle:
    the text of the reply, or an exception; a reply whose first block is
    no text makes [analyzeAndFix] throw in the same [try]. *)
Variable messagesCreate : ContextEngine.BugContext -> Result string.

(** What [octokit.pulls.create] answers: the address and the number of the
    pull request, or an exception. *)
Variable pullsCreate : PullRequest -> Result (string * Z).

Definition analyzeAndFix (context : ContextEngine.BugContext) : Agent.FixReply :=
  match messagesCreate context with
  | Ok reply => Agent.parseClaudeResponse syntaxErrorMessage reply
  | Throw m =>
      {| Agent.success := false;
         Agent.changes := [];
         Agent.description := Json.str "Failed to get fix from Claude";
         Agent.reasoning := Json.str "API error";
         Agent.error := Some m |}
  end.

(** [createPR] with [options.base] left out. *)
Definition createPR (branchName prTitle : string) (description : PRDescription)
  : PullRequest :=
  {| owner := ContextEngine.owner engine;
     repo := ContextEngine.repo engine;
     title := prTitle;
     head := branchName;
     base := "main";
     body := description |}.

Definition branchOf (issue : ContextEngine.LinearIssue) : string :=
  "fix/" +++ toLowerCase (ContextEngine.id issue).

(** The [catch] of [fixBug]. *)
Definition failedToFix (issue : ContextEngine.LinearIssue) (message : string)
  : FixResult :=
  {| success := false;
     branch := branchOf issue;
     prUrl := None;
     prNumber := None;
     files := [];
     fixDescription := Json.str "Failed to fix bug";
     reasoning := Json.str "An error occurred during the fix process";
     error := Some message |}.

(** Whether [gatherContextForBug] reaches its fifth step with a total
    under the limit of the commits, and so runs [git log] in the
    checkout. *)
Definition gitLogAsked (issue : ContextEngine.LinearIssue) : bool :=
  let signals := ContextEngine.extractSignalsFromIssue issue in
  let '(_, t1) := ContextEngine.loadStaticContext co in
  let '(_, t3) := ContextEngine.addFiles co (ContextEngine.files signals) [] t1 in
  match ContextEngine.searchStep co signals t3 with
  | Ok (_, t4) => t4 <? ContextEngine.commitsLimit
  | Throw _ => false
  end.

(** The effect of the context gathering on the checkout: the [git log],
    when it is run and completes. *)
Definition gatherEffects (issue : ContextEngine.LinearIssue) : list Effect :=
  if gitLogAsked issue then
    match ContextEngine.execSync co (ContextEngine.gitLogCommand None 5) with
    | Some _ => [Exec (ContextEngine.gitLogCommand None 5)]
    | None => []
    end
  else [].

(** The result, the effects on the checkout and the requests made of the
    hosting API; [None] for a successful reply that has not the declared
    type. *)
Definition fixBug (issue : ContextEngine.LinearIssue)
  : option (FixResult * list Effect * list PullRequest) :=
  match ContextEngine.gatherContextForBug co issue with
  | Throw m => Some (failedToFix issue m, [], [])
  | Ok context =>
      let branchName := branchOf issue in
      match ContextEngine.createBranch w branchName (gatherEffects issue) with
      | (Throw m, log1) => Some (failedToFix issue m, log1, [])
      | (Ok _, log1) =>
          let reply := analyzeAndFix context in
          if negb (Agent.success reply) then
            Some ({| success := false;
                     branch := branchName;
                     prUrl := None;
                     prNumber := None;
                     files := [];
                     fixDescription := Json.str "AI agent could not generate a fix";
                     reasoning := Agent.reasoning reply;
                     error := Agent.error reply |}, log1, [])
          else
            match declared reply with
            | None => None
            | Some fx =>
                match Applier.applyChanges w engine issue fx log1 with
                | (Throw m, log2) => Some (failedToFix issue m, log2, [])
                | (Ok _, log2) =>
                    match ContextEngine.pushBranch w branchName log2 with
                    | (Throw m, log3) => Some (failedToFix issue m, log3, [])
                    | (Ok _, log3) =>
                        let request :=
                          createPR branchName ("Fix: " +++ ContextEngine.title issue)
                                   (buildPRDescription issue fx) in
                        match pullsCreate request with
                        | Throw m => Some (failedToFix issue m, log3, [request])
                        | Ok (address, number) =>
                            Some ({| success := true;
                                     branch := branchName;
                                     prUrl := Some address;
                                     prNumber := Some number;
                                     files := map Applier.path (Applier.changes fx);
                                     fixDescription := Agent.description reply;
                                     reasoning := Agent.reasoning reply;
                                     error := None |}, log3, [request])
                        end
                    end
                end
            end
      end
  end.

End FixBug.

End Pipeline.

(** ** api/webhook.ts: the handler at run time

    [Webhook.handler] takes what [fixBug] resolves to at its declared
    type.  At run time [result.reasoning] is whatever the reply of the
    model held under that name, and the call of [fixBug] itself fails when
    its own [catch] throws, on an issue whose identifier is no string,
    which [parseLinearWebhook] does not check.  The handler is followed
    here on these results too; the messages of the [TypeError]s are those
    of V8. *)

Module Served.
Import JS Webhook.

(** The comment posted on the issue: which of the two templates, and the
    value that is spelled into it. *)
Inductive Comment : Type :=
| PrCreated (prUrl : option string) (files : list string) (reasoningHead : Json.Value)
| NoFix (reasoning : Json.Value).

Inductive Call : Type :=
| CloneRepository (owner : string) (repo : option string)
| FixBug (repoPath : string) (info : RepoInfo) (issue : ContextEngine.LinearIssue)
| PostComment (issueId : string) (comment : Comment).

Definition respond (code : Z) (b : ResponseBody) (calls : list Call)
  : Response * list Call :=
  ({| status := code; json := b |}, calls).

(** [result.reasoning.slice(0, 200)]: the first 200 units of a string, the
    first 200 entries of an array; no other value has a [slice] to call. *)
Definition sliceReasoning (v : Json.Value) : Result Json.Value :=
  match v with
  | Json.JString units => Ok (Json.JString (firstn 200 units))
  | Json.JArray items => Ok (Json.JArray (firstn 200 items))
  | Json.JNull => Throw "Cannot read properties of null (reading 'slice')"
  | _ => Throw "result.reasoning.slice is not a function"
  end.

(** Whether a value can be spelled into a template.  An object of the
    reply has the [toString] of every object, which answers
    [[object Object]], unless it has a member of that name, which is no
    function: then the conversion throws, with [valueOf] or without.  An
    array is spelled entry by entry, [null] as nothing. *)
Fixpoint printable (v : Json.Value) : bool :=
  match v with
  | Json.JArray items => forallb printable items
  | Json.JObject members =>
      match Json.getProperty (Json.unitsOf "toString") members with
      | Some _ => false
      | None => true
      end
  | _ => true
  end.

Definition toText (v : Json.Value) : Result Json.Value :=
  if printable v then Ok v
  else Throw "Cannot convert object to primitive value".

(** The argument of [postLinearComment], which is built before the call:
    the head of the reasoning for a success, the reasoning for a
    failure. *)
Definition commentOf (result : Pipeline.FixResult) : Result Comment :=
  if Pipeline.success result then
    try! head <- sliceReasoning (Pipeline.reasoning result) ;;
    try! shown <- toText head ;;
    Ok (PrCreated (Pipeline.prUrl result) (Pipeline.files result) shown)
  else
    try! shown <- toText (Pipeline.reasoning result) ;;
    Ok (NoFix shown).

Section Handler.

Variable env : Env.
Variable cloneCompletes : string -> option string -> bool.

(** What the call of [agent.fixBug] resolves to, or the exception it is
    rejected with. *)
Variable fixBug :
  string -> RepoInfo -> ContextEngine.LinearIssue -> Result Pipeline.FixResult.

Definition postLinearComment (issueId : string) (comment : Comment) : list Call :=
  if isSet (LINEAR_API_KEY env) then [PostComment issueId comment] else [].

Definition handler (req : Request) : Response * list Call :=
  if negb (String.eqb (method req) "POST") then
    respond 405 (ErrorBody "Method not allowed") []
  else if negb (verifyLinearSignature env (body req) (signature req)) then
    respond 401 (ErrorBody "Invalid signature") []
  else
    match parseLinearWebhook (body req) with
    | Throw m => respond 500 (InternalError m) []
    | Ok payload =>
        if negb (shouldProcessIssue payload) then
          respond 200 (MessageBody "Issue ignored (no ai-fix label)") []
        else
          match extractRepoInfo env payload with
          | Throw m => respond 500 (InternalError m) []
          | Ok None =>
              respond 400 (ErrorBody "Could not determine GitHub repository") []
          | Ok (Some repoInfo) =>
              let repoPath :=
                "/tmp/" +++ owner repoInfo +++ "-" +++ templateArg (repo repoInfo) in
              if cloneCompletes (owner repoInfo) (repo repoInfo) then
                let issue := issueOf (data payload) in
                let fixed :=
                  [CloneRepository (owner repoInfo) (repo repoInfo);
                   FixBug repoPath repoInfo issue] in
                match fixBug repoPath repoInfo issue with
                | Throw m => respond 500 (InternalError m) fixed
                | Ok result =>
                    match commentOf result with
                    | Throw m => respond 500 (InternalError m) fixed
                    | Ok comment =>
                        respond 200
                          (if Pipeline.success result
                           then FixedBody (Pipeline.prUrl result) (Pipeline.files result)
                           else NotFixedBody (Pipeline.error result))
                          (fixed ++ postLinearComment (id (data payload)) comment)
                    end
                end
              else
                respond 500 (InternalError "Command failed")
                  [CloneRepository (owner repoInfo) (repo repoInfo)]
          end
    end.

End Handler.

End Served.

(** ** api/webhook.ts: [cloneRepository] *)

Module Clone.
Import JS Effects.






End Clone.

(** ** cli.ts *)

Module Cli.
Import JS.

Record Env : Type := {
  ANTHROPIC_API_KEY : option string;
  GITHUB_TOKEN : option string;
  GITHUB_REPOSITORY : option string
}.

(** The issue that [main] makes up; an argument that is not there is
    [undefined]. *)
Record MockIssue : Type := {
  id : option string;
  title : string;
  description : option string;
  priority : Z;
  labels : list string;
  url : string
}.

(** [process.exit(code)] after the lines printed on the error stream, or
    the engine and the agent are built and [fixBug] is called. *)
Inductive Outcome : Type :=
| Exit (code : Z) (printed : list string)
| Start (owner : string) (repo : option string) (issue : MockIssue).

(** [args.indexOf(x)] *)
Fixpoint indexOf (x : string) (args : list string) : option nat :=
  match args with
  | [] => None
  | a :: rest =>
      if String.eqb a x then Some O
      else option_map S (indexOf x rest)
  end.

(** [args[i + 1]] *)
Definition argumentAfter (index : nat) (args : list string) : option string :=
  nth_error args (S index).

Definition main (args : list string) (env : Env) : Outcome :=
  let issueIdIndex := indexOf "--issue" args in
  let descriptionIndex := indexOf "--description" args in
  match issueIdIndex, descriptionIndex with
  | None, None =>
      Exit 1 [ "Usage: npm run cli -- --issue LIN-123"%string;
               "   or: npm run cli -- --description " +++ dquote +++ "Bug description" +++ dquote ]
  | _, _ =>
      if negb (Webhook.isSet (ANTHROPIC_API_KEY env)) then
        Exit 1 ["Error: ANTHROPIC_API_KEY not set in .env"%string]
      else if negb (Webhook.isSet (GITHUB_TOKEN env)) then
        Exit 1 ["Error: GITHUB_TOKEN not set in .env"%string]
      else if negb (Webhook.isSet (GITHUB_REPOSITORY env)) then
        Exit 1 ["Error: GITHUB_REPOSITORY not set in .env (format: owner/repo)"%string]
      else
        let pieces := split "/" (Webhook.orEmpty (GITHUB_REPOSITORY env)) in
        let issueArgument :=
          match issueIdIndex with
          | Some i => argumentAfter i args
          | None => None
          end in
        Start (nth 0 pieces EmptyString) (nth_error pieces 1)
          {| id :=
               match issueIdIndex with
               | Some _ => issueArgument
               | None => Some "CLI-TEST"%string
               end;
             title :=
               match descriptionIndex with
               | Some _ => "Manual CLI Test"%string
               | None => "Fix issue " +++ Webhook.templateArg issueArgument
               end;
             description :=
               match descriptionIndex with
               | Some d => argumentAfter d args
               | None => Some "Testing AI bug fixer from CLI"%string
               end;
             priority := 1;
             labels := ["ai-fix"%string];
             url := "https://linear.app/test" |}
  end.

End Cli.

(** * Notions used in the statements *)

Module Notions.
Import JS.

(** [l] keeps some elements of [whole], in the order of [whole]. *)
Inductive InOrder {A : Type} : list A -> list A -> Prop :=
| InOrder_done : InOrder [] []
| InOrder_skip (x : A) (l whole : list A) :
    InOrder l whole -> InOrder l (x :: whole)
| InOrder_keep (x : A) (l whole : list A) :
    InOrder l whole -> InOrder (x :: l) (x :: whole).

(** The value a call returns, when it does not throw. *)
Definition returned {A : Type} (r : Result A) : option A :=
  match r with
  | Ok a => Some a
  | Throw _ => None
  end.

(** [n] times the letter [a]. *)
Fixpoint repeated (n : nat) : string :=
  match n with
  | O => EmptyString
  | S k => String "a" (repeated k)
  end.

Definition filler (n : Z) : string := repeated (Z.to_nat n).

Section ContextEngine.
Import ContextEngine.

Definition fileEntry (filePath text : string) : FileContext :=
  {| path := filePath; content := text;
     lineCount := Z.of_nat (length (split nl text)) |}.

Definition tokensOf (l : list FileContext) : Z :=
  fold_right (fun f acc => estimateTokens (content f) + acc) 0 l.

(** What the loop of step 3 does with one path. *)
Definition includeFile (co : Checkout) (filePath : string)
    (state : list FileContext * Z) : list FileContext * Z :=
  match readFile co filePath with
  | Ok text =>
      if snd state + estimateTokens text <? filesLimit
      then (fst state ++ [fileEntry filePath text],
            snd state + estimateTokens text)
      else state
  | Throw _ => state
  end.

(** The running total when the search step is reached. *)
Definition tokensBeforeSearch (co : Checkout) (signals : Signals) : Z :=
  snd (addFiles co (files signals) [] (snd (loadStaticContext co))).

Definition noGit : string -> option string := fun _ => None.

Definition issueTitled (t : string) : LinearIssue :=
  {| id := "LIN-1"; title := t; description := EmptyString; priority := 1;
     labels := ["ai-fix"%string]; url := "https://linear.app/test" |}.

(** Notes of 400,001 characters and nothing else. *)
Definition checkoutWithLongNotes : Checkout :=
  {| root := Directory true
       [(".ai"%string,
         Directory true [("context.md"%string, File (Some (filler 400001)))])];
     execSync := noGit |}.

(** Notes of 79,999 tokens beside a source file whose one line is the
    error text followed by 79,953 letters: one hit of 20,002 tokens. *)
Definition checkoutWithLongLine : Checkout :=
  {| root := Directory true
       [(".ai"%string,
         Directory true [("context.md"%string, File (Some (filler 319996)))]);
        ("app.ts"%string, File (Some ("Error: boom" +++ filler 79953)))];
     execSync := noGit |}.

(** Notes of 84,999 tokens and a log of one commit whose subject has
    59,939 letters: commit records of 15,002 tokens. *)
Definition checkoutWithLongLog : Checkout :=
  {| root := Directory true
       [(".ai"%string,
         Directory true [("context.md"%string, File (Some (filler 339996)))])];
     execSync := fun command =>
       if String.eqb command (gitLogCommand None 5)
       then Some ("abc123|" +++ filler 59939 +++ "|dev|2024-01-01")
       else None |}.

(** What the bundle counts for its hits and for its commit records. *)
Definition hitsTokens (ctx : BugContext) : Z :=
  estimateTokens (stringifySearchResults (searchResults ctx)).

Definition commitsTokens (ctx : BugContext) : Z :=
  estimateTokens (stringifyCommits (recentCommits ctx)).

(** A file of 280,000 characters, which alone reaches the limit of the
    files, and a small one behind it. *)
Definition checkoutStraddling : Checkout :=
  {| root := Directory true
       [("big.ts"%string, File (Some (filler 280000)));
        ("small.ts"%string, File (Some "ok"%string))];
     execSync := noGit |}.

(** A directory that cannot be listed. *)
Definition checkoutUnlistable : Checkout :=
  {| root := Directory true [("src"%string, Directory false [])];
     execSync := noGit |}.

(** A source file below a directory that holds the error text. *)
Definition checkoutNested : Checkout :=
  {| root := Directory true
       [("src"%string,
         Directory true [("app.ts"%string, File (Some "throw new Error('boom')"%string))])];
     execSync := noGit |}.

(** The same with a file of the same name at the root, which holds the
    error text on another line. *)
Definition checkoutShadowed : Checkout :=
  {| root := Directory true
       [("src"%string,
         Directory true [("app.ts"%string, File (Some "throw new Error('boom')"%string))]);
        ("app.ts"%string,
         File (Some ("// entry" +++ String nl "main().catch(() => new Error('boom'))")))];
     execSync := noGit |}.

(** A small checkout and an issue that names one of its files and an
    error text. *)
Definition sampleCheckout : Checkout :=
  {| root := Directory true
       [(".ai"%string,
         Directory true [("context.md"%string, File (Some "Project notes"%string))]);
        ("src"%string,
         Directory true [("a.ts"%string, File (Some "export const a = 1;"%string))]);
        ("app.ts"%string,
         File (Some ("run();" +++ String nl "  throw new Error('boom');  ")))];
     execSync := fun command =>
       if String.eqb command (gitLogCommand None 5)
       then Some "abc123|Initial commit|dev|2024-01-01"%string
       else None |}.

Definition sampleIssue : LinearIssue :=
  {| id := "LIN-7"; title := "Crash in src/a.ts"; description := "Error('boom')";
     priority := 2; labels := ["ai-fix"%string]; url := "https://linear.app/i/7" |}.

Definition sampleBundle : BugContext :=
  {| staticContext := "Project notes";
     issueDetails := sampleIssue;
     relevantFiles := [fileEntry "src/a.ts" "export const a = 1;"];
     recentCommits :=
       [{| sha := "abc123"; message := Some "Initial commit"%string;
           author := Some "dev"%string; date := Some "2024-01-01"%string |}];
     searchResults :=
       [{| file := "app.ts"; line := 2; lineContent := "throw new Error('boom');" |}];
     estimatedTokens := 46 |}.

(** A hit of the search for [pattern]: a line of a listed file with one of
    the extensions, its number counted from one and its text trimmed. *)
Definition foundIn (co : Checkout) (pattern : string) (hit : SearchResult) : Prop :=
  (exists ext stem, In ext sourceExtensions /\ file hit = stem +++ ext) /\
  skipped (file hit) = false /\
  exists text k l,
    readFile co (file hit) = Ok text /\
    nth_error (split nl text) k = Some l /\
    line hit = Z.of_nat k + 1 /\
    (exists before after, l = before +++ pattern +++ after) /\
    lineContent hit = trim l.

End ContextEngine.

Section Agent.
Import Json Agent.

(** The reply holds JSON with a truthy reasoning [r], a truthy description
    [d] and a list of changes [items]. *)
Definition wellFormed (text : string) (r d : Value) (items : list Value) : Prop :=
  exists json parsed,
    jsonMatch text = Some json /\
    parse json = Some parsed /\
    property "reasoning" parsed = Some r /\ truthy (Some r) = true /\
    property "description" parsed = Some d /\ truthy (Some d) = true /\
    property "changes" parsed = Some (JArray items).


Definition quoted (s : string) : string := dquote +++ s +++ dquote.

Definition member (name value : string) : string := quoted name +++ ":" +++ value.


(** A reply, with prose around the JSON, whose changes are a number, an
    object without content and [null]. *)
Definition replyWithLooseChanges : string :=
  "Here is the fix: {" +++ member "reasoning" (quoted "off by one") +++ ", "
      +++ member "description" (quoted "fix the bound") +++ ", "
      +++ member "changes" ("[1, {" +++ member "path" (quoted "src/a.ts") +++ "}, null]")
      +++ "} Hope it helps.".


Definition engineMessage : string -> string :=
  fun _ => "Unexpected token n in JSON at position 2"%string.

End Agent.

Section Applier.
Import Effects Applier.

(** What writing one change asks of the file system. *)
Definition writesOf (engine : ContextEngine.Engine) (c : Change) : list Effect :=
  let fullPath := Path.join [ContextEngine.repoPath engine; path c] in
  [Mkdir (Path.dirname fullPath); WriteFile fullPath (content c)].

(** The message of the commit of a fix. *)
Definition messageOf (issue : ContextEngine.LinearIssue) (fx : Fix) : string :=
  "Fix: " +++ ContextEngine.title issue +++ nl +++ nl +++ reasoning fx
    +++ nl +++ nl +++ "Linear Issue: " +++ ContextEngine.url issue.

(** All that applying and committing a fix asks for: the writes of the
    changes in order, the staging of their paths, one commit and the
    reading of its hash. *)
Definition effectsOfFix (engine : ContextEngine.Engine)
    (issue : ContextEngine.LinearIssue) (fx : Fix) : list Effect :=
  flat_map (writesOf engine) (changes fx)
  ++ map (fun c => Exec ("git add " +++ dquote +++ path c +++ dquote)) (changes fx)
  ++ [Exec ("git commit -m " +++ dquote +++ messageOf issue fx +++ dquote);
      Exec "git rev-parse HEAD"].

(** Whether a run completes or not, it asks for nothing else: [m] extends
    the log by a prefix of [full], and by all of it when it completes. *)
Definition within {A : Type} (m : M A) (full : list Effect) : Prop :=
  forall log, exists done rest,
    snd (m log) = log ++ done /\
    done ++ rest = full /\
    (forall a, fst (m log) = Ok a -> rest = []).

Definition obligingWorld : World := fun _ _ => Some ("abc123" +++ nl).

Definition sampleEngine : ContextEngine.Engine :=
  {| ContextEngine.githubToken := "token";
     ContextEngine.repoPath := "/tmp/acme-app";
     ContextEngine.owner := "acme";
     ContextEngine.repo := "app" |}.

Definition sampleFix : Fix :=
  {| success := true;
     changes := [ {| path := "src/a.ts"; content := "export const a = 2;" |};
                  {| path := "README.md"; content := "# app" |} ];
     description := "fix the bound";
     reasoning := "off by one";
     error := None |}.

End Applier.

Section Webhook.
Import Webhook.

Definition labelsOf (payload : LinearWebhookPayload) : list Label :=
  match labels (data payload) with
  | Some l => l
  | None => []
  end.

(** None of the three sources names a repository. *)
Definition noUrl (payload : LinearWebhookPayload) : Prop :=
  githubUrlMatch (orEmpty (description (data payload))) = None.

Definition noTeamMapping (env : Env) (payload : LinearWebhookPayload) : Prop :=
  isSet (REPO_MAPPING env) = false \/
  truthy (teamKeyOf payload) = false \/
  Forall (fun mapping =>
            toLowerCase (trim (nth 0 (split "=" mapping) EmptyString))
            <> toLowerCase (teamKeyOf payload))
         (split "," (orEmpty (REPO_MAPPING env))).

Definition noDefault (env : Env) : Prop := isSet (GITHUB_REPOSITORY env) = false.

Definition envWith (secret mapping repository : option string) : Env :=
  {| LINEAR_WEBHOOK_SECRET := secret;
     REPO_MAPPING := mapping;
     GITHUB_REPOSITORY := repository;
     GITHUB_TOKEN := Some "token"%string;
     ANTHROPIC_API_KEY := Some "key"%string;
     LINEAR_API_KEY := Some "linear"%string |}.

(** A mapping for two teams and a default; the same without the default;
    a secret and a default. *)
Definition envComplete : Env :=
  envWith None (Some "NAV=acme/nav,API=acme/api"%string) (Some "acme/app"%string).

Definition envWithoutDefault : Env :=
  envWith None (Some "NAV=acme/nav,API=acme/api"%string) None.

Definition envWithSecret : Env :=
  envWith (Some "whsec"%string) None (Some "acme/app"%string).

Definition issueData (text : option string) (label teamName : string) : IssueData :=
  {| id := "LIN-7"; title := "Crash on start"; description := text;
     priority := Some 2; url := "https://linear.app/i/7";
     labels := Some [{| label_id := "l1"; label_name := label |}];
     team := Some {| team_id := "t1"; team_name := teamName |} |}.

Definition payloadOf (d : IssueData) : LinearWebhookPayload :=
  {| action := "update"; type := "Issue"; data := d |}.

Definition requestOf (sig : option string) (d : IssueData) : Request :=
  {| method := "POST"; signature := sig;
     body := Some {| body_action := Some "update"%string;
                     body_type := Some "Issue"%string;
                     body_data := Some d |} |}.

Definition cloneAlways : string -> option string -> bool := fun _ _ => true.

Definition fixNever : string -> RepoInfo -> ContextEngine.LinearIssue -> FixResult :=
  fun _ _ _ =>
    {| success := false; branch := "fix/lin-7"; prUrl := None; prNumber := None;
       files := []; fixDescription := "AI agent could not generate a fix";
       reasoning := "cannot tell"; error := Some "AI could not generate a confident fix"%string |}.

End Webhook.

End Notions.

(** * Further notions *)

Module MoreNotions.
Import JS.

(** [c] occurs in [s]. *)
Fixpoint hasChar (c : ascii) (s : string) : bool :=
  match s with
  | String d r => Ascii.eqb d c || hasChar c r
  | EmptyString => false
  end.

(** Every character of [s] satisfies [p]. *)
Fixpoint allChars (p : ascii -> bool) (s : string) : bool :=
  match s with
  | String d r => p d && allChars p r
  | EmptyString => true
  end.

(** [c] does not end a line. *)
Definition withinLine (c : ascii) : bool := negb (isLineTerminator c).

(** A name that stays where it is: not empty, not [.] and not [..]. *)
Definition plainName (segment : string) : Prop :=
  segment <> EmptyString /\ segment <> "."%string /\ segment <> ".."%string.

(** A path made of plain names separated by [/]. *)
Definition cleanPath (p : string) : Prop := Forall plainName (split "/" p).

(** A path made of plain names, absolute or not. *)
Definition cleanRoot (root : string) : Prop :=
  cleanPath root \/ exists r, root = "/" +++ r /\ cleanPath r.

(** A text that [dirname] may give back: not empty, and longer than the
    [/] alone when it starts with it. *)
Definition rooted (a : string) : Prop :=
  a <> EmptyString /\
  (startsWith "/" a = true -> (2 <= String.length a)%nat).

(** The directory of [p] below [root]: [root] followed by the names of
    [p] but the last. *)
Definition parentOf (root p : string) : string :=
  JS.join "/" (root :: removelast (split "/" p)).

Section ContextEngine.
Import ContextEngine.

(** The text that the pattern of the file paths accepts, up to the line
    number: names of [[\w-]] separated by [/], then a dot and a word;
    [started] tells that the name at the head may be empty. *)
Inductive PathText : bool -> string -> Prop :=
| PathText_char (started : bool) (c : ascii) (m : string) :
    isPathChar c = true -> PathText true m -> PathText started (String c m)
| PathText_slash (m : string) :
    PathText false m -> PathText true (String "/" m)
| PathText_dot (ext : string) :
    ext <> EmptyString -> allChars isWord ext = true ->
    PathText true (String "." ext).

(** A file that the walk reaches among [entries], under its own name:
    here, or inside a directory that is not skipped. *)
Inductive FileBelow : list (string * Entry) -> string -> Prop :=
| FileBelow_here (name : string) (text : option string)
    (rest : list (string * Entry)) :
    skipped name = false -> FileBelow ((name, File text) :: rest) name
| FileBelow_inside (name : string) (listable : bool)
    (inside rest : list (string * Entry)) (n : string) :
    skipped name = false -> FileBelow inside n ->
    FileBelow ((name, Directory listable inside) :: rest) n
| FileBelow_later (e : string * Entry) (rest : list (string * Entry)) (n : string) :
    FileBelow rest n -> FileBelow (e :: rest) n.

(** [hit] reports a line of [f] that contains [pattern]. *)
Definition reports (co : Checkout) (pattern f : string) (hit : SearchResult) : Prop :=
  file hit = f /\
  exists text k l,
    readFile co f = Ok text /\
    nth_error (split nl text) k = Some l /\
    line hit = Z.of_nat k + 1 /\
    (exists before after, l = before +++ pattern +++ after) /\
    lineContent hit = trim l.

(** A line of [git log] in the format asked for, and the record read
    from it. *)
Definition logLine (c : string * string * string * string) : string :=
  let '(s, m, a, d) := c in
  s +++ "|" +++ m +++ "|" +++ a +++ "|" +++ d.

Definition commitOf (c : string * string * string * string) : Commit :=
  let '(s, m, a, d) := c in
  {| sha := s; message := Some m; author := Some a; date := Some d |}.

Definition cleanField (s : string) : Prop :=
  hasChar "|" s = false /\ hasChar nl s = false.

Definition cleanCommit (c : string * string * string * string) : Prop :=
  let '(s, m, a, d) := c in
  s <> EmptyString /\ cleanField s /\ cleanField m /\ cleanField a /\ cleanField d.

(** An entry of the bundle as the loop makes it: the number of lines of
    its content, which is at least one. *)
Definition asRead (f : FileContext) : Prop :=
  lineCount f = Z.of_nat (length (split nl (content f))) /\ 1 <= lineCount f.

Definition gitAnswers (output : string) : string -> option string :=
  fun _ => Some output.

End ContextEngine.

Section Shell.
Import Effects Shell.

(** The word that spells [s]. *)
Fixpoint spelled (s : string) : Word :=
  match s with
  | String c r => Literal c :: spelled r
  | EmptyString => []
  end.

(** The word in the making after [s] has been read into it. *)
Definition grown (s : string) (current : option Word) : option Word :=
  Some (rev (spelled s) ++ match current with
                           | Some w => w
                           | None => []
                           end).

(** A text that double quotes keep as it is, and a text that stands for
    itself without quotes. *)
Definition quotable (s : string) : Prop := allChars isPlain s = true.


(** What an effect asks for, once the shell has read the command line. *)
Inductive Action : Type :=
| MakeDirectory (dir : string)
| Write (fullPath data : string)
| Run (argv : list string).

Definition actionOf (e : Effect) : option Action :=
  match e with
  | Mkdir dir => Some (MakeDirectory dir)
  | WriteFile fullPath data => Some (Write fullPath data)
  | Exec command => option_map Run (argv command)
  end.

(** The command lines of a log, and what the shell runs first for each. *)
Definition commandsOf (log : list Effect) : list string :=
  flat_map (fun e => match e with
                     | Exec command => [command]
                     | _ => []
                     end) log.

(** The writes of a fix, the staging of its paths, one commit and the
    reading of its hash. *)
Definition actionsOfFix (engine : ContextEngine.Engine)
    (issue : ContextEngine.LinearIssue) (fx : Applier.Fix) : list Action :=
  flat_map (fun c =>
              [MakeDirectory (parentOf (ContextEngine.repoPath engine) (Applier.path c));
               Write (ContextEngine.repoPath engine +++ "/" +++ Applier.path c)
                     (Applier.content c)])
           (Applier.changes fx)
  ++ map (fun c => Run ["git"; "add"; Applier.path c]%string) (Applier.changes fx)
  ++ [Run ["git"; "commit"; "-m"; Notions.messageOf issue fx]%string;
      Run ["git"; "rev-parse"; "HEAD"]%string].

(** The texts of a fix for an issue that reach a command line between
    double quotes. *)
Definition quotableFix (issue : ContextEngine.LinearIssue) (fx : Applier.Fix) : Prop :=
  Forall (fun c => quotable (Applier.path c)) (Applier.changes fx) /\
  quotable (ContextEngine.title issue) /\
  quotable (Applier.reasoning fx) /\
  quotable (ContextEngine.url issue).

(** The checkout and the changes of a fix are at paths made of plain
    names. *)
Definition placedFix (engine : ContextEngine.Engine) (fx : Applier.Fix) : Prop :=
  cleanRoot (ContextEngine.repoPath engine) /\
  Forall (fun c => cleanPath (Applier.path c)) (Applier.changes fx).

(** A fix whose reasoning holds a command between [$(] and [)]. *)
Definition fixWithCommand : Applier.Fix :=
  {| Applier.success := true;
     Applier.changes :=
       [ {| Applier.path := "src/a.ts"; Applier.content := "export const a = 2;" |} ];
     Applier.description := "fix the bound";
     Applier.reasoning := "$(touch pwned; git add pwned)";
     Applier.error := None |}.

End Shell.

Section Pipeline.
Import Effects Notions Pipeline.

(** All that a fix that goes through asks of the checkout: the log read
    for the bundle, the branch, the changes and their commit, the push. *)
Definition branchName (issue : ContextEngine.LinearIssue) : string :=
  "fix/" +++ toLowerCase (ContextEngine.id issue).


Definition push (issue : ContextEngine.LinearIssue) : Effect :=
  Exec ("git push -u origin " +++ branchName issue).




(** The same once the shell has read the command lines. *)
Definition gitLog : Action :=
  Run ["git"; "log"; "-5"; "--pretty=format:%H|%s|%an|%ai"]%string.




Definition modelAnswers (reply : string)
  : ContextEngine.BugContext -> Result string :=
  fun _ => Ok reply.

Definition hostAnswers (address : string) (number : Z)
  : PullRequest -> Result (string * Z) :=
  fun _ => Ok (address, number).

Definition sampleAddress : string := "https://github.com/acme/app/pull/1".

(** A reply that spells the sample fix. *)
Definition sampleReply : string :=
  "{" +++ member "reasoning" (quoted "off by one") +++ ","
      +++ member "description" (quoted "fix the bound") +++ ","
      +++ member "changes"
            ("[{" +++ member "path" (quoted "src/a.ts") +++ ","
                  +++ member "content" (quoted "export const a = 2;") +++ "},{"
                  +++ member "path" (quoted "README.md") +++ ","
                  +++ member "content" (quoted "# app") +++ "}]")
      +++ "}".

(** A run that goes through, and its result. *)
Definition sampleRun : option (FixResult * list Effect * list PullRequest) :=
  fixBug obligingWorld sampleEngine sampleCheckout engineMessage
         (modelAnswers sampleReply) (hostAnswers sampleAddress 1) sampleIssue.


End Pipeline.

Section Webhook.
Import Notions Webhook.

(** [s] is empty or starts with a character that [p] refuses: a run of
    [p] ends there. *)
Definition stopsAt (p : ascii -> bool) (s : string) : bool :=
  match s with
  | String c _ => negb (p c)
  | EmptyString => true
  end.

(** What the second group of the pattern of the URL accepts. *)
Definition inRepoName (c : ascii) : bool := notSlash c && negb (isSpace c).

(** The description holds [github.com/o/r] after [before], and this is
    the first [github.com/] of it. *)
Definition firstUrl (description before o r rest : string) : Prop :=
  description = before +++ "github.com/" +++ o +++ "/" +++ r +++ rest /\
  includes "github.com/" (before +++ "github.com") = false.

(** A mapping whose entry for the team [NAV] names no repository. *)
Definition envBrokenMapping : Env :=
  envWith None (Some "API=acme/api, NAV ,OPS=acme/ops"%string) (Some "acme/app"%string).

Definition describedBy (text : string) : LinearWebhookPayload :=
  payloadOf (issueData (Some text) "ai-fix" "NAV").

End Webhook.

Section Served.
Import Notions Webhook.

(** A result of the declared type as it is at run time, and a call of the
    typed handler as one of the handler at run time. *)
Definition atRunTime (r : FixResult) : Pipeline.FixResult :=
  {| Pipeline.success := success r;
     Pipeline.branch := branch r;
     Pipeline.prUrl := prUrl r;
     Pipeline.prNumber := prNumber r;
     Pipeline.files := files r;
     Pipeline.fixDescription := Json.str (fixDescription r);
     Pipeline.reasoning := Json.str (reasoning r);
     Pipeline.error := error r |}.

Definition callAtRunTime (c : Call) : Served.Call :=
  match c with
  | CloneRepository o r => Served.CloneRepository o r
  | FixBug repoPath info issue => Served.FixBug repoPath info issue
  | PostComment issueId (PrCreated u f head) =>
      Served.PostComment issueId (Served.PrCreated u f (Json.str head))
  | PostComment issueId (NoFix r) =>
      Served.PostComment issueId (Served.NoFix (Json.str r))
  end.

(** [fixBug] resolving to a success whose reasoning is the number 42. *)
Definition fixWithNumber
  : string -> RepoInfo -> ContextEngine.LinearIssue -> Result Pipeline.FixResult :=
  fun _ _ _ =>
    Ok {| Pipeline.success := true;
          Pipeline.branch := "fix/lin-7";
          Pipeline.prUrl := Some "https://github.com/acme/app/pull/1"%string;
          Pipeline.prNumber := Some 1;
          Pipeline.files := ["src/a.ts"%string];
          Pipeline.fixDescription := Json.str "fix the bound";
          Pipeline.reasoning := Json.JNumber false 42 0;
          Pipeline.error := None |}.

(** [fixBug] resolving to a declined fix whose reasoning is an object
    with a member [toString]. *)
Definition declinedWithObject
  : string -> RepoInfo -> ContextEngine.LinearIssue -> Result Pipeline.FixResult :=
  fun _ _ _ =>
    Ok {| Pipeline.success := false;
          Pipeline.branch := "fix/lin-7";
          Pipeline.prUrl := None;
          Pipeline.prNumber := None;
          Pipeline.files := [];
          Pipeline.fixDescription := Json.str "AI agent could not generate a fix";
          Pipeline.reasoning :=
            Json.JObject [(Json.unitsOf "toString", Json.JNumber false 1 0)];
          Pipeline.error := Some "AI could not generate a confident fix"%string |}.

End Served.

End MoreNotions.

(** * Properties of the context assembler *)

Module ContextEngineFacts.
Import JS ContextEngine Notions.

(** ** Text *)

Lemma startsWith_append (p s : string) : startsWith p (p +++ s) = true.
Proof.
  induction p as [|c p IH]; simpl; [reflexivity|].
  now rewrite Ascii.eqb_refl.
Qed.

Lemma startsWith_split (p s : string) :
  startsWith p s = true -> exists rest, s = p +++ rest.
Proof.
  revert s; induction p as [|c p IH]; intros s H; simpl in *.
  - now exists s.
  - destruct s as [|d s]; [discriminate|].
    apply andb_true_iff in H as [Hc Hp].
    apply Ascii.eqb_eq in Hc; subst d.
    destruct (IH _ Hp) as [rest ->]. now exists rest.
Qed.

Lemma includes_here (p s : string) :
  startsWith p s = true -> includes p s = true.
Proof. intros H. destruct s; simpl; rewrite H; reflexivity. Qed.

(** [includes] is the substring test. *)
Lemma includes_substring (p s : string) :
  includes p s = true <-> exists before after, s = before +++ p +++ after.
Proof.
  split.
  - induction s as [|c s IH]; simpl; intros H.
    + rewrite orb_false_r in H. apply startsWith_split in H as [rest ->].
      now exists EmptyString, rest.
    + apply orb_true_iff in H as [H|H].
      * apply startsWith_split in H as [rest ->]. now exists EmptyString, rest.
      * destruct (IH H) as (b & a & ->). now exists (String c b), a.
  - intros (b & a & ->). induction b as [|c b IH]; simpl.
    + apply includes_here, startsWith_append.
    + rewrite IH. apply orb_true_r.
Qed.

Lemma len_nonneg (s : string) : 0 <= len s.
Proof. unfold len; lia. Qed.

Lemma estimateTokens_nonneg (s : string) : 0 <= estimateTokens s.
Proof.
  unfold estimateTokens. pose proof (len_nonneg s).
  apply Z.div_pos; lia.
Qed.

(** Four characters a token, rounded up. *)
Lemma estimateTokens_ceiling (s : string) :
  4 * (estimateTokens s - 1) < len s <= 4 * estimateTokens s.
Proof.
  unfold estimateTokens. pose proof (len_nonneg s).
  pose proof (Z.div_mod (len s + 3) 4 ltac:(lia)).
  pose proof (Z.mod_pos_bound (len s + 3) 4 ltac:(lia)). lia.
Qed.

Lemma limits :
  filesLimit = 70000 /\ searchLimit = 80000 /\ commitsLimit = 85000.
Proof. repeat split; reflexivity. Qed.

(** ** The file-inclusion loop *)

Lemma InOrder_none {A : Type} (whole : list A) : InOrder [] whole.
Proof. induction whole; constructor; assumption. Qed.

Lemma tokensOf_nonneg (l : list FileContext) : 0 <= tokensOf l.
Proof.
  induction l as [|f l IH]; simpl; [lia|].
  pose proof (estimateTokens_nonneg (content f)). lia.
Qed.

(** Once the running total has reached the limit nothing is added: the
    [break] and the test on each file agree. *)
Lemma addFiles_full (co : Checkout) (paths : list string)
    (included : list FileContext) (t : Z) :
  filesLimit <= t -> addFiles co paths included t = (included, t).
Proof.
  intros H. destruct paths as [|p rest]; simpl; [reflexivity|].
  destruct (Z.geb_spec t filesLimit); [reflexivity | lia].
Qed.

Lemma addFiles_cons (co : Checkout) (p : string) (rest : list string)
    (included : list FileContext) (t : Z) :
  addFiles co (p :: rest) included t =
  addFiles co rest (fst (includeFile co p (included, t)))
                   (snd (includeFile co p (included, t))).
Proof.
  unfold includeFile; simpl.
  destruct (Z.geb_spec t filesLimit) as [Hfull|Hroom].
  - destruct (readFile co p) as [text|m]; simpl.
    + pose proof (estimateTokens_nonneg text).
      destruct (Z.ltb_spec (t + estimateTokens text) filesLimit); [lia|].
      simpl. now rewrite addFiles_full.
    + now rewrite addFiles_full.
  - destruct (readFile co p) as [text|m]; simpl; [|reflexivity].
    destruct (t + estimateTokens text <? filesLimit); reflexivity.
Qed.

Lemma addFiles_fold (co : Checkout) (paths : list string)
    (included : list FileContext) (t : Z) :
  addFiles co paths included t =
  fold_left (fun state p => includeFile co p state) paths (included, t).
Proof.
  revert included t; induction paths as [|p rest IH]; intros; [reflexivity|].
  rewrite addFiles_cons, IH. simpl.
  now destruct (includeFile co p (included, t)).
Qed.

Lemma addFiles_app (co : Checkout) (before after : list string)
    (included : list FileContext) (t : Z) :
  addFiles co (before ++ after) included t =
  addFiles co after (fst (addFiles co before included t))
                    (snd (addFiles co before included t)).
Proof.
  rewrite !addFiles_fold, fold_left_app.
  now destruct (fold_left _ before (included, t)).
Qed.

(** The files added, their order, their cost and the limit. *)
Lemma addFiles_added (co : Checkout) (paths : list string)
    (included : list FileContext) (t : Z) :
  exists added,
    fst (addFiles co paths included t) = included ++ added /\
    snd (addFiles co paths included t) = t + tokensOf added /\
    InOrder (map path added) paths /\
    Forall (fun f => readFile co (path f) = Ok (content f)) added /\
    (added <> [] -> snd (addFiles co paths included t) < filesLimit).
Proof.
  revert included t; induction paths as [|p rest IH]; intros.
  - exists []; simpl. rewrite app_nil_r.
    repeat split; try constructor; try lia. congruence.
  - rewrite addFiles_cons. unfold includeFile.
    destruct (readFile co p) as [text|m] eqn:Hread; simpl.
    + destruct (Z.ltb_spec (t + estimateTokens text) filesLimit) as [Hfit|Hno]; simpl.
      * destruct (IH (included ++ [fileEntry p text]) (t + estimateTokens text))
          as (added & Hf & Ht & Ho & Hr & Hl).
        exists (fileEntry p text :: added). rewrite Hf, Ht; simpl.
        rewrite <- app_assoc. repeat split; simpl; try lia.
        -- now constructor.
        -- constructor; [assumption|assumption].
        -- intros _. destruct added as [|a added'].
           ++ rewrite Ht in *. simpl in *. lia.
           ++ rewrite <- Ht. apply Hl. discriminate.
      * destruct (IH included t) as (added & Hf & Ht & Ho & Hr & Hl).
        exists added. repeat split; try assumption. now constructor.
    + destruct (IH included t) as (added & Hf & Ht & Ho & Hr & Hl).
      exists added. repeat split; try assumption. now constructor.
Qed.

Lemma addFiles_below (co : Checkout) (paths : list string)
    (included : list FileContext) (t : Z) :
  t < filesLimit -> snd (addFiles co paths included t) < filesLimit.
Proof.
  intros H. destruct (addFiles_added co paths included t)
    as (added & _ & Ht & _ & _ & Hl).
  destruct added as [|a l]; [rewrite Ht; simpl; lia | apply Hl; discriminate].
Qed.

(** ** The directory walk and the search *)

Lemma Entry_rect_nested (P : Entry -> Prop) :
  (forall text, P (File text)) ->
  (forall listable entries,
      Forall (fun ne => P (snd ne)) entries -> P (Directory listable entries)) ->
  forall e, P e.
Proof.
  intros Hfile Hdir. fix self 1. intros [text|listable entries].
  - apply Hfile.
  - apply Hdir. induction entries as [|[name e] rest IH]; constructor.
    + apply self.
    + apply IH.
Qed.

(** No listed name is hidden or [node_modules]. *)
Lemma walk_names (dir : Entry) (names : list string) :
  walk dir = Ok names -> Forall (fun n => skipped n = false) names.
Proof.
  revert names. induction dir as [text|listable entries IH] using Entry_rect_nested;
    intros names H; simpl in H; [discriminate|].
  destruct listable; [|discriminate].
  revert names H. induction IH as [|[name e] rest He Hrest IHrest]; intros names H.
  - injection H as <-. constructor.
  - destruct (skipped name) eqn:Hskip; [now apply IHrest|].
    destruct e as [text|l es].
    + destruct ((fix each (entries : list (string * Entry)) := _) rest) as [others|m] eqn:E;
        simpl in H; [|discriminate].
      injection H as <-. constructor; [assumption|]. now apply IHrest.
    + destruct (walk (Directory l es)) as [below|m] eqn:Ew; simpl in H; [|discriminate].
      destruct ((fix each (entries : list (string * Entry)) := _) rest) as [others|m] eqn:E;
        simpl in H; [|discriminate].
      injection H as <-. apply Forall_app; split.
      * now apply He.
      * now apply IHrest.
Qed.

Lemma matchingLines_sound (pattern f : string) (lines : list string) (index : Z)
    (hit : SearchResult) :
  In hit (matchingLines pattern f lines index) ->
  file hit = f /\
  exists k l, nth_error lines k = Some l /\
              line hit = index + Z.of_nat k + 1 /\
              includes pattern l = true /\
              lineContent hit = trim l.
Proof.
  revert index; induction lines as [|l rest IH]; intros index H; simpl in H; [contradiction|].
  assert (Hrest : In hit (matchingLines pattern f rest (index + 1)) ->
                  file hit = f /\
                  exists k l0, nth_error (l :: rest) k = Some l0 /\
                               line hit = index + Z.of_nat k + 1 /\
                               includes pattern l0 = true /\
                               lineContent hit = trim l0).
  { intros Hin. destruct (IH _ Hin) as (Hf & k & l0 & Hk & Hl & Hi & Hc).
    split; [assumption|]. exists (S k), l0. repeat split; try assumption.
    rewrite Hl. lia. }
  destruct (includes pattern l) eqn:Hinc; [|auto].
  destruct H as [<-|H]; [|auto].
  split; [reflexivity|]. exists O, l. simpl. repeat split; [lia|assumption].
Qed.

Lemma searchFiles_sound (co : Checkout) (pattern : string) (exts files : list string)
    (hit : SearchResult) :
  In hit (searchFiles co pattern (Some exts) files) ->
  In (file hit) files /\
  existsb (fun ext => endsWith ext (file hit)) exts = true /\
  exists text k l,
    readFile co (file hit) = Ok text /\
    nth_error (split nl text) k = Some l /\
    line hit = Z.of_nat k + 1 /\
    includes pattern l = true /\
    lineContent hit = trim l.
Proof.
  induction files as [|f rest IH]; simpl; intros H; [contradiction|].
  assert (Hrest : In hit (searchFiles co pattern (Some exts) rest) ->
                  (f = file hit \/ In (file hit) rest) /\
                  existsb (fun ext => endsWith ext (file hit)) exts = true /\
                  exists text k l,
                    readFile co (file hit) = Ok text /\
                    nth_error (split nl text) k = Some l /\
                    line hit = Z.of_nat k + 1 /\
                    includes pattern l = true /\
                    lineContent hit = trim l).
  { intros Hin. destruct (IH Hin) as (Hf & He & Hx). auto. }
  destruct (existsb (fun ext => endsWith ext f) exts) eqn:Hext; [|auto].
  destruct (readFile co f) as [text|m] eqn:Hread; [|auto].
  apply in_app_or in H as [H|H]; [|auto].
  apply matchingLines_sound in H as (Hf & k & l & Hk & Hl & Hi & Hc).
  rewrite Hf. repeat split; [now left|assumption|].
  exists text, k, l. repeat split; assumption.
Qed.

Lemma firstn_subset {A : Type} (n : nat) (l : list A) (x : A) :
  In x (firstn n l) -> In x l.
Proof.
  revert l; induction n as [|n IH]; intros [|a l] H; simpl in *; try contradiction.
  destruct H as [H|H]; [now left | right; now apply IH].
Qed.

(** ** The steps of [gatherContextForBug] *)

Lemma loadStaticContext_counted (co : Checkout) :
  0 <= snd (loadStaticContext co) <= estimateTokens (fst (loadStaticContext co)).
Proof.
  unfold loadStaticContext. destruct (readFile co _) as [text|m]; simpl.
  - pose proof (estimateTokens_nonneg text). lia.
  - pose proof (estimateTokens_nonneg "No project context file found."). lia.
Qed.

Lemma searchStep_counted (co : Checkout) (signals : Signals) (t : Z)
    (hits : list SearchResult) (t' : Z) :
  searchStep co signals t = Ok (hits, t') ->
  t <= t' <= t + estimateTokens (stringifySearchResults hits).
Proof.
  unfold searchStep. intros H.
  pose proof (estimateTokens_nonneg (stringifySearchResults hits)).
  destruct (errors signals) as [|first rest].
  - injection H as <- <-. lia.
  - destruct (t <? searchLimit).
    + destruct (searchCode co first (Some sourceExtensions)) as [found|m]; simpl in H;
        [|discriminate].
      injection H as <- <-. lia.
    + injection H as <- <-. lia.
Qed.

Lemma commitsStep_counted (co : Checkout) (t : Z) :
  t <= snd (commitsStep co t)
    <= t + estimateTokens (stringifyCommits (fst (commitsStep co t))).
Proof.
  unfold commitsStep. destruct (t <? commitsLimit); simpl.
  - pose proof (estimateTokens_nonneg (stringifyCommits (getRecentCommits co None 5))). lia.
  - pose proof (estimateTokens_nonneg (stringifyCommits [])). lia.
Qed.

(** The bundle, step by step. *)
Lemma gatherContext_steps (co : Checkout) (issue : LinearIssue)
    (signals : Signals) (ctx : BugContext) :
  gatherContext co issue signals = Ok ctx ->
  exists hits t4,
    searchStep co signals (tokensBeforeSearch co signals) = Ok (hits, t4) /\
    staticContext ctx = fst (loadStaticContext co) /\
    issueDetails ctx = issue /\
    relevantFiles ctx =
      fst (addFiles co (files signals) [] (snd (loadStaticContext co))) /\
    searchResults ctx = hits /\
    recentCommits ctx = fst (commitsStep co t4) /\
    estimatedTokens ctx = snd (commitsStep co t4).
Proof.
  unfold gatherContext, tokensBeforeSearch.
  destruct (loadStaticContext co) as [notes t1]; simpl.
  destruct (addFiles co (files signals) [] t1) as [included t3]; simpl.
  destruct (searchStep co signals t3) as [[hits t4]|m]; simpl; [|discriminate].
  destruct (commitsStep co t4) as [commits t5] eqn:Hc.
  intros H. injection H as <-. exists hits, t4. rewrite Hc. simpl.
  repeat split; reflexivity.
Qed.

(** The operation returns a bundle whenever the search step does. *)
Lemma gatherContext_returns (co : Checkout) (issue : LinearIssue)
    (signals : Signals) (found : list SearchResult * Z) :
  searchStep co signals (tokensBeforeSearch co signals) = Ok found ->
  exists ctx, gatherContext co issue signals = Ok ctx.
Proof.
  unfold gatherContext, tokensBeforeSearch.
  destruct (loadStaticContext co) as [notes t1]; simpl.
  destruct (addFiles co (files signals) [] t1) as [included t3]; simpl.
  intros ->. simpl. destruct found as [hits t4].
  destruct (commitsStep co t4) as [commits t5]. eexists; reflexivity.
Qed.

Lemma searchStep_closed (co : Checkout) (signals : Signals) (t : Z) :
  errors signals = [] \/ searchLimit <= t ->
  searchStep co signals t = Ok ([], t).
Proof.
  unfold searchStep. intros [->|H]; [reflexivity|].
  destruct (errors signals); [reflexivity|].
  destruct (Z.ltb_spec t searchLimit); [lia|reflexivity].
Qed.

Lemma searchStep_open (co : Checkout) (signals : Signals) (t : Z)
    (first : string) (rest : list string) :
  errors signals = first :: rest -> t < searchLimit ->
  searchStep co signals t =
    (try! found <- searchCode co first (Some sourceExtensions) ;;
     Ok (firstn 20 found,
         t + estimateTokens (stringifySearchResults (firstn 20 found)))).
Proof.
  unfold searchStep. intros -> H.
  destruct (Z.ltb_spec t searchLimit); [reflexivity|lia].
Qed.

(** The operation returns a bundle when the checkout can be listed, and
    also when the search step is not reached. *)
Lemma gatherContextForBug_returns (co : Checkout) (issue : LinearIssue) :
  (exists names, listFiles co = Ok names) \/
  errors (extractSignalsFromIssue issue) = [] \/
  searchLimit <= tokensBeforeSearch co (extractSignalsFromIssue issue) ->
  exists ctx, gatherContextForBug co issue = Ok ctx.
Proof.
  unfold gatherContextForBug. set (signals := extractSignalsFromIssue issue).
  intros [[names Hl]|H].
  - destruct (searchStep co signals (tokensBeforeSearch co signals)) as [found|m] eqn:E.
    + eapply gatherContext_returns; eassumption.
    + exfalso. unfold searchStep in E. destruct (errors signals); [discriminate|].
      destruct (_ <? _); [|discriminate].
      unfold searchCode in E. rewrite Hl in E. discriminate.
  - eapply gatherContext_returns. now apply searchStep_closed.
Qed.

(** ** Text, again: suffixes *)

Lemma rev_string_append (s acc : string) :
  rev_string s acc = reverse s +++ acc.
Proof.
  unfold reverse. revert acc; induction s as [|c s IH]; intros acc; simpl; [reflexivity|].
  rewrite IH, (IH (String c EmptyString)).
  clear IH. induction (rev_string s EmptyString) as [|d r IHr]; simpl; [reflexivity|].
  now rewrite IHr.
Qed.

Lemma append_assoc (a b c : string) : (a +++ b) +++ c = a +++ b +++ c.
Proof. induction a as [|x a IH]; simpl; [reflexivity | now rewrite IH]. Qed.

Lemma append_empty (a : string) : a +++ EmptyString = a.
Proof. induction a as [|x a IH]; simpl; [reflexivity | now rewrite IH]. Qed.

Lemma reverse_append (a b : string) :
  reverse (a +++ b) = reverse b +++ reverse a.
Proof.
  induction a as [|x a IH]; simpl.
  - now rewrite append_empty.
  - unfold reverse at 1 3; simpl. rewrite !rev_string_append, IH.
    apply append_assoc.
Qed.

Lemma reverse_reverse (a : string) : reverse (reverse a) = a.
Proof.
  induction a as [|x a IH]; [reflexivity|].
  unfold reverse at 2; simpl. rewrite rev_string_append, reverse_append, IH.
  reflexivity.
Qed.

(** [endsWith] is the suffix test. *)
Lemma endsWith_suffix (ext f : string) :
  endsWith ext f = true -> exists stem, f = stem +++ ext.
Proof.
  unfold endsWith. intros H. apply startsWith_split in H as [rest H].
  exists (reverse rest).
  rewrite <- (reverse_reverse f), H, reverse_append, reverse_reverse.
  reflexivity.
Qed.

Lemma foundIn_intro (co : Checkout) (pattern : string) (names : list string)
    (hit : SearchResult) :
  listFiles co = Ok names ->
  In hit (searchFiles co pattern (Some sourceExtensions) names) ->
  foundIn co pattern hit.
Proof.
  intros Hl Hin. apply searchFiles_sound in Hin as (Hn & He & text & k & l & Hr & Hk & Hline & Hi & Hc).
  repeat split.
  - apply existsb_exists in He as (ext & Hext & Hs).
    apply endsWith_suffix in Hs as [stem Hs]. now exists ext, stem.
  - apply walk_names in Hl. rewrite Forall_forall in Hl. now apply Hl.
  - exists text, k, l. repeat split; try assumption.
    now apply includes_substring.
Qed.

(** ** The claims on [gatherContextForBug] *)

(** C1, as the code has it.  The estimate of the bundle is the sum of
    what is counted for the static notes, for the files included, for the
    hits kept when the search ran and for the commit records when they
    were fetched.  The files are included only while the total stays below
    70,000 tokens, the search runs only when an error text was extracted
    and the total before it is below 80,000 and keeps 20 hits at most, and
    the commits are fetched
    only when the total before them is below 85,000.  So the estimate
    stays within the budget of 100,000 tokens unless the notes alone are
    above 100,000, or the hits kept above 20,001, or the commit records
    above 15,001. *)
Theorem estimate_within_budget (co : Checkout) (issue : LinearIssue)
    (ctx : BugContext) :
  gatherContextForBug co issue = Ok ctx ->
  let notes := snd (loadStaticContext co) in
  let files := tokensOf (relevantFiles ctx) in
  let searched :=
    match errors (extractSignalsFromIssue issue) with
    | [] => false
    | _ :: _ => notes + files <? searchLimit
    end in
  let hits := if searched then hitsTokens ctx else 0 in
  let fetched := notes + files + hits <? commitsLimit in
  let commits := if fetched then commitsTokens ctx else 0 in
  estimatedTokens ctx = notes + files + hits + commits /\
  (relevantFiles ctx = [] \/ notes + files < filesLimit) /\
  (searched = false -> searchResults ctx = []) /\
  (fetched = false -> recentCommits ctx = []) /\
  (length (searchResults ctx) <= 20)%nat /\
  (notes <= TOKEN_BUDGET ->
   hitsTokens ctx <= TOKEN_BUDGET - searchLimit + 1 ->
   commitsTokens ctx <= TOKEN_BUDGET - commitsLimit + 1 ->
   estimatedTokens ctx <= TOKEN_BUDGET).
Proof.
  unfold gatherContextForBug. intros H. cbv zeta.
  set (signals := extractSignalsFromIssue issue) in *.
  apply gatherContext_steps in H
    as (found & t4 & Hs & _ & _ & Hfiles & Hhits & Hcommits & Htokens).
  destruct (addFiles_added co (files signals) [] (snd (loadStaticContext co)))
    as (added & Hadded & Htotal & _ & _ & Hbelow).
  cbn [app] in Hadded. rewrite Hadded in Hfiles.
  unfold tokensBeforeSearch in Hs. rewrite Htotal in Hs, Hbelow.
  rewrite Hfiles. unfold hitsTokens, commitsTokens.
  rewrite Hhits, Hcommits, Htokens. clear Hfiles Hhits Hcommits Htokens Hadded Htotal.
  set (notes := snd (loadStaticContext co)) in *.
  set (total := notes + tokensOf added) in *.
  assert (Hfit : added = [] \/ total < filesLimit).
  { destruct added as [|f l]; [now left | right; apply Hbelow; discriminate]. }
  assert (Hkept : (length found <= 20)%nat).
  { unfold searchStep in Hs. destruct (errors signals) as [|first rest].
    - assert (found = []) by congruence. subst found. simpl. lia.
    - destruct (total <? searchLimit).
      + destruct (searchCode co first (Some sourceExtensions)) as [all|m];
          cbn [bind] in Hs; [|discriminate].
        assert (found = firstn 20 all) by congruence. subst found.
        apply firstn_le_length.
      + assert (found = []) by congruence. subst found. simpl. lia. }
  assert (Hsearch :
    match errors signals with
    | [] => found = [] /\ t4 = total
    | _ :: _ =>
        if total <? searchLimit
        then t4 = total + estimateTokens (stringifySearchResults found)
        else found = [] /\ t4 = total
    end).
  { unfold searchStep in Hs. destruct (errors signals) as [|first rest].
    - split; congruence.
    - destruct (total <? searchLimit).
      + destruct (searchCode co first (Some sourceExtensions)) as [all|m];
          cbn [bind] in Hs; [|discriminate].
        assert (found = firstn 20 all) by congruence. subst found. congruence.
      + split; congruence. }
  clear Hs Hbelow.
  assert (Hempty : added = [] -> tokensOf added = 0) by (now intros ->).
  pose proof (tokensOf_nonneg added) as Hfiles.
  pose proof (estimateTokens_nonneg (stringifySearchResults found)) as Hfound.
  destruct limits as (Hl7 & Hl8 & Hl85). unfold TOKEN_BUDGET in *.
  unfold commitsStep.
  destruct (errors signals) as [|first rest].
  - destruct Hsearch as [-> ->]. rewrite Z.add_0_r.
    destruct (Z.ltb_spec total commitsLimit) as [Hc|Hc]; cbn [fst snd];
      (split; [lia|]); (split; [assumption|]); (split; [reflexivity|]);
      (split; [try discriminate; reflexivity|]);
      (split; [first [assumption | simpl; lia]|]); intros Hn Hh Hg;
      destruct Hfit as [He|Hf]; try (apply Hempty in He); subst total; lia.
  - destruct (Z.ltb_spec total searchLimit) as [Hsl|Hsl].
    + subst t4.
      destruct (Z.ltb_spec (total + estimateTokens (stringifySearchResults found))
                           commitsLimit) as [Hc|Hc]; cbn [fst snd];
        (split; [lia|]); (split; [assumption|]); (split; [discriminate|]);
        (split; [try discriminate; reflexivity|]);
      (split; [first [assumption | simpl; lia]|]); intros Hn Hh Hg; lia.
    + destruct Hsearch as [-> ->]. rewrite Z.add_0_r.
      destruct (Z.ltb_spec total commitsLimit) as [Hc|Hc]; cbn [fst snd];
        (split; [lia|]); (split; [assumption|]); (split; [reflexivity|]);
        (split; [try discriminate; reflexivity|]);
      (split; [first [assumption | simpl; lia]|]); intros Hn Hh Hg;
        destruct Hfit as [He|Hf]; try (apply Hempty in He); subst total; lia.
Qed.

Lemma estimate_within_budget_witness :
  let notes := snd (loadStaticContext sampleCheckout) in
  let files := tokensOf (relevantFiles sampleBundle) in
  let searched :=
    match errors (extractSignalsFromIssue sampleIssue) with
    | [] => false
    | _ :: _ => notes + files <? searchLimit
    end in
  let hits := if searched then hitsTokens sampleBundle else 0 in
  let fetched := notes + files + hits <? commitsLimit in
  let commits := if fetched then commitsTokens sampleBundle else 0 in
  estimatedTokens sampleBundle = notes + files + hits + commits /\
  (relevantFiles sampleBundle = [] \/ notes + files < filesLimit) /\
  (searched = false -> searchResults sampleBundle = []) /\
  (fetched = false -> recentCommits sampleBundle = []) /\
  (length (searchResults sampleBundle) <= 20)%nat /\
  (notes <= TOKEN_BUDGET ->
   hitsTokens sampleBundle <= TOKEN_BUDGET - searchLimit + 1 ->
   commitsTokens sampleBundle <= TOKEN_BUDGET - commitsLimit + 1 ->
   estimatedTokens sampleBundle <= TOKEN_BUDGET).
Proof.
  apply (estimate_within_budget sampleCheckout sampleIssue sampleBundle).
  vm_compute. reflexivity.
Defined.

(** C1, as the spec states it, fails, in the three ways that the theorem
    leaves open, each time by one token: notes of 100,001 tokens alone;
    notes of 79,999 tokens and one hit of 20,002; notes of 84,999 tokens
    and commit records of 15,002. *)
Lemma estimate_exceeds_budget :
  (snd (loadStaticContext checkoutWithLongNotes) = 100001 /\
   option_map estimatedTokens
     (returned (gatherContextForBug checkoutWithLongNotes (issueTitled EmptyString)))
   = Some 100001) /\
  (snd (loadStaticContext checkoutWithLongLine) = 79999 /\
   option_map hitsTokens
     (returned (gatherContextForBug checkoutWithLongLine (issueTitled "Error: boom")))
   = Some 20002 /\
   option_map estimatedTokens
     (returned (gatherContextForBug checkoutWithLongLine (issueTitled "Error: boom")))
   = Some 100001) /\
  (snd (loadStaticContext checkoutWithLongLog) = 84999 /\
   option_map commitsTokens
     (returned (gatherContextForBug checkoutWithLongLog (issueTitled EmptyString)))
   = Some 15002 /\
   option_map estimatedTokens
     (returned (gatherContextForBug checkoutWithLongLog (issueTitled EmptyString)))
   = Some 100001) /\
  TOKEN_BUDGET < 100001.
Proof.
  split; [split; vm_compute; reflexivity|].
  split; [split; [vm_compute; reflexivity|]; split; vm_compute; reflexivity|].
  split; [split; [vm_compute; reflexivity|]; split; vm_compute; reflexivity|].
  reflexivity.
Qed.

(** C2, as the code has it.  The files are appended in the order
    extracted.  The file at any place of the sequence is appended exactly
    when it can be read and the running total plus its estimate stays
    below 70,000; a file that does not fit is passed over and the loop goes
    on with the files behind it.  The total after the loop is below 70,000
    unless it was not below before, in which case nothing is added. *)
Theorem files_added_in_order (co : Checkout) (before : list string) (p : string)
    (after : list string) (included : list FileContext) (t : Z) :
  let paths := before ++ p :: after in
  let reached := addFiles co before included t in
  let final := addFiles co paths included t in
  final =
    match readFile co p with
    | Ok text =>
        if snd reached + estimateTokens text <? filesLimit
        then addFiles co after (fst reached ++ [fileEntry p text])
                               (snd reached + estimateTokens text)
        else addFiles co after (fst reached) (snd reached)
    | Throw _ => addFiles co after (fst reached) (snd reached)
    end /\
  (exists added,
      fst final = included ++ added /\
      InOrder (map path added) paths /\
      snd final = t + tokensOf added) /\
  (snd final < filesLimit \/ final = (included, t)).
Proof.
  intros paths reached final. repeat split.
  - unfold final, paths. rewrite addFiles_app. fold reached.
    rewrite addFiles_cons. unfold includeFile.
    destruct (readFile co p) as [text|m]; simpl; [|reflexivity].
    destruct (snd reached + estimateTokens text <? filesLimit); reflexivity.
  - destruct (addFiles_added co paths included t) as (added & Hf & Ht & Ho & _).
    exists added. auto.
  - destruct (Z.lt_ge_cases t filesLimit) as [Hlt|Hge].
    + left. now apply addFiles_below.
    + right. now apply addFiles_full.
Qed.

(** C2, as the spec states it, fails: the first file would cross the
    limit (70,000 tokens on a total of 0) and the file behind it is
    added all the same. *)
Lemma file_added_after_crossing :
  files (extractSignalsFromIssue (issueTitled "big.ts small.ts"))
    = ["big.ts"; "small.ts"]%string /\
  snd (loadStaticContext checkoutStraddling) = 0 /\
  option_map estimateTokens (returned (readFile checkoutStraddling "big.ts"))
    = Some filesLimit /\
  option_map (fun ctx => map path (relevantFiles ctx))
    (returned (gatherContextForBug checkoutStraddling (issueTitled "big.ts small.ts")))
    = Some ["small.ts"%string].
Proof.
  split; [vm_compute; reflexivity|].
  split; [vm_compute; reflexivity|].
  split; vm_compute; reflexivity.
Qed.

(** C6 fails on the code: with an error text in the issue and a directory
    that cannot be listed, the operation raises instead of returning a
    bundle. *)
Theorem gather_raises_on_unlistable_directory :
  errors (extractSignalsFromIssue (issueTitled "Error: boom")) = ["Error: boom"%string] /\
  gatherContextForBug checkoutUnlistable (issueTitled "Error: boom")
    = Throw "EACCES: permission denied, scandir".
Proof. split; vm_compute; reflexivity. Qed.

(** X23.  The search step runs exactly when an error text was extracted
    and the running total is under 80,000.  When it runs, the bundle keeps
    the first 20 hits of [searchCode] for the first error text and the
    seven extensions; every hit is a line, numbered from one and trimmed,
    that contains the text, in a file read under a listed name that ends
    in one of the extensions and is neither hidden nor [node_modules]. *)
Theorem search_step (co : Checkout) (issue : LinearIssue) (ctx : BugContext) :
  gatherContextForBug co issue = Ok ctx ->
  let signals := extractSignalsFromIssue issue in
  match errors signals with
  | first :: _ =>
      if tokensBeforeSearch co signals <? searchLimit
      then exists names,
             listFiles co = Ok names /\
             searchResults ctx =
               firstn 20 (searchFiles co first (Some sourceExtensions) names) /\
             Forall (foundIn co first) (searchResults ctx)
      else searchResults ctx = []
  | [] => searchResults ctx = []
  end /\
  (length (searchResults ctx) <= 20)%nat.
Proof.
  intros H. cbv zeta. unfold gatherContextForBug in H.
  set (signals := extractSignalsFromIssue issue) in *.
  apply gatherContext_steps in H as (hits & t4 & Hs & _ & _ & _ & Hhits & _).
  rewrite Hhits. clear Hhits.
  destruct (errors signals) as [|first rest] eqn:He.
  - rewrite searchStep_closed in Hs by now left.
    injection Hs as <- _. split; [reflexivity | simpl; lia].
  - destruct (Z.ltb_spec (tokensBeforeSearch co signals) searchLimit) as [Hlt|Hge].
    + rewrite (searchStep_open co signals _ first rest He Hlt) in Hs. unfold searchCode in Hs.
      destruct (listFiles co) as [names|m] eqn:Hl; cbn [bind] in Hs; [|discriminate].
      assert (Hh : hits = firstn 20 (searchFiles co first (Some sourceExtensions) names))
        by congruence.
      clear Hs. subst hits. split; [|apply firstn_le_length].
      exists names. repeat split. apply Forall_forall. intros hit Hin.
      apply firstn_subset in Hin. eapply foundIn_intro; eassumption.
    + rewrite searchStep_closed in Hs by now right.
      injection Hs as <- _. split; [reflexivity | simpl; lia].
Qed.

Lemma search_step_witness :
  (exists names,
      listFiles sampleCheckout = Ok names /\
      searchResults sampleBundle =
        firstn 20 (searchFiles sampleCheckout "Error('boom')"
                     (Some sourceExtensions) names) /\
      Forall (foundIn sampleCheckout "Error('boom')") (searchResults sampleBundle)) /\
  (length (searchResults sampleBundle) <= 20)%nat.
Proof.
  exact (search_step sampleCheckout sampleIssue sampleBundle eq_refl).
Defined.

(** C7 fails on the code: the search does not reach a file below a
    directory.  [walk] lists such a file under its bare name and
    [searchCode] reads that name at the root of the checkout.  The line
    of [src/app.ts] that holds the error text is not found; and with a
    file of the same name at the root, it is the line of the root file
    that is reported, once for each of the two files. *)
Theorem nested_file_not_searched :
  errors (extractSignalsFromIssue (issueTitled "Error('boom')"))
    = ["Error('boom')"%string] /\
  (tokensBeforeSearch checkoutNested (extractSignalsFromIssue (issueTitled "Error('boom')"))
     <? searchLimit) = true /\
  readFile checkoutNested "src/app.ts" = Ok "throw new Error('boom')"%string /\
  includes "Error('boom')" "throw new Error('boom')" = true /\
  endsWith ".ts" "src/app.ts" = true /\
  listFiles checkoutNested = Ok ["app.ts"%string] /\
  option_map searchResults
    (returned (gatherContextForBug checkoutNested (issueTitled "Error('boom')")))
    = Some [] /\
  readFile checkoutShadowed "src/app.ts" = Ok "throw new Error('boom')"%string /\
  listFiles checkoutShadowed = Ok ["app.ts"; "app.ts"]%string /\
  option_map searchResults
    (returned (gatherContextForBug checkoutShadowed (issueTitled "Error('boom')")))
    = Some [ {| file := "app.ts"; line := 2;
                lineContent := "main().catch(() => new Error('boom'))" |};
             {| file := "app.ts"; line := 2;
                lineContent := "main().catch(() => new Error('boom'))" |} ].
Proof.
  split; [vm_compute; reflexivity|].
  split; [vm_compute; reflexivity|].
  split; [vm_compute; reflexivity|].
  split; [vm_compute; reflexivity|].
  split; [vm_compute; reflexivity|].
  split; [vm_compute; reflexivity|].
  split; [vm_compute; reflexivity|].
  split; [vm_compute; reflexivity|].
  split; vm_compute; reflexivity.
Qed.

End ContextEngineFacts.

(** * Properties of the reply parser *)

Module AgentFacts.
Import JS Json Agent Notions.

Lemma fromFirst_head (c : ascii) (s found : string) :
  fromFirst c s = Some found -> exists rest, found = String c rest.
Proof.
  induction s as [|d s IH]; simpl; [discriminate|].
  destruct (Ascii.eqb_spec d c) as [->|_].
  - intros H. injection H as <-. now exists s.
  - exact IH.
Qed.

Lemma fromFirst_suffix (c : ascii) (s found : string) :
  fromFirst c s = Some found -> exists before, s = before +++ found.
Proof.
  revert found; induction s as [|d s IH]; simpl; intros found; [discriminate|].
  destruct (Ascii.eqb d c).
  - intros H. injection H as <-. now exists EmptyString.
  - intros H. destruct (IH _ H) as [before ->]. now exists (String d before).
Qed.

(** What [jsonMatch] hands to [JSON.parse] starts with a brace. *)
Lemma jsonMatch_head (text json : string) :
  jsonMatch text = Some json -> exists rest, json = String "{" rest.
Proof.
  unfold jsonMatch, toLast.
  destruct (fromFirst "{" text) as [s|] eqn:Hs; [|discriminate].
  apply fromFirst_head in Hs as [body ->].
  destruct (fromFirst "}" (reverse (String "{" body))) as [u|] eqn:Hu; [|discriminate].
  simpl. intros H. injection H as <-.
  pose proof (fromFirst_head _ _ _ Hu) as [tail ->].
  apply fromFirst_suffix in Hu as [before Hu].
  apply (f_equal reverse) in Hu.
  rewrite ContextEngineFacts.reverse_reverse, ContextEngineFacts.reverse_append in Hu.
  destruct (reverse (String "}" tail)) as [|x xs] eqn:Hr.
  - apply (f_equal reverse) in Hr.
    rewrite ContextEngineFacts.reverse_reverse in Hr. discriminate.
  - simpl in Hu. injection Hu as <- _. now exists xs.
Qed.

(** So the value parsed is an object, and [property] reads its members. *)
Lemma parse_object (rest : string) (parsed : Value) :
  parse (String "{" rest) = Some parsed -> exists members, parsed = JObject members.
Proof.
  unfold parse. cbn [String.length parseValue].
  change (skipSpace (String "{" rest)) with (String "{" rest).
  cbv beta iota. change (code "{" =? 123)%N with true. cbv iota.
  destruct (skipSpace rest) as [|d body]; [discriminate|].
  destruct (code d =? 125)%N.
  - destruct (skipSpace body); [|discriminate]. intros H. injection H as <-. eauto.
  - destruct (parseMembers _ _) as [[ms out]|]; [|discriminate].
    destruct (skipSpace out); [|discriminate]. intros H. injection H as <-. eauto.
Qed.

Lemma reply_is_object (text json : string) (parsed : Value) :
  jsonMatch text = Some json -> parse json = Some parsed ->
  exists members, parsed = JObject members.
Proof.
  intros Hm Hp. apply jsonMatch_head in Hm as [rest ->].
  eapply parse_object; eassumption.
Qed.

Section Reply.

Variable syntaxErrorMessage : string -> string.

Lemma parse_wellFormed (text : string) (r d : Value) (items : list Value) :
  wellFormed text r d items ->
  parseClaudeResponse syntaxErrorMessage text =
    match items with
    | [] =>
        {| success := false; changes := []; description := d; reasoning := r;
           error := Some couldNotFix |}
    | _ :: _ =>
        {| success := true; changes := items; description := d; reasoning := r;
           error := None |}
    end.
Proof.
  intros (json & parsed & Hm & Hp & Hr & Htr & Hd & Htd & Hc).
  unfold parseClaudeResponse. rewrite Hm, Hp, Hr, Hd, Hc, Htr, Htd. reflexivity.
Qed.


End Reply.





(** C10.  The entries of [changes] are not looked at: a reply whose JSON
    has a truthy reasoning, a truthy description and a list of changes
    that is not empty is a success, and the list is returned as it is. *)
Theorem changes_not_validated (syntaxErrorMessage : string -> string)
    (text : string) (r d first : Value) (others : list Value) :
  wellFormed text r d (first :: others) ->
  parseClaudeResponse syntaxErrorMessage text =
    {| success := true; changes := first :: others; description := d;
       reasoning := r; error := None |}.
Proof. intros H. exact (parse_wellFormed syntaxErrorMessage text r d (first :: others) H). Qed.

Lemma changes_not_validated_witness :
  parseClaudeResponse engineMessage replyWithLooseChanges =
    {| success := true;
       changes := [JNumber false 1 0;
                   JObject [(unitsOf "path", str "src/a.ts")];
                   JNull];
       description := str "fix the bound";
       reasoning := str "off by one";
       error := None |}.
Proof.
  apply (changes_not_validated engineMessage replyWithLooseChanges).
  unfold wellFormed. eexists. eexists.
  split; [vm_compute; reflexivity|].
  split; [vm_compute; reflexivity|].
  repeat (split; [vm_compute; reflexivity|]).
  vm_compute. reflexivity.
Defined.

End AgentFacts.

(** * Properties of the change applier *)

Module ApplierFacts.
Import JS Effects ContextEngine Applier Notions.

Lemma andThen_ok {A B : Type} (m : M A) (k : A -> M B) (log log' : list Effect)
    (b : B) :
  andThen m k log = (Ok b, log') ->
  exists a mid, m log = (Ok a, mid) /\ k a mid = (Ok b, log').
Proof.
  unfold andThen. destruct (m log) as [[a|e] mid]; [eauto|discriminate].
Qed.

Lemma rethrow_ok {A : Type} (prefix : string) (m : M A) (log log' : list Effect)
    (a : A) :
  rethrow prefix m log = (Ok a, log') -> m log = (Ok a, log').
Proof.
  unfold rethrow. destruct (m log) as [[x|e] mid]; [|discriminate].
  intros H. injection H as <- <-. reflexivity.
Qed.

Lemma perform_ok (w : World) (e : Effect) (log log' : list Effect) (out : string) :
  perform w e log = (Ok out, log') -> log' = log ++ [e].
Proof.
  unfold perform. destruct (w log e); [|discriminate].
  intros H. injection H as _ <-. reflexivity.
Qed.

(** A loop that completes has logged what each round logs. *)
Lemma forEach_ok {A : Type} (f : A -> M string) (g : A -> list Effect) (l : list A) :
  (forall x log out log', f x log = (Ok out, log') -> log' = log ++ g x) ->
  forall log out log',
    forEach f l log = (Ok out, log') -> log' = log ++ flat_map g l.
Proof.
  intros Hf. induction l as [|x rest IH]; intros log out log' H; simpl in *.
  - injection H as _ <-. now rewrite app_nil_r.
  - apply andThen_ok in H as (a & mid & Hx & Hrest).
    apply Hf in Hx. apply IH in Hrest. subst. now rewrite app_assoc.
Qed.

Lemma writeFile_ok (w : World) (engine : Engine) (c : Change)
    (log log' : list Effect) (out : string) :
  writeFile w engine (path c) (content c) log = (Ok out, log') ->
  log' = log ++ writesOf engine c.
Proof.
  unfold writeFile, writesOf. intros H.
  apply andThen_ok in H as (a & mid & Hm & Hw).
  apply perform_ok in Hm. apply perform_ok in Hw. subst.
  now rewrite <- app_assoc.
Qed.

Lemma commit_ok (w : World) (text : string) (staged : list string)
    (log log' : list Effect) (out : string) :
  commit w text staged log = (Ok out, log') ->
  log' = log ++ map gitAdd staged ++ [gitCommit text; gitRevParse].
Proof.
  unfold commit. intros H. apply rethrow_ok in H.
  apply andThen_ok in H as (a & l1 & Hadd & H).
  apply andThen_ok in H as (b & l2 & Hcommit & H).
  apply andThen_ok in H as (c & l3 & Hrev & H).
  injection H as _ <-.
  apply (forEach_ok _ (fun f => [gitAdd f])) in Hadd;
    [|intros x lg o lg' Hx; now apply perform_ok in Hx].
  apply perform_ok in Hcommit. apply perform_ok in Hrev. subst.
  rewrite flat_map_concat_map, <- !app_assoc. f_equal. f_equal.
  clear. induction staged as [|s rest IH]; simpl; [reflexivity | now rewrite IH].
Qed.

(** ** The frame *)

Lemma within_ret {A : Type} (a : A) : within (ret a) [].
Proof.
  intros log. exists [], []. simpl. rewrite app_nil_r. auto.
Qed.

Lemma within_perform (w : World) (e : Effect) : within (perform w e) [e].
Proof.
  intros log. unfold perform. destruct (w log e); simpl.
  - exists [e], []. auto.
  - exists [], [e]. rewrite app_nil_r. repeat split. discriminate.
Qed.

Lemma within_andThen {A B : Type} (m : M A) (k : A -> M B)
    (first second : list Effect) :
  within m first -> (forall a, within (k a) second) ->
  within (andThen m k) (first ++ second).
Proof.
  intros Hm Hk log. unfold andThen.
  destruct (Hm log) as (done & rest & Hlog & Hfull & Hdone).
  destruct (m log) as [[a|e] mid]; simpl in *.
  - rewrite (Hdone a eq_refl), app_nil_r in Hfull. subst.
    destruct (Hk a (log ++ first)) as (done2 & rest2 & Hlog2 & Hfull2 & Hdone2).
    exists (first ++ done2), rest2. rewrite Hlog2, <- !app_assoc, Hfull2.
    repeat split. exact Hdone2.
  - exists done, (rest ++ second). subst. rewrite app_assoc.
    repeat split. discriminate.
Qed.

Lemma within_rethrow {A : Type} (prefix : string) (m : M A) (full : list Effect) :
  within m full -> within (rethrow prefix m) full.
Proof.
  intros Hm log. unfold rethrow.
  destruct (Hm log) as (done & rest & Hlog & Hfull & Hdone).
  destruct (m log) as [[a|e] mid]; simpl in *.
  - exists done, rest. auto.
  - exists done, rest. repeat split; try assumption. discriminate.
Qed.

Lemma within_forEach {A : Type} (f : A -> M string) (g : A -> list Effect)
    (l : list A) :
  (forall x, within (f x) (g x)) -> within (forEach f l) (flat_map g l).
Proof.
  intros Hf. induction l as [|x rest IH]; simpl.
  - apply within_ret.
  - apply within_andThen; [apply Hf | intros _; exact IH].
Qed.


(** C8 fails on the code: the reasoning of the fix reaches the command
    line of the commit between double quotes, where the shell still runs
    what stands between [$(] and [)].  With the reasoning
    [$(touch pwned; git add pwned)] the run completes; the command line of
    the commit is the second one below, and the shell, before it runs
    [git commit], runs [touch pwned; git add pwned] in the checkout: a
    file that is no path of the changes is created, staged and
    committed. *)
Theorem commit_runs_reasoning :
  fst (applyChanges obligingWorld sampleEngine sampleIssue MoreNotions.fixWithCommand [])
    = Ok "abc123"%string /\
  MoreNotions.commandsOf
    (snd (applyChanges obligingWorld sampleEngine sampleIssue MoreNotions.fixWithCommand []))
    = [ "git add " +++ dquote +++ "src/a.ts" +++ dquote;
        "git commit -m " +++ dquote +++ "Fix: Crash in src/a.ts" +++ nl +++ nl
          +++ "$(touch pwned; git add pwned)" +++ nl +++ nl
          +++ "Linear Issue: https://linear.app/i/7" +++ dquote;
        "git rev-parse HEAD"%string ] /\
  map Shell.substitutions
    (MoreNotions.commandsOf
       (snd (applyChanges obligingWorld sampleEngine sampleIssue
               MoreNotions.fixWithCommand [])))
    = [ Some []; Some ["touch pwned; git add pwned"%string]; Some [] ] /\
  map Applier.path (changes MoreNotions.fixWithCommand) = ["src/a.ts"%string].
Proof.
  split; [vm_compute; reflexivity|].
  split; [vm_compute; reflexivity|].
  split; vm_compute; reflexivity.
Qed.

(** What the sample fix asks for. *)
Lemma effectsOfFix_sample :
  effectsOfFix sampleEngine sampleIssue sampleFix =
    [ Mkdir "/tmp/acme-app/src";
      WriteFile "/tmp/acme-app/src/a.ts" "export const a = 2;";
      Mkdir "/tmp/acme-app";
      WriteFile "/tmp/acme-app/README.md" "# app";
      gitAdd "src/a.ts";
      gitAdd "README.md";
      gitCommit (commitMessage sampleIssue sampleFix);
      gitRevParse ].
Proof. vm_compute. reflexivity. Qed.

End ApplierFacts.

(** * Properties of the webhook *)

Module WebhookFacts.
Import JS Webhook Notions.

(** ** The signature *)

Lemma verifyLinearSignature_accepts (env : Env) (b : option Body)
    (sig : option string) :
  verifyLinearSignature env b sig = true.
Proof. unfold verifyLinearSignature. now destruct (negb _). Qed.

Section Handler.

Variable env : Env.
Variable cloneCompletes : string -> option string -> bool.
Variable fixBug : string -> RepoInfo -> ContextEngine.LinearIssue -> FixResult.

(** No request is answered with 401. *)
Lemma handler_never_401 (req : Request) :
  status (fst (handler env cloneCompletes fixBug req)) <> 401.
Proof.
  unfold handler. rewrite verifyLinearSignature_accepts. simpl.
  destruct (negb (method req =? "POST")%string); [discriminate|].
  destruct (parseLinearWebhook (body req)) as [payload|m]; [|discriminate].
  destruct (negb (shouldProcessIssue payload)); [discriminate|].
  destruct (extractRepoInfo env payload) as [[info|]|m]; try discriminate.
  destruct (cloneCompletes _ _); [|discriminate].
  destruct (success _); discriminate.
Qed.

End Handler.

(** C5 fails on the code: with a secret configured, a POST that carries no
    signature is not answered with 401; the repository is cloned and the
    fix attempted. *)
Theorem unsigned_request_runs_pipeline :
  isSet (LINEAR_WEBHOOK_SECRET envWithSecret) = true /\
  signature (requestOf None (issueData None "ai-fix" "NAV")) = None /\
  handler envWithSecret cloneAlways fixNever
          (requestOf None (issueData None "ai-fix" "NAV")) =
    ({| status := 200;
        json := NotFixedBody (Some "AI could not generate a confident fix"%string) |},
     [ CloneRepository "acme" (Some "app"%string);
       FixBug "/tmp/acme-app" {| owner := "acme"; repo := Some "app"%string |}
              (issueOf (issueData None "ai-fix" "NAV"));
       PostComment "LIN-7" (NoFix "cannot tell") ]).
Proof.
  split; [reflexivity|]. split; [reflexivity|]. vm_compute. reflexivity.
Qed.

(** ** The trigger label *)

Lemma toLowerCase_matches (names : list Label) :
  existsb (fun label => (toLowerCase (label_name label) =? "ai-fix")%string) names = true <->
  exists label, In label names /\ toLowerCase (label_name label) = "ai-fix"%string.
Proof.
  rewrite existsb_exists. split; intros (label & Hin & H); exists label; split;
    try assumption; now apply String.eqb_eq.
Qed.

(** C9.  A payload is processed exactly when its action is [create] or
    [update] and the name of one of its labels, in lower case, is
    [ai-fix]; so do the names [AI-Fix] and [AI-FIX]. *)
Theorem trigger_label (payload : LinearWebhookPayload) :
  (shouldProcessIssue payload = true <->
   (action payload = "create"%string \/ action payload = "update"%string) /\
   exists label,
     In label (labelsOf payload) /\
     toLowerCase (label_name label) = "ai-fix"%string) /\
  toLowerCase "AI-Fix" = "ai-fix"%string /\
  toLowerCase "AI-FIX" = "ai-fix"%string /\
  shouldProcessIssue (payloadOf (issueData None "AI-Fix" "NAV")) = true /\
  shouldProcessIssue (payloadOf (issueData None "AI-FIX" "NAV")) = true.
Proof.
  split; [|repeat split].
  unfold shouldProcessIssue, labelsOf.
  destruct (String.eqb_spec (action payload) "update") as [Hu|Hu];
    destruct (String.eqb_spec (action payload) "create") as [Hc|Hc]; simpl;
    rewrite ?toLowerCase_matches; try tauto.
  split; [discriminate | tauto].
Qed.

(** ** The repository *)

Lemma findMapping_none (teamKey : string) (mappings : list string) :
  Forall (fun mapping =>
            toLowerCase (trim (nth 0 (split "=" mapping) EmptyString))
            <> toLowerCase teamKey) mappings ->
  findMapping teamKey mappings = Ok None.
Proof.
  induction 1 as [|mapping rest Hne _ IH]; simpl; [reflexivity|].
  apply String.eqb_neq in Hne. now rewrite Hne.
Qed.

(** A URL in the description wins, whatever the environment holds. *)
Lemma extractRepoInfo_url (env : Env) (payload : LinearWebhookPayload)
    (o r : string) :
  githubUrlMatch (orEmpty (description (data payload))) = Some (o, r) ->
  extractRepoInfo env payload = Ok (Some {| owner := o; repo := Some (stripGit r) |}).
Proof. unfold extractRepoInfo. now intros ->. Qed.

(** Without a URL, an entry of the mapping for the team wins over the
    default. *)
Lemma extractRepoInfo_mapping (env : Env) (payload : LinearWebhookPayload)
    (info : RepoInfo) :
  noUrl payload ->
  isSet (REPO_MAPPING env) = true -> truthy (teamKeyOf payload) = true ->
  findMapping (teamKeyOf payload) (split "," (orEmpty (REPO_MAPPING env)))
    = Ok (Some info) ->
  extractRepoInfo env payload = Ok (Some info).
Proof.
  unfold extractRepoInfo, noUrl. intros -> -> -> ->. reflexivity.
Qed.

(** Without a URL and without an entry for the team, the default is used. *)
Lemma extractRepoInfo_default (env : Env) (payload : LinearWebhookPayload) :
  noUrl payload -> noTeamMapping env payload ->
  isSet (GITHUB_REPOSITORY env) = true ->
  extractRepoInfo env payload
    = Ok (Some (ownerAndRepo (orEmpty (GITHUB_REPOSITORY env)))).
Proof.
  unfold extractRepoInfo, noUrl. intros -> Hmap ->.
  destruct Hmap as [-> | [-> | Hnone]]; simpl; try reflexivity.
  - now rewrite andb_false_r.
  - apply findMapping_none in Hnone. rewrite Hnone.
    now destruct (isSet (REPO_MAPPING env) && truthy (teamKeyOf payload)).
Qed.

Lemma extractRepoInfo_unresolved (env : Env) (payload : LinearWebhookPayload) :
  noUrl payload -> noTeamMapping env payload -> noDefault env ->
  extractRepoInfo env payload = Ok None.
Proof.
  unfold extractRepoInfo, noUrl, noDefault. intros -> Hmap ->.
  destruct Hmap as [-> | [-> | Hnone]]; simpl; try reflexivity.
  - now rewrite andb_false_r.
  - apply findMapping_none in Hnone. rewrite Hnone.
    now destruct (isSet (REPO_MAPPING env) && truthy (teamKeyOf payload)).
Qed.

(** A POST whose payload lacks the label is answered as ignored, and
    nothing is asked of the pipeline or the tracker. *)
Lemma handler_ignores_without_label (env : Env)
    (cloneCompletes : string -> option string -> bool)
    (fixBug : string -> RepoInfo -> ContextEngine.LinearIssue -> FixResult)
    (req : Request) (payload : LinearWebhookPayload) :
  method req = "POST"%string ->
  parseLinearWebhook (body req) = Ok payload ->
  shouldProcessIssue payload = false ->
  handler env cloneCompletes fixBug req =
    ({| status := 200; json := MessageBody "Issue ignored (no ai-fix label)" |}, []).
Proof.
  intros Hpost Hparse Hlabel. unfold handler.
  rewrite Hpost, verifyLinearSignature_accepts, Hparse, Hlabel. reflexivity.
Qed.

(** C3.  Repository resolution goes by precedence.  A payload whose
    description holds a hosting URL resolves to the repository of the URL,
    whatever team mapping and default the environment holds; without a
    URL, an entry of the mapping for the team wins over the default;
    without either, the default is taken.  A POST whose payload carries the
    label and for which neither a URL, nor an entry of the mapping, nor a
    default names a repository is answered with 400, and neither the clone
    nor the fix is asked for. *)
Theorem repository_resolution
    (env : Env) (withUrl : LinearWebhookPayload) (o r : string)
    (withTeam : LinearWebhookPayload) (mapped : RepoInfo)
    (withNeither : LinearWebhookPayload)
    (env' : Env) (cloneCompletes : string -> option string -> bool)
    (fixBug : string -> RepoInfo -> ContextEngine.LinearIssue -> FixResult)
    (req : Request) (unresolved : LinearWebhookPayload) :
  githubUrlMatch (orEmpty (description (data withUrl))) = Some (o, r) ->
  noUrl withTeam ->
  isSet (REPO_MAPPING env) = true -> truthy (teamKeyOf withTeam) = true ->
  findMapping (teamKeyOf withTeam) (split "," (orEmpty (REPO_MAPPING env)))
    = Ok (Some mapped) ->
  noUrl withNeither -> noTeamMapping env withNeither ->
  isSet (GITHUB_REPOSITORY env) = true ->
  method req = "POST"%string ->
  parseLinearWebhook (body req) = Ok unresolved ->
  shouldProcessIssue unresolved = true ->
  noUrl unresolved -> noTeamMapping env' unresolved -> noDefault env' ->
  extractRepoInfo env withUrl = Ok (Some {| owner := o; repo := Some (stripGit r) |}) /\
  extractRepoInfo env withTeam = Ok (Some mapped) /\
  extractRepoInfo env withNeither
    = Ok (Some (ownerAndRepo (orEmpty (GITHUB_REPOSITORY env)))) /\
  handler env' cloneCompletes fixBug req =
    ({| status := 400; json := ErrorBody "Could not determine GitHub repository" |},
     []).
Proof.
  intros Hurl Ht1 Ht2 Ht3 Ht4 Hd1 Hd2 Hd3 Hpost Hparse Hlabel Hno1 Hno2 Hno3.
  split; [now apply extractRepoInfo_url|].
  split; [now apply extractRepoInfo_mapping|].
  split; [now apply extractRepoInfo_default|].
  unfold handler.
  rewrite Hpost, verifyLinearSignature_accepts, Hparse, Hlabel.
  rewrite (extractRepoInfo_unresolved env' unresolved Hno1 Hno2 Hno3). reflexivity.
Qed.

Lemma repository_resolution_witness :
  extractRepoInfo envComplete
    (payloadOf (issueData (Some "see https://github.com/acme/web.git for the code"%string)
                          "ai-fix" "nav"))
    = Ok (Some {| owner := "acme"; repo := Some "web"%string |}) /\
  extractRepoInfo envComplete
    (payloadOf (issueData (Some "no link here"%string) "ai-fix" "api"))
    = Ok (Some {| owner := "acme"; repo := Some "api"%string |}) /\
  extractRepoInfo envComplete
    (payloadOf (issueData (Some "no link here"%string) "ai-fix" "OPS"))
    = Ok (Some {| owner := "acme"; repo := Some "app"%string |}) /\
  handler envWithoutDefault cloneAlways fixNever
          (requestOf None (issueData (Some "no link here"%string) "ai-fix" "OPS"))
    = ({| status := 400; json := ErrorBody "Could not determine GitHub repository" |},
       []).
Proof.
  apply (repository_resolution envComplete
           (payloadOf (issueData (Some "see https://github.com/acme/web.git for the code"%string)
                                 "ai-fix" "nav"))
           "acme" "web.git"
           (payloadOf (issueData (Some "no link here"%string) "ai-fix" "api"))
           {| owner := "acme"; repo := Some "api"%string |}
           (payloadOf (issueData (Some "no link here"%string) "ai-fix" "OPS"))
           envWithoutDefault cloneAlways fixNever
           (requestOf None (issueData (Some "no link here"%string) "ai-fix" "OPS"))
           (payloadOf (issueData (Some "no link here"%string) "ai-fix" "OPS"))).
  - vm_compute. reflexivity.
  - vm_compute. reflexivity.
  - reflexivity.
  - reflexivity.
  - vm_compute. reflexivity.
  - vm_compute. reflexivity.
  - right; right. repeat constructor; vm_compute; discriminate.
  - reflexivity.
  - reflexivity.
  - reflexivity.
  - vm_compute. reflexivity.
  - vm_compute. reflexivity.
  - right; right. repeat constructor; vm_compute; discriminate.
  - reflexivity.
Defined.

End WebhookFacts.

(** * Further properties of the context engine *)

Module ContextEngineMore.
Import JS ContextEngine Notions MoreNotions.

(** ** The directory walk *)

Lemma FileBelow_skipped (name : string) (e : Entry)
    (rest : list (string * Entry)) (n : string) :
  skipped name = true ->
  (FileBelow ((name, e) :: rest) n <-> FileBelow rest n).
Proof.
  intros Hs. split; intros H.
  - inversion H; subst; congruence.
  - now constructor.
Qed.

Lemma walk_lists (dir : Entry) (names : list string) :
  walk dir = Ok names ->
  exists entries, (exists l, dir = Directory l entries) /\
                  forall n, In n names <-> FileBelow entries n.
Proof.
  revert names.
  induction dir as [text|listable entries IH] using ContextEngineFacts.Entry_rect_nested;
    intros names H; simpl in H; [discriminate|].
  destruct listable; [|discriminate].
  exists entries. split; [eauto|].
  revert names H. induction IH as [|[name e] rest He Hrest IHrest]; intros names H n.
  - injection H as <-. split; [contradiction | intros F; inversion F].
  - destruct (skipped name) eqn:Hskip.
    + rewrite (FileBelow_skipped name e rest n Hskip). now apply IHrest.
    + destruct e as [text|l es].
      * destruct ((fix each (entries : list (string * Entry)) := _) rest)
          as [others|m] eqn:E; simpl in H; [|discriminate].
        injection H as <-. specialize (IHrest others eq_refl n). simpl. split.
        -- intros [<-|Hin]; [now constructor | apply FileBelow_later; tauto].
        -- intros F. inversion F; subst; [now left | right; tauto].
      * destruct (walk (Directory l es)) as [below|m] eqn:Ew; simpl in H; [|discriminate].
        destruct ((fix each (entries : list (string * Entry)) := _) rest)
          as [others|m] eqn:E; simpl in H; [|discriminate].
        injection H as <-. specialize (IHrest others eq_refl n).
        cbn [snd] in He. destruct (He below Ew) as (es' & (l' & Heq) & Hbelow).
        injection Heq as _ <-.
        rewrite in_app_iff. split.
        -- intros [Hin|Hin].
           ++ apply FileBelow_inside; [assumption | now apply Hbelow].
           ++ apply FileBelow_later. tauto.
        -- intros F. inversion F; subst; [left; now apply Hbelow | right; tauto].
Qed.

(** X1.  What [listFiles] returns are bare names: a name is listed exactly
    when a file of that name lies in the checkout, at the root or inside
    directories that are neither hidden nor [node_modules]; the
    directories on the way to it leave no trace in the name. *)
Theorem listFiles_bare_names (co : Checkout) (names : list string) :
  listFiles co = Ok names ->
  exists entries,
    root co = Directory true entries /\
    forall n, In n names <-> FileBelow entries n.
Proof.
  unfold listFiles. intros H.
  destruct (walk_lists (root co) names H) as (entries & (l & Hroot) & Hn).
  exists entries. split; [|assumption].
  rewrite Hroot in H |- *. destruct l; [reflexivity | discriminate].
Qed.

Lemma listFiles_bare_names_witness :
  exists entries,
    root sampleCheckout = Directory true entries /\
    forall n, In n ["a.ts"; "app.ts"]%string <-> FileBelow entries n.
Proof.
  apply (listFiles_bare_names sampleCheckout ["a.ts"; "app.ts"]%string).
  vm_compute. reflexivity.
Defined.

(** ** The search *)

Lemma matchingLines_complete (pattern f : string) (lines : list string) (index : Z)
    (k : nat) (l : string) :
  nth_error lines k = Some l -> includes pattern l = true ->
  In {| file := f; line := index + Z.of_nat k + 1; lineContent := trim l |}
     (matchingLines pattern f lines index).
Proof.
  revert index k; induction lines as [|x rest IH]; intros index k Hk Hi.
  - destruct k; discriminate.
  - destruct k as [|k]; simpl in Hk |- *.
    + injection Hk as ->. rewrite Hi. left. f_equal. lia.
    + specialize (IH (index + 1) k Hk Hi).
      replace (index + 1 + Z.of_nat k + 1) with (index + Z.pos (Pos.of_succ_nat k) + 1)
        in IH by lia.
      destruct (includes pattern x); [now right | assumption].
Qed.

Lemma searchFiles_complete (co : Checkout) (pattern : string) (exts files : list string)
    (f text : string) (k : nat) (l : string) :
  In f files ->
  existsb (fun ext => endsWith ext f) exts = true ->
  readFile co f = Ok text ->
  nth_error (split nl text) k = Some l -> includes pattern l = true ->
  In {| file := f; line := Z.of_nat k + 1; lineContent := trim l |}
     (searchFiles co pattern (Some exts) files).
Proof.
  intros Hin Hext Hread Hk Hi. induction files as [|g rest IH]; [contradiction|].
  simpl. destruct Hin as [->|Hin].
  - rewrite Hext, Hread. apply in_or_app. left.
    apply (matchingLines_complete pattern f (split nl text) 0 k l Hk Hi).
  - specialize (IH Hin).
    destruct (existsb (fun ext => endsWith ext g) exts); [|assumption].
    destruct (readFile co g); [apply in_or_app; now right | assumption].
Qed.

Lemma searchFiles_exact (co : Checkout) (pattern : string) (exts names : list string)
    (hit : SearchResult) :
  In hit (searchFiles co pattern (Some exts) names) <->
  exists f, In f names /\
            existsb (fun ext => endsWith ext f) exts = true /\
            reports co pattern f hit.
Proof.
  split.
  - intros H. apply ContextEngineFacts.searchFiles_sound in H
      as (Hin & Hext & text & k & l & Hr & Hk & Hline & Hi & Hc).
    exists (file hit). repeat split; try assumption.
    exists text, k, l. repeat split; try assumption.
    now apply ContextEngineFacts.includes_substring.
  - intros (f & Hin & Hext & Hf & text & k & l & Hr & Hk & Hline & Hsub & Hc).
    apply ContextEngineFacts.includes_substring in Hsub.
    pose proof (searchFiles_complete co pattern exts names f text k l
                  Hin Hext Hr Hk Hsub) as H.
    destruct hit as [hf hl hc]. simpl in *. subst. exact H.
Qed.

(** X2.  When the checkout can be listed, [searchCode] returns exactly the
    lines that contain the pattern in the listed files that carry one of
    the extensions and can be read under their listed name: every such
    line is reported, with its number counted from one and its text
    trimmed, and nothing else is. *)
Theorem searchCode_exact (co : Checkout) (pattern : string) (exts names : list string) :
  listFiles co = Ok names ->
  exists found,
    searchCode co pattern (Some exts) = Ok found /\
    forall hit,
      In hit found <->
      exists f, In f names /\
                existsb (fun ext => endsWith ext f) exts = true /\
                reports co pattern f hit.
Proof.
  intros Hl. unfold searchCode. rewrite Hl. simpl.
  eexists. split; [reflexivity|]. intros hit. apply searchFiles_exact.
Qed.

Lemma searchCode_exact_witness :
  exists found,
    searchCode sampleCheckout "Error('boom')" (Some sourceExtensions) = Ok found /\
    forall hit,
      In hit found <->
      exists f, In f ["a.ts"; "app.ts"]%string /\
                existsb (fun ext => endsWith ext f) sourceExtensions = true /\
                reports sampleCheckout "Error('boom')" f hit.
Proof.
  apply (searchCode_exact sampleCheckout "Error('boom')" sourceExtensions
           ["a.ts"; "app.ts"]%string).
  vm_compute. reflexivity.
Defined.

(** ** The symbol search *)

Lemma searchPatterns_exact (co : Checkout) (names patterns : list string) :
  listFiles co = Ok names ->
  exists results,
    Symbols.searchPatterns co patterns = Ok results /\
    forall r,
      In r results <->
      Symbols.context r = lineContent (Symbols.hit r) /\
      exists pattern f,
        In pattern patterns /\ In f names /\
        existsb (fun ext => endsWith ext f) Symbols.scriptExtensions = true /\
        reports co pattern f (Symbols.hit r).
Proof.
  intros Hl. induction patterns as [|p rest (others & Hrest & IH)].
  - exists []. split; [reflexivity|]. intros r. split; [contradiction|].
    intros (_ & pattern & f & [] & _).
  - simpl. unfold searchCode. rewrite Hl, Hrest. simpl.
    eexists. split; [reflexivity|]. intros r.
    rewrite in_app_iff, in_map_iff, IH. split.
    + intros [(m & <- & Hm) | (Hc & pattern & f & Hp & Hrep)].
      * split; [reflexivity|]. apply searchFiles_exact in Hm as (f & Hf).
        exists p, f. simpl. tauto.
      * split; [assumption|]. exists pattern, f. simpl. tauto.
    + intros (Hc & pattern & f & [<-|Hp] & Hf & Hext & Hrep).
      * left. exists (Symbols.hit r). split.
        -- destruct r as [h c]. simpl in *. now subst.
        -- apply searchFiles_exact. now exists f.
      * right. split; [assumption|]. now exists pattern, f.
Qed.

(** X3.  When the checkout can be listed, [findSymbol] reports exactly the
    lines that contain one of the six declaration forms of the symbol in
    the listed script files, each time with the line as its context; so
    every reported line contains the name of the symbol. *)
Theorem findSymbol_exact (co : Checkout) (symbolName : string) (names : list string) :
  listFiles co = Ok names ->
  exists results,
    Symbols.findSymbol co symbolName = Ok results /\
    (forall r,
        In r results <->
        Symbols.context r = lineContent (Symbols.hit r) /\
        exists pattern f,
          In pattern (Symbols.symbolPatterns symbolName) /\ In f names /\
          existsb (fun ext => endsWith ext f) Symbols.scriptExtensions = true /\
          reports co pattern f (Symbols.hit r)) /\
    (forall r, In r results ->
               exists f, In f names /\ reports co symbolName f (Symbols.hit r)).
Proof.
  intros Hl. unfold Symbols.findSymbol.
  destruct (searchPatterns_exact co names (Symbols.symbolPatterns symbolName) Hl)
    as (results & Hr & Hexact).
  exists results. split; [assumption|]. split; [assumption|].
  intros r Hin. apply Hexact in Hin
    as (_ & pattern & f & Hp & Hf & _ & Hfile & text & k & l & H1 & H2 & H3 & Hsub & H5).
  exists f. split; [assumption|]. split; [assumption|].
  exists text, k, l. repeat split; try assumption.
  destruct Hsub as (before & after & ->).
  unfold Symbols.symbolPatterns in Hp. cbn [In] in Hp.
  destruct Hp as [<-|[<-|[<-|[<-|[<-|[<-|[]]]]]]];
    [ exists (before +++ "function ") | exists (before +++ "const ")
    | exists (before +++ "class ") | exists (before +++ "export function ")
    | exists (before +++ "export const ") | exists (before +++ "export class ") ];
    exists after; now rewrite !ContextEngineFacts.append_assoc.
Qed.

Lemma findSymbol_exact_witness :
  exists results,
    Symbols.findSymbol sampleCheckout "a" = Ok results /\
    (forall r,
        In r results <->
        Symbols.context r = lineContent (Symbols.hit r) /\
        exists pattern f,
          In pattern (Symbols.symbolPatterns "a") /\ In f ["a.ts"; "app.ts"]%string /\
          existsb (fun ext => endsWith ext f) Symbols.scriptExtensions = true /\
          reports sampleCheckout pattern f (Symbols.hit r)) /\
    (forall r, In r results ->
               exists f, In f ["a.ts"; "app.ts"]%string /\
                         reports sampleCheckout "a" f (Symbols.hit r)).
Proof.
  apply (findSymbol_exact sampleCheckout "a" ["a.ts"; "app.ts"]%string).
  vm_compute. reflexivity.
Defined.

(** ** Splitting and joining *)

Lemma hasChar_append (c : ascii) (a b : string) :
  hasChar c (a +++ b) = hasChar c a || hasChar c b.
Proof.
  induction a as [|x a IH]; simpl; [reflexivity|].
  now rewrite IH, orb_assoc.
Qed.

Lemma split_clean (c : ascii) (s : string) :
  hasChar c s = false -> split c s = [s].
Proof.
  induction s as [|x s IH]; simpl; [reflexivity|].
  intros H. apply orb_false_iff in H as [Hx Hs].
  rewrite Hx, (IH Hs). reflexivity.
Qed.

Lemma split_append (c : ascii) (s rest : string) :
  hasChar c s = false -> split c (s +++ String c rest) = s :: split c rest.
Proof.
  induction s as [|x s IH]; simpl.
  - intros _. now rewrite Ascii.eqb_refl.
  - intros H. apply orb_false_iff in H as [Hx Hs].
    rewrite Hx, (IH Hs). reflexivity.
Qed.

(** Joining pieces that do not contain the separator and splitting again
    gives the pieces back. *)
Lemma split_join (c : ascii) (pieces : list string) :
  pieces <> [] ->
  Forall (fun p => hasChar c p = false) pieces ->
  split c (JS.join (String c EmptyString) pieces) = pieces.
Proof.
  intros Hne Hall. induction Hall as [|p rest Hp Hrest IH]; [congruence|].
  destruct rest as [|q rest'].
  - simpl. now apply split_clean.
  - change (JS.join (String c EmptyString) (p :: q :: rest'))
      with (p +++ String c (JS.join (String c EmptyString) (q :: rest'))).
    rewrite (split_append c p _ Hp), IH by discriminate. reflexivity.
Qed.

(** ** The git log *)

Lemma logLine_shape (c : string * string * string * string) :
  cleanCommit c ->
  parseCommit (logLine c) = commitOf c /\
  hasChar nl (logLine c) = false /\
  truthy (logLine c) = true.
Proof.
  destruct c as [[[s m] a] d]. intros (Hs & [Hs1 Hs2] & [Hm1 Hm2] & [Ha1 Ha2] & [Hd1 Hd2]).
  unfold logLine, parseCommit, commitOf. repeat split.
  - change (s +++ "|" +++ m +++ "|" +++ a +++ "|" +++ d)
      with (s +++ String "|" (m +++ String "|" (a +++ String "|" d))).
    rewrite !split_append, (split_clean "|" d) by assumption. reflexivity.
  - rewrite !hasChar_append, Hs2, Hm2, Ha2, Hd2. reflexivity.
  - destruct s; [congruence | reflexivity].
Qed.

(** X4.  A git log whose lines are [sha|subject|author|date], with no [|]
    and no line break inside a field, is read back field for field: one
    record for every line, in the order of the log. *)
Theorem getRecentCommits_round_trip (co : Checkout) (limit : Z)
    (commits : list (string * string * string * string)) :
  execSync co (gitLogCommand None limit)
    = Some (JS.join (String nl EmptyString) (map logLine commits)) ->
  Forall cleanCommit commits ->
  getRecentCommits co None limit = map commitOf commits.
Proof.
  intros Hout Hclean. unfold getRecentCommits. rewrite Hout.
  destruct commits as [|c rest]; [reflexivity|].
  rewrite split_join.
  - clear Hout. induction Hclean as [|x l Hx Hl IH]; [reflexivity|].
    destruct (logLine_shape x Hx) as (Hparse & _ & Htruthy).
    simpl. rewrite Htruthy. simpl. now rewrite Hparse, IH.
  - discriminate.
  - apply Forall_map. revert Hclean. apply Forall_impl.
    intros x Hx. now destruct (logLine_shape x Hx) as (_ & H & _).
Qed.

Lemma getRecentCommits_round_trip_witness :
  getRecentCommits
    {| root := File None;
       execSync := gitAnswers
         (JS.join (String nl EmptyString)
            (map logLine [ ("abc123", "Initial commit", "dev", "2024-01-01 10:00:00 +0000");
                           ("def456", "Fix the bound", "ann", "2024-01-02 11:30:00 +0000") ]%string)) |}
    None 5
  = map commitOf [ ("abc123", "Initial commit", "dev", "2024-01-01 10:00:00 +0000");
                   ("def456", "Fix the bound", "ann", "2024-01-02 11:30:00 +0000") ]%string.
Proof.
  apply getRecentCommits_round_trip.
  - reflexivity.
  - repeat constructor; try discriminate.
Defined.

End ContextEngineMore.

(** * Properties of the signals *)

Module SignalFacts.
Import JS ContextEngine Notions MoreNotions.

(** ** Global matching and the set *)

Lemma take_drop (n : nat) (s : string) : take n s +++ drop n s = s.
Proof.
  revert s; induction n as [|n IH]; intros [|c s]; simpl; try reflexivity.
  now rewrite IH.
Qed.

(** Every match is the text that the matcher accepts at some place. *)
Lemma matchAllFrom_elements (re : string -> option nat) (s : string) (skip : nat)
    (m : string) :
  In m (matchAllFrom re s skip) ->
  exists before suffix n,
    s = before +++ suffix /\ re suffix = Some n /\ m = take n suffix.
Proof.
  revert skip; induction s as [|c r IH]; intros skip H; simpl in H; [contradiction|].
  assert (Hlater : forall k, In m (matchAllFrom re r k) ->
            exists before suffix n,
              String c r = before +++ suffix /\ re suffix = Some n /\ m = take n suffix).
  { intros k Hk. destruct (IH k Hk) as (before & suffix & n & -> & Hre & Hm).
    now exists (String c before), suffix, n. }
  destruct skip as [|k]; [|eauto].
  destruct (re (String c r)) as [n|] eqn:Hre; [|eauto].
  destruct H as [<-|H]; [|eauto].
  now exists EmptyString, (String c r), n.
Qed.

Lemma existsb_eqb (x : string) (seen : list string) :
  existsb (String.eqb x) seen = true <-> In x seen.
Proof.
  rewrite existsb_exists. split.
  - intros (y & Hin & Heq). apply String.eqb_eq in Heq. now subst.
  - intros Hin. exists x. split; [assumption | apply String.eqb_refl].
Qed.

Lemma dedupe_spec (seen l : list string) :
  NoDup (dedupe seen l) /\
  forall x, In x (dedupe seen l) <-> In x l /\ ~ In x seen.
Proof.
  revert seen; induction l as [|a l IH]; intros seen; simpl.
  - split; [constructor | tauto].
  - destruct (existsb (String.eqb a) seen) eqn:E.
    + apply existsb_eqb in E. destruct (IH seen) as [Hnd Hin]. split; [assumption|].
      intros x. rewrite Hin. split; [tauto|].
      intros [[<-|Hx] Hn]; [contradiction | tauto].
    + assert (Hnot : ~ In a seen).
      { intros Hin. apply existsb_eqb in Hin. congruence. }
      destruct (IH (a :: seen)) as [Hnd Hin]. split.
      * constructor; [|assumption]. rewrite Hin. simpl. tauto.
      * intros x. simpl. rewrite Hin. simpl. split.
        -- intros [<-|[Hx Hn]]; tauto.
        -- intros [[<-|Hx] Hn]; [now left|].
           destruct (string_dec a x) as [->|Hne]; [now left | right; tauto].
Qed.

Lemma unique_spec (l : list string) :
  NoDup (unique l) /\ forall x, In x (unique l) <-> In x l.
Proof.
  unfold unique. destruct (dedupe_spec [] l) as [Hnd Hin]. split; [assumption|].
  intros x. rewrite Hin. simpl. tauto.
Qed.

(** ** The error texts *)

Lemma take_append (a rest : string) (k : nat) :
  take (String.length a + k) (a +++ rest) = a +++ take k rest.
Proof. induction a as [|c a IH]; simpl; [reflexivity | now rewrite IH]. Qed.

Lemma drop_append (a rest : string) : drop (String.length a) (a +++ rest) = rest.
Proof. induction a as [|c a IH]; simpl; [now destruct rest | assumption]. Qed.

Lemma take_span (p : ascii -> bool) (s : string) :
  allChars p (take (spanLength p s) s) = true.
Proof.
  induction s as [|c s IH]; simpl; [reflexivity|].
  destruct (p c) eqn:Hp; simpl; [now rewrite Hp | reflexivity].
Qed.

Lemma allChars_append (p : ascii -> bool) (a b : string) :
  allChars p (a +++ b) = allChars p a && allChars p b.
Proof.
  induction a as [|c a IH]; simpl; [reflexivity | now rewrite IH, andb_assoc].
Qed.

Lemma errorPattern_shape (s : string) (n : nat) :
  errorPattern s = Some n ->
  (exists w, In w errorWords /\ startsWith w (take n s) = true) /\
  allChars withinLine (take n s) = true.
Proof.
  unfold errorPattern.
  destruct (find (fun w => startsWith w s) errorWords) as [w|] eqn:Hfind; [|discriminate].
  intros H. injection H as <-.
  apply find_some in Hfind as [Hin Hstart].
  apply ContextEngineFacts.startsWith_split in Hstart as [rest ->].
  rewrite drop_append, take_append. split.
  - exists w. split; [assumption | apply ContextEngineFacts.startsWith_append].
  - rewrite allChars_append. apply andb_true_iff. split.
    + unfold errorWords in Hin. cbn [In] in Hin.
      destruct Hin as [<-|[<-|[<-|[<-|[<-|[]]]]]]; reflexivity.
    + apply (take_span withinLine).
Qed.

(** X5.  Every error text extracted from an issue starts with one of the
    five words, lies on one line of the title and description, and so is
    never empty: the search is never asked for the empty text.  No error
    text is extracted twice. *)
Theorem extracted_errors (issue : LinearIssue) :
  NoDup (errors (extractSignalsFromIssue issue)) /\
  forall e, In e (errors (extractSignalsFromIssue issue)) ->
    e <> EmptyString /\
    (exists w, In w errorWords /\ startsWith w e = true) /\
    allChars withinLine e = true /\
    exists before after,
      title issue +++ String nl (description issue) = before +++ e +++ after.
Proof.
  simpl. destruct (unique_spec (matchAll errorPattern
                                  (title issue +++ String nl (description issue))))
    as [Hnd Hin].
  split; [assumption|]. intros e He. apply Hin in He.
  apply matchAllFrom_elements in He as (before & suffix & n & Htext & Hre & ->).
  destruct (errorPattern_shape suffix n Hre) as ((w & Hw & Hstart) & Hline).
  repeat split.
  - intros Hempty. rewrite Hempty in Hstart.
    unfold errorWords in Hw. cbn [In] in Hw.
    destruct Hw as [<-|[<-|[<-|[<-|[<-|[]]]]]]; discriminate.
  - now exists w.
  - assumption.
  - exists before, (drop n suffix). now rewrite take_drop.
Qed.

(** ** The file paths *)

Lemma split_head (c : ascii) (s : string) :
  exists h t, split c s = h :: t.
Proof.
  induction s as [|x s (h & t & IH)]; simpl; [eauto|].
  destruct (Ascii.eqb x c); [eauto | rewrite IH; eauto].
Qed.

Lemma split_other (c x : ascii) (s : string) :
  Ascii.eqb x c = false ->
  split c (String x s) =
    String x (nth 0 (split c s) EmptyString) :: tl (split c s).
Proof.
  intros H. simpl. rewrite H.
  destruct (split_head c s) as (h & t & ->). reflexivity.
Qed.

Lemma isWord_plain (c : ascii) :
  isWord c = true ->
  Ascii.eqb c ":" = false /\ Ascii.eqb c "/" = false /\ Ascii.eqb c "." = false.
Proof.
  destruct c as [[] [] [] [] [] [] [] []]; vm_compute; intros H;
    try discriminate; repeat split.
Qed.

Lemma isPathChar_plain (c : ascii) :
  isPathChar c = true ->
  Ascii.eqb c ":" = false /\ Ascii.eqb c "/" = false /\ Ascii.eqb c "." = false.
Proof.
  destruct c as [[] [] [] [] [] [] [] []]; vm_compute; intros H;
    try discriminate; repeat split.
Qed.

(** The text before the first [:] of an extension with its line number is
    the extension. *)
Lemma before_colon (r : string) (a j : nat) :
  (a <= spanLength isWord r)%nat ->
  (j = O \/ exists rest, drop a r = String ":" rest) ->
  nth 0 (split ":" (take (a + j) r)) EmptyString = take a r.
Proof.
  revert r; induction a as [|a IH]; intros r Ha Hj.
  - simpl. destruct Hj as [->|(rest & Hr)]; [reflexivity|].
    simpl in Hr. subst r. destruct j; reflexivity.
  - destruct r as [|c r]; [simpl in Ha; lia|]. simpl in Ha.
    destruct (isWord c) eqn:Hc; [|lia].
    destruct (isWord_plain c Hc) as (Hcolon & _).
    change (take (S a + j) (String c r)) with (String c (take (a + j) r)).
    rewrite (split_other ":" c _ Hcolon). simpl.
    rewrite IH; [reflexivity | lia | exact Hj].
Qed.

Lemma reLineSuffix_colon (s : string) :
  reLineSuffix s = O \/ exists rest, s = String ":" rest.
Proof.
  destruct s as [|c r]; [now left|]. simpl.
  destruct (code c =? 58)%N eqn:E; [|now left].
  right. exists r. f_equal.
  apply N.eqb_eq in E. unfold code in E.
  rewrite <- (ascii_N_embedding c), E. reflexivity.
Qed.

Lemma reExtension_shape (r : string) (n : nat) :
  reExtension r = Some n ->
  exists ext, nth 0 (split ":" (take n r)) EmptyString = ext /\
              ext <> EmptyString /\ allChars isWord ext = true.
Proof.
  unfold reExtension. destruct (spanLength isWord r) as [|k] eqn:Hk; [discriminate|].
  intros H.
  assert (Hn : n = (S k + reLineSuffix (drop (S k) r))%nat) by congruence.
  clear H. subst n.
  exists (take (S k) r). split.
  - apply before_colon; [lia | apply reLineSuffix_colon].
  - split.
    + destruct r; [discriminate | discriminate].
    + rewrite <- Hk. apply take_span.
Qed.

Lemma reFilePath_shape (s : string) (started : bool) (n : nat) :
  reFilePath started s = Some n ->
  PathText started (nth 0 (split ":" (take n s)) EmptyString).
Proof.
  revert started n; induction s as [|c r IH]; intros started n H; simpl in H;
    [discriminate|].
  destruct (isPathChar c) eqn:Hc.
  - destruct (reFilePath true r) as [k|] eqn:Hr; [|discriminate].
    injection H as <-. destruct (isPathChar_plain c Hc) as (Hcolon & _).
    change (take (S k) (String c r)) with (String c (take k r)).
    rewrite (split_other ":" c _ Hcolon). simpl.
    apply PathText_char; [assumption | now apply IH].
  - destruct started; simpl in H; [|discriminate].
    destruct (code c =? 47)%N eqn:Hslash.
    + destruct (reFilePath false r) as [k|] eqn:Hr; [|discriminate].
      injection H as <-.
      assert (c = "/"%char) as ->.
      { apply N.eqb_eq in Hslash. unfold code in Hslash.
        rewrite <- (ascii_N_embedding c), Hslash. reflexivity. }
      change (take (S k) (String "/" r)) with (String "/" (take k r)).
      rewrite (split_other ":" "/" _ eq_refl). simpl.
      apply PathText_slash. now apply IH.
    + destruct (code c =? 46)%N eqn:Hdot; [|discriminate].
      destruct (reExtension r) as [k|] eqn:Hr; [|discriminate].
      injection H as <-.
      assert (c = "."%char) as ->.
      { apply N.eqb_eq in Hdot. unfold code in Hdot.
        rewrite <- (ascii_N_embedding c), Hdot. reflexivity. }
      change (take (S k) (String "." r)) with (String "." (take k r)).
      rewrite (split_other ":" "." _ eq_refl). simpl.
      destruct (reExtension_shape r k Hr) as (ext & -> & Hne & Hall).
      now apply PathText_dot.
Qed.

Lemma word_no_slash (ext : string) :
  allChars isWord ext = true -> hasChar "/" ext = false.
Proof.
  induction ext as [|c ext IH]; simpl; [reflexivity|].
  intros H. apply andb_true_iff in H as [Hc Hrest].
  destruct (isWord_plain c Hc) as (_ & Hslash & _).
  now rewrite Hslash, IH.
Qed.

Lemma PathText_segments (started : bool) (m : string) :
  PathText started m ->
  exists h t, split "/" m = h :: t /\
              Forall plainName t /\
              (started = false -> plainName h).
Proof.
  induction 1 as [started c m Hc _ (h & t & Hsplit & Ht & _) | m _ (h & t & Hsplit & Ht & Hh) | ext Hne Hall].
  - destruct (isPathChar_plain c Hc) as (_ & Hslash & Hdot).
    rewrite (split_other "/" c _ Hslash), Hsplit. simpl.
    exists (String c h), t. repeat split; try assumption.
    + discriminate.
    + intros E. injection E as -> _. discriminate.
    + intros E. injection E as -> _. discriminate.
  - exists EmptyString, (h :: t). simpl. rewrite Hsplit.
    split; [reflexivity|]. split; [|discriminate].
    constructor; [now apply Hh | assumption].
  - exists (String "." ext), []. split; [|split; [constructor | discriminate]].
    apply ContextEngineMore.split_clean. simpl. now apply word_no_slash.
Qed.

Lemma extracted_files_distinct (issue : LinearIssue) :
  NoDup (files (extractSignalsFromIssue issue)).
Proof. simpl. apply unique_spec. Qed.

(** X6.  Every file path extracted from an issue is a relative path made
    of plain names: no name between the slashes is empty, [.] or [..], so
    the path is not absolute and reading it cannot leave the checkout.  No
    path is extracted twice. *)
Theorem extracted_files (issue : LinearIssue) :
  NoDup (files (extractSignalsFromIssue issue)) /\
  forall f, In f (files (extractSignalsFromIssue issue)) ->
    Forall plainName (split "/" f) /\ hasChar ":" f = false.
Proof.
  simpl.
  destruct (unique_spec
              (map (fun f => nth 0 (split ":" f) EmptyString)
                   (matchAll filePattern
                      (title issue +++ String nl (description issue)))))
    as [Hnd Hin].
  split; [assumption|]. intros f Hf. apply Hin in Hf.
  apply in_map_iff in Hf as (m & <- & Hm).
  apply matchAllFrom_elements in Hm as (before & suffix & n & _ & Hre & ->).
  apply reFilePath_shape in Hre. split.
  - destruct (PathText_segments _ _ Hre) as (h & t & -> & Ht & Hh).
    constructor; [now apply Hh | assumption].
  - clear Hre. generalize (take n suffix). intros s.
    induction s as [|c s IH]; [reflexivity|].
    destruct (Ascii.eqb c ":") eqn:Hc.
    + simpl. rewrite Hc. reflexivity.
    + rewrite (split_other ":" c s Hc). simpl. now rewrite Hc, IH.
Qed.

End SignalFacts.

(** * Properties of the bundle and of the commit *)

Module BundleFacts.
Import JS Effects ContextEngine Notions MoreNotions.

Lemma InOrder_incl {A : Type} (l whole : list A) :
  InOrder l whole -> forall x, In x l -> In x whole.
Proof.
  induction 1 as [|y l whole _ IH|y l whole _ IH]; intros x Hx; simpl in *.
  - contradiction.
  - right. now apply IH.
  - destruct Hx as [->|Hx]; [now left | right; now apply IH].
Qed.

Lemma InOrder_NoDup {A : Type} (l whole : list A) :
  InOrder l whole -> NoDup whole -> NoDup l.
Proof.
  induction 1 as [|y l whole H IH|y l whole H IH]; intros Hnd.
  - constructor.
  - inversion Hnd; subst. now apply IH.
  - inversion Hnd; subst. constructor; [|now apply IH].
    intros Hin. apply (InOrder_incl _ _ H) in Hin. contradiction.
Qed.

Lemma addFiles_asRead (co : Checkout) (paths : list string)
    (included : list FileContext) (t : Z) :
  Forall asRead included -> Forall asRead (fst (addFiles co paths included t)).
Proof.
  revert included t; induction paths as [|p rest IH]; intros included t H;
    [assumption|].
  rewrite ContextEngineFacts.addFiles_cons. apply IH. unfold includeFile.
  destruct (readFile co p) as [text|m]; [|assumption].
  destruct (_ <? _); [|assumption]. simpl.
  apply Forall_app. split; [assumption|]. constructor; [|constructor].
  unfold asRead, fileEntry. simpl. split; [reflexivity|].
  destruct (SignalFacts.split_head nl text) as (h & tl & ->). simpl. lia.
Qed.

(** X7.  The files of a bundle are files named in the issue, each at most
    once and in the order named, with the content read from the checkout
    and the number of its lines, which is at least one; together they are
    estimated below 70,000 tokens, whatever the size of the notes. *)
Theorem bundle_files (co : Checkout) (issue : LinearIssue) (ctx : BugContext) :
  gatherContextForBug co issue = Ok ctx ->
  InOrder (map path (relevantFiles ctx)) (files (extractSignalsFromIssue issue)) /\
  NoDup (map path (relevantFiles ctx)) /\
  Forall (fun f => readFile co (path f) = Ok (content f) /\ asRead f)
         (relevantFiles ctx) /\
  tokensOf (relevantFiles ctx) < filesLimit.
Proof.
  unfold gatherContextForBug. intros H.
  apply ContextEngineFacts.gatherContext_steps in H
    as (_ & _ & _ & _ & _ & Hfiles & _).
  set (signals := extractSignalsFromIssue issue) in *.
  set (t1 := snd (loadStaticContext co)) in *.
  destruct (ContextEngineFacts.addFiles_added co (files signals) [] t1)
    as (added & Hfst & Hsnd & Horder & Hread & Hlimit).
  pose proof (addFiles_asRead co (files signals) [] t1 (Forall_nil _)) as Hshape.
  rewrite <- Hfiles in Hfst, Hshape. simpl in Hfst. subst added.
  split; [assumption|]. split.
  - apply (InOrder_NoDup _ _ Horder).
    apply (SignalFacts.extracted_files_distinct issue).
  - split.
    + rewrite Forall_forall in *. intros f Hf. split; [now apply Hread | now apply Hshape].
    + pose proof (ContextEngineFacts.loadStaticContext_counted co) as Hnotes.
      fold t1 in Hnotes.
      destruct (relevantFiles ctx) as [|f l] eqn:E.
      * simpl. destruct ContextEngineFacts.limits as (-> & _). lia.
      * assert (Hne : f :: l <> []) by discriminate.
        specialize (Hlimit Hne). lia.
Qed.

Lemma bundle_files_witness :
  InOrder (map path (relevantFiles sampleBundle))
          (files (extractSignalsFromIssue sampleIssue)) /\
  NoDup (map path (relevantFiles sampleBundle)) /\
  Forall (fun f => readFile sampleCheckout (path f) = Ok (content f) /\ asRead f)
         (relevantFiles sampleBundle) /\
  tokensOf (relevantFiles sampleBundle) < filesLimit.
Proof.
  exact (bundle_files sampleCheckout sampleIssue sampleBundle eq_refl).
Defined.

(** X8.  The estimate of a text is a quarter of its length rounded up, so
    cutting a text in two never lowers the sum of the estimates and raises
    it by one token at most. *)
Theorem estimateTokens_append (a b : string) :
  estimateTokens (a +++ b) <= estimateTokens a + estimateTokens b
    <= estimateTokens (a +++ b) + 1.
Proof.
  assert (Hlen : len (a +++ b) = len a + len b).
  { unfold len. rewrite <- Nat2Z.inj_add. f_equal.
    induction a as [|c a IH]; simpl; [reflexivity | now rewrite IH]. }
  pose proof (ContextEngineFacts.estimateTokens_ceiling a).
  pose proof (ContextEngineFacts.estimateTokens_ceiling b).
  pose proof (ContextEngineFacts.estimateTokens_ceiling (a +++ b)).
  lia.
Qed.

(** ** The commit *)

Lemma commit_within (w : World) (text : string) (staged : list string) :
  within (commit w text staged)
    (flat_map (fun f => [gitAdd f]) staged
     ++ [gitCommit text] ++ [gitRevParse] ++ []).
Proof.
  unfold commit. apply ApplierFacts.within_rethrow.
  apply ApplierFacts.within_andThen.
  - apply ApplierFacts.within_forEach. intros f. apply ApplierFacts.within_perform.
  - intros _. apply ApplierFacts.within_andThen; [apply ApplierFacts.within_perform|].
    intros _. apply ApplierFacts.within_andThen; [apply ApplierFacts.within_perform|].
    intros out. apply ApplierFacts.within_ret.
Qed.

Lemma prefix_or_beyond {A : Type} (done rest a b : list A) :
  done ++ rest = a ++ b ->
  (exists x, a = done ++ x) \/ (exists y, done = a ++ y).
Proof.
  revert a; induction done as [|d done IH]; intros a H.
  - left. now exists a.
  - destruct a as [|x a].
    + right. now exists (d :: done).
    + simpl in H. injection H as -> H.
      destruct (IH a H) as [(z & ->)|(y & ->)]; [left; now exists z | right; now exists y].
Qed.

Lemma rethrow_message {A : Type} (prefix : string) (m : M A) (log log' : list Effect)
    (e : string) :
  rethrow prefix m log = (Throw e, log') -> startsWith prefix e = true.
Proof.
  unfold rethrow. destruct (m log) as [[a|x] mid]; [discriminate|].
  intros H. injection H as <- _. apply ContextEngineFacts.startsWith_append.
Qed.

(** X9.  [commit] never asks for the commit before every path has been
    staged: on every run, completed or failed, what was asked for is a
    prefix of the staging of the paths, one commit and the reading of its
    hash; and when it fails, its message starts with [Failed to commit]. *)
Theorem commit_after_staging (w : World) (text : string) (staged : list string)
    (log : list Effect) :
  exists done,
    snd (commit w text staged log) = log ++ done /\
    (In (gitCommit text) done ->
     exists more, done = map gitAdd staged ++ gitCommit text :: more) /\
    (forall e, fst (commit w text staged log) = Throw e ->
               startsWith "Failed to commit: " e = true).
Proof.
  destruct (commit_within w text staged log) as (done & rest & Hlog & Hfull & _).
  exists done. split; [assumption|]. split.
  - intros Hin.
    replace (flat_map (fun f => [gitAdd f]) staged) with (map gitAdd staged) in Hfull
      by (clear; induction staged as [|s l IH]; simpl; [reflexivity | now rewrite IH]).
    destruct (prefix_or_beyond _ _ _ _ Hfull) as [(x & Hx)|(y & ->)].
    + exfalso. assert (Hadd : In (gitCommit text) (map gitAdd staged)).
      { rewrite Hx. apply in_or_app. now left. }
      apply in_map_iff in Hadd as (f & Hf & _). discriminate.
    + rewrite <- app_assoc in Hfull. apply app_inv_head in Hfull.
      destruct y as [|e y].
      * exfalso. rewrite app_nil_r in Hin.
        apply in_map_iff in Hin as (f & Hf & _). discriminate.
      * simpl in Hfull. injection Hfull as -> _. now exists y.
  - intros e He. destruct (commit w text staged log) as [r log'] eqn:E.
    simpl in He. subst r. unfold commit in E.
    exact (rethrow_message _ _ _ _ _ E).
Qed.

End BundleFacts.

(** * Further properties of the reply parser *)

Module AgentMore.
Import JS Json Agent Notions MoreNotions.

Lemma reverse_cons (c : ascii) (s : string) :
  reverse (String c s) = reverse s +++ String c EmptyString.
Proof. unfold reverse at 1. simpl. apply ContextEngineFacts.rev_string_append. Qed.

Lemma hasChar_reverse (c : ascii) (s : string) :
  hasChar c (reverse s) = hasChar c s.
Proof.
  induction s as [|x s IH]; [reflexivity|].
  rewrite reverse_cons, ContextEngineMore.hasChar_append, IH. simpl.
  rewrite orb_false_r. apply orb_comm.
Qed.

Lemma fromFirst_skip (c : ascii) (before rest : string) :
  hasChar c before = false ->
  fromFirst c (before +++ String c rest) = Some (String c rest).
Proof.
  induction before as [|x before IH]; simpl.
  - intros _. now rewrite Ascii.eqb_refl.
  - intros H. apply orb_false_iff in H as [Hx Hb]. now rewrite Hx, IH.
Qed.

Lemma fromFirst_split (c : ascii) (s found : string) :
  fromFirst c s = Some found ->
  exists before rest,
    s = before +++ found /\ hasChar c before = false /\ found = String c rest.
Proof.
  revert found; induction s as [|x s IH]; simpl; intros found H; [discriminate|].
  destruct (Ascii.eqb x c) eqn:Hx.
  - injection H as <-. apply Ascii.eqb_eq in Hx. subst x.
    now exists EmptyString, s.
  - destruct (IH _ H) as (before & rest & -> & Hb & ->).
    exists (String x before), rest. simpl. now rewrite Hx, Hb.
Qed.

Lemma toLast_wrap (c : ascii) (s after : string) :
  hasChar c after = false ->
  toLast c ((s +++ String c EmptyString) +++ after) = Some (s +++ String c EmptyString).
Proof.
  intros Ha. unfold toLast.
  rewrite !ContextEngineFacts.reverse_append.
  change (reverse (String c EmptyString) +++ reverse s) with (String c (reverse s)).
  rewrite fromFirst_skip by now rewrite hasChar_reverse.
  simpl. now rewrite reverse_cons, ContextEngineFacts.reverse_reverse.
Qed.

(** From the first [{] to the last [}]: the construction. *)
Lemma jsonMatch_wrap (before body after : string) :
  hasChar "{" before = false -> hasChar "}" after = false ->
  jsonMatch (before +++ String "{" (body +++ "}") +++ after)
    = Some (String "{" (body +++ "}")).
Proof.
  intros Hb Ha. unfold jsonMatch.
  change (before +++ String "{" (body +++ "}") +++ after)
    with (before +++ String "{" ((body +++ "}") +++ after)).
  rewrite (fromFirst_skip "{" before _ Hb).
  change (String "{" ((body +++ "}") +++ after))
    with ((String "{" body +++ String "}" EmptyString) +++ after).
  now rewrite toLast_wrap.
Qed.

(** X10.  The JSON of a reply is the text from its first [{] to its last
    [}], whatever stands before and behind; there is none when no [}]
    follows the first [{]. *)
Theorem jsonMatch_first_to_last (text json : string) :
  jsonMatch text = Some json <->
  exists before body after,
    text = before +++ json +++ after /\
    json = String "{" (body +++ "}") /\
    hasChar "{" before = false /\
    hasChar "}" after = false.
Proof.
  split.
  - unfold jsonMatch, toLast.
    destruct (fromFirst "{" text) as [s|] eqn:Hs; [|discriminate].
    apply fromFirst_split in Hs as (before & rest & -> & Hb & ->).
    destruct (fromFirst "}" (reverse (String "{" rest))) as [u|] eqn:Hu; [|discriminate].
    simpl. intros H. injection H as <-.
    apply fromFirst_split in Hu as (pre & tail & Hrev & Hpre & ->).
    apply (f_equal reverse) in Hrev.
    rewrite ContextEngineFacts.reverse_reverse, ContextEngineFacts.reverse_append in Hrev.
    rewrite reverse_cons in Hrev |- *.
    destruct (reverse tail) as [|x xs] eqn:Ht.
    + simpl in Hrev. discriminate.
    + simpl in Hrev. injection Hrev as <- Hrest.
      exists before, xs, (reverse pre). rewrite Hrest. simpl.
      rewrite ContextEngineFacts.append_assoc.
      repeat split; [assumption | now rewrite hasChar_reverse].
  - intros (before & body & after & -> & -> & Hb & Ha).
    now apply jsonMatch_wrap.
Qed.

(** X11.  Prose around the JSON does not change what is made of a
    well-formed reply: with no [{] before it and no [}] behind it, the
    reply is parsed as the JSON alone is. *)
Theorem prose_ignored (syntaxErrorMessage : string -> string)
    (before body after : string) (r d : Value) (items : list Value) :
  hasChar "{" before = false -> hasChar "}" after = false ->
  wellFormed (String "{" (body +++ "}")) r d items ->
  parseClaudeResponse syntaxErrorMessage
    (before +++ String "{" (body +++ "}") +++ after)
  = parseClaudeResponse syntaxErrorMessage (String "{" (body +++ "}")).
Proof.
  intros Hb Ha Hwell.
  rewrite (AgentFacts.parse_wellFormed syntaxErrorMessage _ r d items Hwell).
  apply AgentFacts.parse_wellFormed.
  destruct Hwell as (json & parsed & Hm & Hrest).
  pose proof (jsonMatch_wrap EmptyString body EmptyString eq_refl eq_refl) as Hself.
  simpl in Hself. rewrite ContextEngineFacts.append_empty in Hself.
  rewrite Hself in Hm. injection Hm as <-.
  exists (String "{" (body +++ "}")), parsed. split; [|assumption].
  now apply jsonMatch_wrap.
Qed.

Lemma prose_ignored_witness :
  parseClaudeResponse engineMessage
    ("Here is the fix: "
     +++ String "{" ((member "reasoning" (quoted "off by one") +++ ", "
                      +++ member "description" (quoted "fix the bound") +++ ", "
                      +++ member "changes" "[1]") +++ "}")
     +++ " Hope it helps.")
  = parseClaudeResponse engineMessage
      (String "{" ((member "reasoning" (quoted "off by one") +++ ", "
                    +++ member "description" (quoted "fix the bound") +++ ", "
                    +++ member "changes" "[1]") +++ "}")).
Proof.
  apply (prose_ignored engineMessage "Here is the fix: " _ " Hope it helps."
           (str "off by one") (str "fix the bound") [JNumber false 1 0]).
  - reflexivity.
  - reflexivity.
  - unfold wellFormed. eexists. eexists.
    split; [vm_compute; reflexivity|].
    split; [vm_compute; reflexivity|].
    repeat (split; [vm_compute; reflexivity|]).
    vm_compute. reflexivity.
Defined.

(** X12.  What [parseClaudeResponse] returns is a success exactly when it
    carries at least one change, and exactly then it carries no error: a
    failure has no changes and always names its error. *)
Theorem success_has_changes (syntaxErrorMessage : string -> string) (text : string) :
  let reply := parseClaudeResponse syntaxErrorMessage text in
  (success reply = true <-> changes reply <> []) /\
  (success reply = true <-> error reply = None).
Proof.
  unfold parseClaudeResponse.
  assert (Hfail : forall m,
            let reply := parseFailure text m in
            (success reply = true <-> changes reply <> []) /\
            (success reply = true <-> error reply = None)).
  { intros m. simpl. repeat split; intros H; try discriminate; congruence. }
  destruct (jsonMatch text) as [json|]; [|apply Hfail].
  destruct (parse json) as [parsed|]; [|apply Hfail].
  destruct (property "reasoning" parsed) as [r|]; [|apply Hfail].
  destruct (property "description" parsed) as [d|]; [|apply Hfail].
  destruct (property "changes" parsed) as [c|]; [|apply Hfail].
  destruct c; try apply Hfail.
  destruct (truthy (Some r) && truthy (Some d)); [|apply Hfail].
  destruct items as [|item rest]; simpl; repeat split; intros H;
    try discriminate; congruence.
Qed.

End AgentMore.

(** * Paths made of plain names *)

Module PathFacts.
Import JS Effects Notions MoreNotions.

Lemma split_app (c : ascii) (a b : string) :
  split c (a +++ String c b) = split c a ++ split c b.
Proof.
  induction a as [|x a IH]; simpl.
  - now rewrite Ascii.eqb_refl.
  - destruct (Ascii.eqb x c); [now rewrite IH|].
    rewrite IH. destruct (SignalFacts.split_head c a) as (h & t & ->).
    reflexivity.
Qed.

Lemma join_cons (sep x : string) (l : list string) :
  l <> [] -> JS.join sep (x :: l) = x +++ sep +++ JS.join sep l.
Proof. destruct l; [congruence | reflexivity]. Qed.

Lemma split_cons (c : ascii) (s : string) : split c s <> [].
Proof. destruct (SignalFacts.split_head c s) as (h & t & ->). discriminate. Qed.

Lemma join_split (c : ascii) (s : string) :
  JS.join (String c EmptyString) (split c s) = s.
Proof.
  induction s as [|x s IH]; [reflexivity|].
  cbn [split]. destruct (Ascii.eqb x c) eqn:Hx.
  - apply Ascii.eqb_eq in Hx as ->.
    rewrite join_cons by apply split_cons. now rewrite IH.
  - destruct (SignalFacts.split_head c s) as (h & t & E).
    rewrite E in *. destruct t as [|t1 t].
    + simpl in *. now rewrite IH.
    + rewrite join_cons by discriminate.
      rewrite join_cons in IH by discriminate.
      rewrite <- IH. reflexivity.
Qed.

Lemma join_app (sep : string) (l1 l2 : list string) :
  l1 <> [] -> l2 <> [] ->
  JS.join sep (l1 ++ l2) = JS.join sep l1 +++ sep +++ JS.join sep l2.
Proof.
  intros H1 H2. induction l1 as [|x l1 IH]; [congruence|].
  destruct l1 as [|y l1].
  - simpl app. now rewrite join_cons.
  - change ((x :: y :: l1) ++ l2) with (x :: ((y :: l1) ++ l2)).
    rewrite join_cons by discriminate.
    rewrite IH by discriminate.
    rewrite (join_cons sep x (y :: l1)) by discriminate.
    now rewrite !ContextEngineFacts.append_assoc.
Qed.

Lemma plain_truthy (seg : string) :
  plainName seg ->
  truthy seg = true /\ String.eqb seg "." = false /\ Path.isDots seg = false.
Proof.
  intros (H0 & H1 & H2). repeat split.
  - destruct seg; [congruence | reflexivity].
  - now apply String.eqb_neq.
  - now apply String.eqb_neq.
Qed.

Lemma normalizeSegments_plain (allow : bool) (segments kept : list string) :
  Forall plainName segments ->
  Path.normalizeSegments allow segments kept = rev segments ++ kept.
Proof.
  intros H. revert kept. induction H as [|seg rest Hseg _ IH]; intros kept.
  - reflexivity.
  - destruct (plain_truthy seg Hseg) as (Ht & Hd & Hdd).
    cbn [Path.normalizeSegments]. rewrite Ht, Hd, Hdd. cbn [negb orb].
    rewrite IH. simpl. now rewrite <- app_assoc.
Qed.

Lemma clean_not_empty (p : string) : cleanPath p -> p <> EmptyString.
Proof.
  intros H ->. inversion H as [|? ? (H0 & _) _]. congruence.
Qed.

Lemma clean_no_trailing (p : string) :
  cleanPath p -> endsWith "/" p = false.
Proof.
  intros H. destruct (endsWith "/" p) eqn:E; [|reflexivity].
  apply ContextEngineFacts.endsWith_suffix in E as [stem ->].
  unfold cleanPath in H. rewrite split_app in H.
  apply Forall_app in H as [_ H]. simpl in H.
  inversion H as [|? ? (H0 & _) _]. congruence.
Qed.

Lemma clean_append (a b : string) :
  cleanPath a -> cleanPath b -> cleanPath (a +++ "/" +++ b).
Proof.
  unfold cleanPath. intros Ha Hb.
  change (a +++ "/" +++ b) with (a +++ String "/" b).
  rewrite split_app. now apply Forall_app.
Qed.

Lemma endsWith_cons (c : ascii) (p : string) :
  p <> EmptyString -> endsWith "/" (String c p) = endsWith "/" p.
Proof.
  intros Hp. destruct (endsWith "/" p) eqn:E.
  - apply ContextEngineFacts.endsWith_suffix in E as [stem ->].
    change (String c (stem +++ "/")) with (String c stem +++ "/").
    generalize (String c stem). intros s. unfold endsWith.
    rewrite ContextEngineFacts.reverse_append. reflexivity.
  - destruct (endsWith "/" (String c p)) eqn:E'; [|reflexivity].
    apply ContextEngineFacts.endsWith_suffix in E' as [stem E'].
    destruct stem as [|d stem].
    + simpl in E'. injection E' as _ ->. congruence.
    + simpl in E'. injection E' as _ ->.
      unfold endsWith in E. rewrite ContextEngineFacts.reverse_append in E.
      discriminate.
Qed.

Lemma normalize_rooted (p : string) :
  cleanPath p -> Path.normalize ("/" +++ p) = "/" +++ p.
Proof.
  intros H. pose proof (clean_not_empty p H) as Hne.
  unfold Path.normalize. change ("/" +++ p) with (String "/" p).
  cbv zeta. change (startsWith "/" (String "/" p)) with true.
  rewrite (endsWith_cons "/" p Hne), (clean_no_trailing p H).
  change (split "/" (String "/" p)) with (EmptyString :: split "/" p).
  change (Path.normalizeSegments (negb true) (EmptyString :: split "/" p) [])
    with (Path.normalizeSegments false (split "/" p) []).
  rewrite (normalizeSegments_plain false _ [] H), app_nil_r, rev_involutive.
  rewrite join_split. destruct p; [congruence | reflexivity].
Qed.

Lemma clean_relative (p : string) : cleanPath p -> startsWith "/" p = false.
Proof.
  intros H. destruct p as [|c p]; [reflexivity|].
  cbn [startsWith]. destruct (Ascii.eqb "/" c) eqn:Hc; [|reflexivity].
  apply Ascii.eqb_eq in Hc as <-. unfold cleanPath in H. simpl in H.
  apply Forall_inv in H as (H0 & _). congruence.
Qed.

Lemma normalize_relative (p : string) : cleanPath p -> Path.normalize p = p.
Proof.
  intros H. pose proof (clean_not_empty p H) as Hne.
  unfold Path.normalize. destruct p as [|c p]; [congruence|].
  cbv zeta. rewrite (clean_relative _ H), (clean_no_trailing _ H).
  rewrite (normalizeSegments_plain _ _ [] H), app_nil_r, rev_involutive.
  rewrite join_split. reflexivity.
Qed.

Lemma normalize_clean (root p : string) :
  cleanRoot root -> cleanPath p ->
  Path.normalize (root +++ "/" +++ p) = root +++ "/" +++ p.
Proof.
  intros [Hr | (r & -> & Hr)] Hp.
  - apply normalize_relative. now apply clean_append.
  - change (("/" +++ r) +++ "/" +++ p) with ("/" +++ (r +++ "/" +++ p)).
    apply normalize_rooted. now apply clean_append.
Qed.

Lemma root_not_empty (root : string) : cleanRoot root -> root <> EmptyString.
Proof.
  intros [Hr | (r & -> & _)]; [now apply clean_not_empty | discriminate].
Qed.

Lemma join_clean (root p : string) :
  cleanRoot root -> cleanPath p ->
  Path.join [root; p] = root +++ "/" +++ p.
Proof.
  intros Hr Hp. unfold Path.join.
  pose proof (root_not_empty root Hr) as Hroot.
  pose proof (clean_not_empty p Hp) as Hne.
  destruct root as [|d root]; [congruence|].
  destruct p as [|c p]; [congruence|].
  cbn [filter truthy]. cbn [JS.join].
  now apply normalize_clean.
Qed.

Lemma split_pieces (c : ascii) (s : string) :
  Forall (fun piece => hasChar c piece = false) (split c s).
Proof.
  induction s as [|x s IH]; simpl.
  - constructor; [reflexivity | constructor].
  - destruct (Ascii.eqb x c) eqn:Hx.
    + constructor; [reflexivity | assumption].
    + destruct (split c s) as [|h t].
      { constructor; [simpl; now rewrite Hx | constructor]. }
      constructor; [|exact (Forall_inv_tail IH)].
      simpl. rewrite Hx. exact (Forall_inv IH).
Qed.

Lemma lastSlash_none (s : string) (index : nat) (seen : option nat) :
  hasChar "/" s = false -> Path.lastSlash s index seen = seen.
Proof.
  revert index seen. induction s as [|c s IH]; intros index seen H.
  - reflexivity.
  - simpl in H. apply orb_false_iff in H as [Hc Hs].
    destruct s as [|d s]; [reflexivity|].
    change (Path.lastSlash (String c (String d s)) index seen)
      with (Path.lastSlash (String d s) (S index)
              (if (code c =? 47)%N && negb (code d =? 47)%N
                  && negb (Nat.eqb index 0)
               then Some index else seen)).
    rewrite (IH _ _ Hs).
    replace (code c =? 47)%N with false; [reflexivity|].
    symmetry. apply N.eqb_neq. intros E.
    apply Ascii.eqb_neq in Hc. apply Hc.
    rewrite <- (ascii_N_embedding c). unfold code in E. rewrite E. reflexivity.
Qed.

Lemma lastSlash_last (a seg : string) (index : nat) (seen : option nat) :
  seg <> EmptyString -> hasChar "/" seg = false ->
  (index + String.length a <> 0)%nat ->
  Path.lastSlash (a +++ "/" +++ seg) index seen
  = Some (index + String.length a)%nat.
Proof.
  intros Hne Hseg. revert index seen.
  induction a as [|x a IH]; intros index seen Hi.
  - destruct seg as [|d seg]; [congruence|].
    change (Path.lastSlash (EmptyString +++ "/" +++ String d seg) index seen)
      with (Path.lastSlash (String d seg) (S index)
              (if (code "/" =? 47)%N && negb (code d =? 47)%N
                  && negb (Nat.eqb index 0)
               then Some index else seen)).
    rewrite (lastSlash_none _ _ _ Hseg).
    simpl in Hseg. apply orb_false_iff in Hseg as [Hd _].
    replace (code d =? 47)%N with false.
    + destruct index; [simpl in Hi; congruence|].
      simpl. now rewrite Nat.add_0_r.
    + symmetry. apply N.eqb_neq. intros E.
      apply Ascii.eqb_neq in Hd. apply Hd.
      rewrite <- (ascii_N_embedding d). unfold code in E. rewrite E. reflexivity.
  - assert (exists y rest, a +++ "/" +++ seg = String y rest) as (y & rest & E).
    { destruct a; simpl; eauto. }
    change (String x a +++ "/" +++ seg) with (String x (a +++ "/" +++ seg)).
    rewrite E.
    change (Path.lastSlash (String x (String y rest)) index seen)
      with (Path.lastSlash (String y rest) (S index)
              (if (code x =? 47)%N && negb (code y =? 47)%N
                  && negb (Nat.eqb index 0)
               then Some index else seen)).
    rewrite <- E, IH by (simpl; lia).
    f_equal. simpl. lia.
Qed.

Lemma rooted_append (a rest : string) : rooted a -> rooted (a +++ rest).
Proof.
  intros (Hne & Hlen). destruct a as [|c a]; [congruence|]. split.
  - discriminate.
  - intros H. cbn [append startsWith] in H.
    apply andb_true_iff in H as [Hc _].
    cbn [startsWith] in Hlen. rewrite Hc in Hlen. specialize (Hlen eq_refl).
    destruct a as [|d a]; simpl in *; lia.
Qed.

Lemma root_rooted (root : string) : cleanRoot root -> rooted root.
Proof.
  intros [Hr | (r & -> & Hr)].
  - split; [now apply clean_not_empty|].
    intros H. rewrite (clean_relative _ Hr) in H. discriminate.
  - split; [discriminate|]. intros _.
    pose proof (clean_not_empty r Hr). destruct r; [congruence|]. simpl. lia.
Qed.

Lemma dirname_last (a seg : string) :
  rooted a -> seg <> EmptyString -> hasChar "/" seg = false ->
  Path.dirname (a +++ "/" +++ seg) = a.
Proof.
  intros (Ha & Hlen) Hne Hseg. unfold Path.dirname.
  destruct a as [|c a]; [congruence|].
  change (String c a +++ "/" +++ seg) with (String c (a +++ "/" +++ seg)).
  cbv zeta.
  change (String c (a +++ "/" +++ seg)) with (String c a +++ "/" +++ seg).
  rewrite (lastSlash_last (String c a) seg 0 None Hne Hseg) by (simpl; lia).
  cbn [Nat.add].
  replace (startsWith "/" (String c a +++ "/" +++ seg)
           && Nat.eqb (String.length (String c a)) 1) with false.
  - rewrite <- (Nat.add_0_r (String.length (String c a))).
    rewrite SignalFacts.take_append.
    change (take 0 ("/" +++ seg)) with EmptyString.
    rewrite ContextEngineFacts.append_empty. reflexivity.
  - symmetry. apply andb_false_iff.
    destruct (startsWith "/" (String c a)) eqn:Hs.
    + right. apply Nat.eqb_neq. specialize (Hlen eq_refl). lia.
    + left. cbn [append startsWith] in *.
      apply andb_false_iff in Hs as [Hs | Hs]; [now rewrite Hs | discriminate].
Qed.

Lemma dirname_clean (root p : string) :
  cleanRoot root -> cleanPath p ->
  Path.dirname (root +++ "/" +++ p) = parentOf root p.
Proof.
  intros Hroot Hp. apply root_rooted in Hroot. unfold parentOf.
  pose proof (split_pieces "/" p) as Hpieces.
  pose proof (join_split "/" p) as Hjoin.
  unfold cleanPath in Hp.
  destruct (exists_last (split_cons "/" p)) as (init & seg & E).
  rewrite E in Hp, Hpieces, Hjoin. rewrite E, removelast_last.
  apply Forall_app in Hp as [_ Hp]. apply Forall_inv in Hp as (Hseg & _).
  apply Forall_app in Hpieces as [_ Hpieces]. apply Forall_inv in Hpieces.
  rewrite <- Hjoin. destruct init as [|i0 init].
  - cbn [app JS.join]. now apply dirname_last.
  - rewrite join_app by discriminate.
    rewrite (join_cons "/" root) by discriminate.
    change (JS.join "/" [seg]) with seg.
    set (a := root +++ "/" +++ JS.join "/" (i0 :: init)).
    replace (root +++ "/" +++ JS.join "/" (i0 :: init) +++ "/" +++ seg)
      with (a +++ "/" +++ seg)
      by (unfold a; now rewrite !ContextEngineFacts.append_assoc).
    apply dirname_last; try assumption. now apply rooted_append.
Qed.

(** X25.  [writeFile] stays in the checkout: when the path of the
    checkout is made of plain names, absolute or not, and the path of the
    file is made of plain names (none is empty, [.] or [..]), a call
    makes the directory of the file below the checkout, then writes the
    whole content to the path of the checkout, [/] and the path of the
    file; it asks for nothing else, and stops at the first of the two
    that fails. *)
Theorem writeFile_in_checkout (w : World) (engine : ContextEngine.Engine)
    (filePath text : string) :
  cleanRoot (ContextEngine.repoPath engine) -> cleanPath filePath ->
  within (ContextEngine.writeFile w engine filePath text)
    [Mkdir (parentOf (ContextEngine.repoPath engine) filePath);
     WriteFile (ContextEngine.repoPath engine +++ "/" +++ filePath) text].
Proof.
  intros Hroot Hp. unfold ContextEngine.writeFile. cbv zeta.
  rewrite (join_clean _ _ Hroot Hp), (dirname_clean _ _ Hroot Hp).
  apply (ApplierFacts.within_andThen _ _ [_] [_]).
  - apply ApplierFacts.within_perform.
  - intros _. apply ApplierFacts.within_perform.
Qed.

Lemma writeFile_in_checkout_witness :
  cleanRoot (ContextEngine.repoPath sampleEngine) /\
  cleanPath "src/lib/a.ts" /\
  within (ContextEngine.writeFile obligingWorld sampleEngine "src/lib/a.ts" "x")
    [Mkdir "/tmp/acme-app/src/lib"; WriteFile "/tmp/acme-app/src/lib/a.ts" "x"].
Proof.
  assert (Hroot : cleanRoot (ContextEngine.repoPath sampleEngine)).
  { right. exists "tmp/acme-app"%string. split; [reflexivity|].
    repeat constructor; discriminate. }
  assert (Hp : cleanPath "src/lib/a.ts").
  { repeat constructor; discriminate. }
  split; [exact Hroot|]. split; [exact Hp|].
  exact (writeFile_in_checkout obligingWorld sampleEngine "src/lib/a.ts" "x"
           Hroot Hp).
Defined.

End PathFacts.


(** * The command lines as the shell reads them *)

Module ShellFacts.
Import JS Effects Notions MoreNotions Shell.

Lemma literal_spelled (s : string) : literal (spelled s) = Some s.
Proof. induction s as [|c s IH]; simpl; [reflexivity | now rewrite IH]. Qed.

Lemma plain_codes (c : ascii) :
  isPlain c = true ->
  (code c =? 34)%N = false /\ (code c =? 36)%N = false /\
  (code c =? 96)%N = false /\ (code c =? 92)%N = false /\
  (code c =? 0)%N = false.
Proof.
  unfold isPlain, isSpecial. cbn [existsb]. intros H.
  apply negb_true_iff in H.
  repeat (apply orb_false_iff in H as [? H]). auto 6.
Qed.


Lemma grown_push (c : ascii) (s : string) (current : option Word) :
  grown s (push (Literal c) current) = grown (String c s) current.
Proof. unfold grown, push. simpl. now rewrite <- app_assoc. Qed.

(** Between double quotes a quotable text is read as it is. *)
Lemma lex_quoted (s rest : string) (done : list Word) (current : option Word) :
  quotable s ->
  lex Quoted done (opened current) (s +++ rest)
    = lex Quoted done (grown s current) rest.
Proof.
  unfold quotable. revert current; induction s as [|c s IH]; intros current H.
  - reflexivity.
  - simpl in H. apply andb_true_iff in H as [Hc Hs].
    apply plain_codes in Hc as (H1 & H2 & H3 & H4 & H0).
    change (String c s +++ rest) with (String c (s +++ rest)).
    cbn [lex]. rewrite H0, H1, H2, H3, H4.
    rewrite <- grown_push, <- (IH _ Hs). reflexivity.
Qed.


Lemma lex_last_quoted (done : list Word) (p : string) :
  quotable p ->
  lex Bare done None (dquote +++ p +++ dquote) = Some (rev done ++ [spelled p]).
Proof.
  intros H.
  change (lex Bare done None (dquote +++ p +++ dquote))
    with (lex Quoted done (opened None) (p +++ dquote)).
  rewrite (lex_quoted p dquote done None H).
  change (lex Quoted done (grown p None) dquote)
    with (Some (rev (rev (rev (spelled p) ++ []) :: done))).
  now rewrite app_nil_r, rev_involutive.
Qed.


Lemma literals_spelled (l : list string) : literals (map spelled l) = Some l.
Proof.
  induction l as [|s l IH]; simpl; [reflexivity|].
  now rewrite literal_spelled, IH.
Qed.

Lemma argv_spelled (command name : string) (args : list string) :
  words command = Some (map spelled (name :: args)) ->
  isCommandName name = true ->
  argv command = Some (name :: args).
Proof.
  unfold argv. intros -> Hn. now rewrite literals_spelled, Hn.
Qed.

(** The command lines of the engine, for texts that the quotes keep. *)
Lemma argv_gitAdd (f : string) :
  quotable f ->
  actionOf (ContextEngine.gitAdd f) = Some (Run ["git"; "add"; f]%string).
Proof.
  intros H. unfold actionOf, ContextEngine.gitAdd.
  rewrite (argv_spelled _ "git" ["add"; f]%string); [reflexivity| |reflexivity].
  unfold words.
  change (lex Bare [] None ("git add " +++ dquote +++ f +++ dquote))
    with (lex Bare [spelled "add"; spelled "git"] None (dquote +++ f +++ dquote)).
  now rewrite lex_last_quoted.
Qed.

Lemma argv_gitCommit (text : string) :
  quotable text ->
  actionOf (ContextEngine.gitCommit text)
    = Some (Run ["git"; "commit"; "-m"; text]%string).
Proof.
  intros H. unfold actionOf, ContextEngine.gitCommit.
  rewrite (argv_spelled _ "git" ["commit"; "-m"; text]%string); [reflexivity| |reflexivity].
  unfold words.
  change (lex Bare [] None ("git commit -m " +++ dquote +++ text +++ dquote))
    with (lex Bare [spelled "-m"; spelled "commit"; spelled "git"] None
              (dquote +++ text +++ dquote)).
  now rewrite lex_last_quoted.
Qed.


Lemma quotable_append (a b : string) :
  quotable a -> quotable b -> quotable (a +++ b).
Proof.
  unfold quotable. intros Ha Hb. now rewrite SignalFacts.allChars_append, Ha, Hb.
Qed.

Lemma commitMessage_quotable (issue : ContextEngine.LinearIssue) (fx : Applier.Fix) :
  quotable (ContextEngine.title issue) -> quotable (Applier.reasoning fx) ->
  quotable (ContextEngine.url issue) ->
  quotable (Applier.commitMessage issue fx).
Proof.
  intros Ht Hr Hu. unfold Applier.commitMessage.
  repeat (apply quotable_append); try assumption; reflexivity.
Qed.

(** What applying a fix asks for, once the shell has read the command
    lines. *)
Lemma actions_of_fix (engine : ContextEngine.Engine)
    (issue : ContextEngine.LinearIssue) (fx : Applier.Fix) :
  quotableFix issue fx -> placedFix engine fx ->
  map actionOf (effectsOfFix engine issue fx)
    = map Some (actionsOfFix engine issue fx).
Proof.
  intros (Hpaths & Ht & Hr & Hu) (Hroot & Hplaced).
  unfold effectsOfFix, actionsOfFix.
  rewrite !map_app. f_equal; [|f_equal].
  - clear Hpaths Ht Hr Hu.
    induction Hplaced as [|c l Hc _ IH]; [reflexivity|].
    cbn [flat_map]. rewrite !map_app, IH. f_equal.
    unfold writesOf. cbv zeta.
    rewrite (PathFacts.join_clean _ _ Hroot Hc),
            (PathFacts.dirname_clean _ _ Hroot Hc).
    reflexivity.
  - rewrite !map_map. apply map_ext_in. intros c Hin.
    rewrite Forall_forall in Hpaths. now apply argv_gitAdd, Hpaths.
  - cbn [map].
    change (Exec ("git commit -m " +++ dquote +++ messageOf issue fx +++ dquote))
      with (ContextEngine.gitCommit (Applier.commitMessage issue fx)).
    rewrite argv_gitCommit by now apply commitMessage_quotable.
    reflexivity.
Qed.

End ShellFacts.

(** * The applier, once the shell has read the command lines *)

Module ApplierMore.
Import JS Effects Notions MoreNotions.

Lemma applyChanges_ok (w : World) (engine : ContextEngine.Engine)
    (issue : ContextEngine.LinearIssue) (fx : Applier.Fix)
    (log log' : list Effect) (hash : string) :
  Applier.applyChanges w engine issue fx log = (Ok hash, log') ->
  log' = log ++ effectsOfFix engine issue fx.
Proof.
  intros H. unfold Applier.applyChanges in H.
  apply ApplierFacts.andThen_ok in H as (a & mid & Hwrite & Hcommit).
  apply (ApplierFacts.forEach_ok _ (writesOf engine)) in Hwrite;
    [|intros c lg o lg'; apply ApplierFacts.writeFile_ok].
  apply ApplierFacts.commit_ok in Hcommit. subst.
  unfold effectsOfFix. rewrite map_map, <- app_assoc. reflexivity.
Qed.

(** X24.  For a fix and an issue whose paths, reasoning, title and address
    hold no double quote, [$], backquote or backslash, where the path of
    the checkout and the paths of the changes are made of plain names, a
    run of the applier that completes has asked for this and nothing
    else, once the shell has read the command lines: for every change, in
    order, its directory below the checkout is made and the whole content
    is written to the path of the checkout, [/] and the path of the
    change; then [git add] is run with each path as its one argument, in order;
    then [git commit -m] once, with the message as its one argument; then
    [git rev-parse HEAD]. *)
Theorem changes_applied (w : World) (engine : ContextEngine.Engine)
    (issue : ContextEngine.LinearIssue) (fx : Applier.Fix)
    (log log' : list Effect) (hash : string) :
  Applier.applyChanges w engine issue fx log = (Ok hash, log') ->
  quotableFix issue fx -> placedFix engine fx ->
  exists effects,
    log' = log ++ effects /\
    map actionOf effects = map Some (actionsOfFix engine issue fx).
Proof.
  intros H Hq Hp. exists (effectsOfFix engine issue fx). split.
  - eapply applyChanges_ok; eassumption.
  - now apply ShellFacts.actions_of_fix.
Qed.

Lemma changes_applied_witness :
  quotableFix sampleIssue sampleFix /\ placedFix sampleEngine sampleFix /\
  exists effects,
    snd (Applier.applyChanges obligingWorld sampleEngine sampleIssue sampleFix [])
      = [] ++ effects /\
    map actionOf effects =
      map Some
        [ MakeDirectory "/tmp/acme-app/src";
          Write "/tmp/acme-app/src/a.ts" "export const a = 2;";
          MakeDirectory "/tmp/acme-app";
          Write "/tmp/acme-app/README.md" "# app";
          Run ["git"; "add"; "src/a.ts"]%string;
          Run ["git"; "add"; "README.md"]%string;
          Run ["git"; "commit"; "-m";
               "Fix: Crash in src/a.ts

off by one

Linear Issue: https://linear.app/i/7"]%string;
          Run ["git"; "rev-parse"; "HEAD"]%string ].
Proof.
  assert (Hq : quotableFix sampleIssue sampleFix).
  { repeat split; [repeat constructor|..]; vm_compute; reflexivity. }
  assert (Hp : placedFix sampleEngine sampleFix).
  { split.
    - right. exists "tmp/acme-app"%string. split; [reflexivity|].
      repeat constructor; discriminate.
    - repeat constructor; discriminate. }
  split; [exact Hq|]. split; [exact Hp|].
  apply (changes_applied obligingWorld sampleEngine sampleIssue sampleFix [] _
           "abc123"%string); [|exact Hq|exact Hp].
  vm_compute. reflexivity.
Defined.

End ApplierMore.

(** * Properties of [fixBug] *)

Module PipelineFacts.
Import JS Effects Notions MoreNotions Pipeline.











Section Run.

Variable w : World.
Variable engine : ContextEngine.Engine.
Variable co : ContextEngine.Checkout.
Variable syntaxErrorMessage : string -> string.
Variable messagesCreate : ContextEngine.BugContext -> Result string.
Variable pullsCreate : PullRequest -> Result (string * Z).




End Run.



(** The sample run: what it hands to the shell, and what the shell reads. *)
Lemma sampleRun_read :
  option_map (fun run => map actionOf (snd (fst run))) sampleRun =
    Some (map Some
      [ gitLog;
        Run ["git"; "checkout"; "-b"; "fix/lin-7"]%string;
        MakeDirectory "/tmp/acme-app/src";
        Write "/tmp/acme-app/src/a.ts" "export const a = 2;";
        MakeDirectory "/tmp/acme-app";
        Write "/tmp/acme-app/README.md" "# app";
        Run ["git"; "add"; "src/a.ts"]%string;
        Run ["git"; "add"; "README.md"]%string;
        Run ["git"; "commit"; "-m"; Applier.commitMessage sampleIssue sampleFix]%string;
        Run ["git"; "rev-parse"; "HEAD"]%string;
        Run ["git"; "push"; "-u"; "origin"; "fix/lin-7"]%string ]).
Proof. vm_compute. reflexivity. Qed.

End PipelineFacts.

(** * Further properties of the webhook *)

Module WebhookMore.
Import JS Webhook Notions MoreNotions.

(** ** The URL of the description *)

Lemma span_exact (p : ascii -> bool) (a rest : string) :
  allChars p a = true -> stopsAt p rest = true ->
  spanLength p (a +++ rest) = String.length a.
Proof.
  intros Ha Hrest. induction a as [|c a IH]; simpl in Ha |- *.
  - destruct rest as [|c rest]; [reflexivity|]. simpl in Hrest |- *.
    destruct (p c); [discriminate | reflexivity].
  - apply andb_true_iff in Ha as [Hc Ha]. now rewrite Hc, (IH Ha).
Qed.

Lemma span_stops (p : ascii -> bool) (s : string) :
  stopsAt p (drop (spanLength p s) s) = true.
Proof.
  induction s as [|c s IH]; simpl; [reflexivity|].
  destruct (p c) eqn:Hc; simpl; [assumption | now rewrite Hc].
Qed.

Lemma length_append (a b : string) :
  String.length (a +++ b) = (String.length a + String.length b)%nat.
Proof. induction a as [|c a IH]; simpl; [reflexivity | now rewrite IH]. Qed.

Lemma startsWith_inside (p a b : string) :
  startsWith p (a +++ b) = true -> (String.length p <= String.length a)%nat ->
  startsWith p a = true.
Proof.
  revert a; induction p as [|c p IH]; intros a H Hlen; [reflexivity|].
  destruct a as [|d a]; simpl in *; [lia|].
  apply andb_true_iff in H as [Hc H]. rewrite Hc. simpl.
  apply IH; [assumption | lia].
Qed.

Lemma firstMatch_skip (before tail : string) :
  includes "github.com/" (before +++ "github.com") = false ->
  githubUrlMatch (before +++ "github.com/" +++ tail)
    = githubUrlMatch ("github.com/" +++ tail).
Proof.
  unfold githubUrlMatch. induction before as [|c before IH]; intros H;
    [reflexivity|].
  change (includes "github.com/" (String c (before +++ "github.com")) = false) in H.
  cbn [includes] in H. apply orb_false_iff in H as [Hhere Hlater].
  change ((String c before) +++ "github.com/" +++ tail)
    with (String c (before +++ "github.com/" +++ tail)).
  cbn [firstMatch]. rewrite <- (IH Hlater).
  replace (githubUrlPattern (String c (before +++ "github.com/" +++ tail)))
    with (@None (string * string)); [reflexivity|].
  unfold githubUrlPattern.
  destruct (startsWith "github.com/" (String c (before +++ "github.com/" +++ tail)))
    eqn:Hs; [|reflexivity].
  exfalso.
  change (String c (before +++ "github.com/" +++ tail))
    with (String c before +++ "github.com" +++ "/" +++ tail) in Hs.
  rewrite <- ContextEngineFacts.append_assoc in Hs.
  apply startsWith_inside in Hs.
  - change (String c before +++ "github.com") with (String c (before +++ "github.com")) in Hs.
    congruence.
  - rewrite length_append. simpl. lia.
Qed.

Lemma githubUrlPattern_here (o r rest : string) :
  o <> EmptyString -> allChars notSlash o = true ->
  r <> EmptyString -> allChars inRepoName r = true ->
  stopsAt inRepoName rest = true ->
  githubUrlPattern ("github.com/" +++ o +++ "/" +++ r +++ rest) = Some (o, r).
Proof.
  intros Ho Hos Hr Hrs Hrest.
  change (githubUrlPattern ("github.com/" +++ o +++ "/" +++ r +++ rest))
    with (match spanLength notSlash (o +++ "/" +++ r +++ rest) with
          | O => None
          | S n =>
              match drop (S n) (o +++ "/" +++ r +++ rest) with
              | String _ r2 =>
                  match spanLength inRepoName r2 with
                  | O => None
                  | S m => Some (take (S n) (o +++ "/" +++ r +++ rest), take (S m) r2)
                  end
              | EmptyString => None
              end
          end).
  rewrite (span_exact notSlash o ("/" +++ r +++ rest) Hos eq_refl).
  destruct (String.length o) as [|n] eqn:Hn; [now destruct o|].
  rewrite <- Hn, SignalFacts.drop_append.
  change ("/" +++ r +++ rest) with (String "/" (r +++ rest)). cbv iota.
  rewrite (span_exact inRepoName r rest Hrs Hrest).
  destruct (String.length r) as [|m] eqn:Hm; [now destruct r|].
  rewrite <- Hm.
  rewrite <- (Nat.add_0_r (String.length o)), <- (Nat.add_0_r (String.length r)).
  rewrite !SignalFacts.take_append.
  change (take 0 _) with EmptyString at 1. change (take 0 _) with EmptyString.
  now rewrite !ContextEngineFacts.append_empty.
Qed.

Lemma stripGit_suffix (name : string) : stripGit (name +++ ".git") = name.
Proof.
  unfold stripGit, endsWith.
  rewrite ContextEngineFacts.reverse_append, ContextEngineFacts.startsWith_append.
  rewrite length_append.
  replace (String.length name + String.length ".git" - 4)%nat
    with (String.length name + 0)%nat by (simpl; lia).
  rewrite SignalFacts.take_append. apply ContextEngineFacts.append_empty.
Qed.

(** X15.  A description whose first [github.com/] is followed by an owner
    without a slash, a slash and a name without a slash or a blank, up to
    the end of the text or to a slash or a blank, names this owner and this
    repository, whatever the environment holds; a name written with [.git]
    comes without it. *)
Theorem url_of_description (env : Env) (payload : LinearWebhookPayload)
    (before o r rest : string) :
  firstUrl (orEmpty (description (data payload))) before o r rest ->
  o <> EmptyString -> allChars notSlash o = true ->
  r <> EmptyString -> allChars inRepoName r = true ->
  stopsAt inRepoName rest = true ->
  extractRepoInfo env payload = Ok (Some {| owner := o; repo := Some (stripGit r) |}) /\
  (forall name, r = name +++ ".git" -> stripGit r = name).
Proof.
  intros [Htext Hfirst] Ho Hos Hr Hrs Hrest. split.
  - unfold extractRepoInfo. rewrite Htext, (firstMatch_skip before _ Hfirst).
    unfold githubUrlMatch.
    assert (Hhere := githubUrlPattern_here o r rest Ho Hos Hr Hrs Hrest).
    destruct ("github.com/" +++ o +++ "/" +++ r +++ rest) as [|c s] eqn:E;
      cbn [firstMatch]; now rewrite Hhere.
  - intros name ->. apply stripGit_suffix.
Qed.

Lemma url_of_description_witness :
  extractRepoInfo envComplete (describedBy "see https://github.com/acme/web.git for the code")
    = Ok (Some {| owner := "acme"; repo := Some (stripGit "web.git") |}) /\
  (forall name, "web.git"%string = name +++ ".git" -> stripGit "web.git" = name).
Proof.
  apply (url_of_description envComplete
           (describedBy "see https://github.com/acme/web.git for the code")
           "see https://" "acme" "web.git" " for the code").
  - split; vm_compute; reflexivity.
  - discriminate.
  - reflexivity.
  - discriminate.
  - reflexivity.
  - reflexivity.
Defined.

Lemma firstMatch_some {A : Type} (re : string -> option A) (s : string) (m : A) :
  firstMatch re s = Some m ->
  exists before after, s = before +++ after /\ re after = Some m.
Proof.
  induction s as [|c s IH]; cbn [firstMatch]; intros H.
  - destruct (re EmptyString) eqn:E; [|discriminate].
    exists EmptyString, EmptyString. split; [reflexivity | congruence].
  - destruct (re (String c s)) eqn:E.
    + exists EmptyString, (String c s). split; [reflexivity | congruence].
    + destruct (IH H) as (before & after & -> & Hre).
      exists (String c before), after. now split.
Qed.

Lemma span_head (p : ascii -> bool) (s : string) (n : nat) :
  spanLength p s = S n -> take (S n) s <> EmptyString.
Proof. destruct s as [|c s]; simpl; [discriminate|]. intros _. discriminate. Qed.

Lemma slash_only (c : ascii) : notSlash c = false -> c = "/"%char.
Proof.
  unfold notSlash, code. intros H. apply negb_false_iff, N.eqb_eq in H.
  rewrite <- (ascii_N_embedding c), H. reflexivity.
Qed.

(** X16.  What [extractRepoInfo] takes from the description is there:
    when the description names a repository, the owner and the name are
    not empty, the owner holds no slash and the name no slash and no
    blank, and the description holds [github.com/], the owner, a slash and
    the name, up to the [.git] that the name loses. *)
Theorem url_is_in_description (description : string) (o r : string) :
  githubUrlMatch description = Some (o, r) ->
  (exists before rest,
     description = before +++ "github.com/" +++ o +++ "/" +++ r +++ rest /\
     stopsAt inRepoName rest = true) /\
  o <> EmptyString /\ allChars notSlash o = true /\
  r <> EmptyString /\ allChars inRepoName r = true /\
  (stripGit r = r \/ r = stripGit r +++ ".git").
Proof.
  intros H. apply firstMatch_some in H as (before & after & -> & H).
  unfold githubUrlPattern in H.
  destruct (startsWith "github.com/" after) eqn:Hs; [|discriminate].
  apply ContextEngineFacts.startsWith_split in Hs as [tail ->].
  change (drop 11 ("github.com/" +++ tail)) with tail in H. cbv zeta in H.
  destruct (spanLength notSlash tail) as [|n] eqn:Hn; [discriminate|].
  destruct (drop (S n) tail) as [|c r2] eqn:Hd; [discriminate|].
  fold inRepoName in H.
  destruct (spanLength inRepoName r2) as [|m] eqn:Hm; [discriminate|].
  assert (Ho : o = take (S n) tail) by congruence.
  assert (Hr : r = take (S m) r2) by congruence.
  clear H.
  assert (Hc : c = "/"%char).
  { apply slash_only. pose proof (span_stops notSlash tail) as Hstop.
    rewrite Hn, Hd in Hstop. simpl in Hstop. now apply negb_true_iff in Hstop. }
  subst c.
  split; [|split; [|split; [|split; [|split]]]].
  - exists before, (drop (S m) r2). split.
    + rewrite Ho, Hr.
      change ("/" +++ take (S m) r2 +++ drop (S m) r2)
        with (String "/" (take (S m) r2 +++ drop (S m) r2)).
      rewrite SignalFacts.take_drop, <- Hd, SignalFacts.take_drop. reflexivity.
    + rewrite <- Hm. apply span_stops.
  - rewrite Ho. now apply (span_head notSlash).
  - rewrite Ho, <- Hn. apply SignalFacts.take_span.
  - rewrite Hr. now apply (span_head inRepoName).
  - rewrite Hr, <- Hm. apply SignalFacts.take_span.
  - unfold stripGit. destruct (endsWith ".git" r) eqn:He; [right | now left].
    apply ContextEngineFacts.endsWith_suffix in He as [stem ->].
    rewrite length_append.
    replace (String.length stem + String.length ".git" - 4)%nat
      with (String.length stem + 0)%nat by (simpl; lia).
    now rewrite SignalFacts.take_append, ContextEngineFacts.append_empty.
Qed.

Lemma url_is_in_description_witness :
  (exists before rest,
     "see https://github.com/acme/web.git for the code"%string
       = before +++ "github.com/" +++ "acme" +++ "/" +++ "web.git" +++ rest /\
     stopsAt inRepoName rest = true) /\
  "acme"%string <> EmptyString /\ allChars notSlash "acme" = true /\
  "web.git"%string <> EmptyString /\ allChars inRepoName "web.git" = true /\
  (stripGit "web.git" = "web.git"%string \/
   "web.git"%string = stripGit "web.git" +++ ".git").
Proof.
  apply (url_is_in_description "see https://github.com/acme/web.git for the code").
  vm_compute. reflexivity.
Defined.

(** ** The handler *)

Section Handler.

Variable env : Env.
Variable cloneCompletes : string -> option string -> bool.
Variable fixBug : string -> RepoInfo -> ContextEngine.LinearIssue -> FixResult.

(** X18.  The fix runs only for a labelled issue and on the repository
    that was resolved for it: when the handler asks for a fix, the request
    was a POST whose payload passed [shouldProcessIssue], the repository
    is the one [extractRepoInfo] gives for this payload, the clone of it
    completed, and the issue is the one of the payload. *)
Theorem fix_only_when_labelled (req : Request) (repoPath : string) (info : RepoInfo)
    (issue : ContextEngine.LinearIssue) :
  In (FixBug repoPath info issue) (snd (handler env cloneCompletes fixBug req)) ->
  method req = "POST"%string /\
  exists payload,
    parseLinearWebhook (body req) = Ok payload /\
    shouldProcessIssue payload = true /\
    extractRepoInfo env payload = Ok (Some info) /\
    cloneCompletes (owner info) (repo info) = true /\
    issue = issueOf (data payload) /\
    ContextEngine.id issue = id (data payload) /\
    ContextEngine.title issue = title (data payload).
Proof.
  unfold handler. rewrite WebhookFacts.verifyLinearSignature_accepts. cbn [negb].
  destruct (method req =? "POST")%string eqn:Hpost; cbn [negb]; [|intros []].
  apply String.eqb_eq in Hpost.
  destruct (parseLinearWebhook (body req)) as [payload|m]; [|intros []].
  destruct (shouldProcessIssue payload) eqn:Hlabel; cbn [negb]; [|intros []].
  destruct (extractRepoInfo env payload) as [[resolved|]|m] eqn:Hextract; [|intros []..].
  cbv zeta.
  destruct (cloneCompletes (owner resolved) (repo resolved)) eqn:Hclone.
  - assert (Hcomment : forall comment,
      ~ In (FixBug repoPath info issue)
           (postLinearComment env (id (data payload)) comment)).
    { intros comment. unfold postLinearComment.
      destruct (isSet (LINEAR_API_KEY env)); simpl; [|tauto].
      intros [H|[]]. discriminate. }
    intros H.
    assert (Hfix : FixBug ("/tmp/" +++ owner resolved +++ "-" +++ templateArg (repo resolved))
                     resolved (issueOf (data payload))
                   = FixBug repoPath info issue).
    { destruct (success _); cbn [respond snd] in H;
        apply in_app_or in H as [H|H]; try (now apply Hcomment in H);
        simpl in H; destruct H as [H|[H|[]]]; try discriminate; exact H. }
    assert (resolved = info) by congruence.
    assert (issueOf (data payload) = issue) by congruence.
    subst. split; [assumption|]. exists payload. now repeat split.
  - simpl. intros [H|[]]. discriminate.
Qed.

(** X19.  An entry of [REPO_MAPPING] for the team of the issue that has no
    [=] makes [extractRepoInfo] raise, and the handler answers 500 without
    asking anything of the pipeline: it does not fall back on
    [GITHUB_REPOSITORY], whether this is set or not. *)
Theorem entry_without_repository (req : Request) (payload : LinearWebhookPayload)
    (before after : list string) (entry : string) :
  method req = "POST"%string ->
  parseLinearWebhook (body req) = Ok payload ->
  shouldProcessIssue payload = true ->
  noUrl payload ->
  isSet (REPO_MAPPING env) = true -> truthy (teamKeyOf payload) = true ->
  split "," (orEmpty (REPO_MAPPING env)) = before ++ entry :: after ->
  Forall (fun mapping =>
            toLowerCase (trim (nth 0 (split "=" mapping) EmptyString))
            <> toLowerCase (teamKeyOf payload)) before ->
  hasChar "=" entry = false ->
  toLowerCase (trim entry) = toLowerCase (teamKeyOf payload) ->
  extractRepoInfo env payload
    = Throw "Cannot read properties of undefined (reading 'trim')" /\
  handler env cloneCompletes fixBug req
    = ({| status := 500;
          json := InternalError "Cannot read properties of undefined (reading 'trim')" |},
       []).
Proof.
  intros Hpost Hparse Hlabel Hurl Hset Hteam Hsplit Hbefore Hentry Hmatch.
  assert (Hfind : findMapping (teamKeyOf payload) (before ++ entry :: after)
                  = Throw "Cannot read properties of undefined (reading 'trim')").
  { clear Hsplit.
    induction Hbefore as [|mapping rest Hne _ IH]; cbn [app findMapping]; cbv zeta.
    - rewrite (ContextEngineMore.split_clean "=" entry Hentry). cbn [nth nth_error].
      rewrite Hmatch, String.eqb_refl. reflexivity.
    - apply String.eqb_neq in Hne. rewrite Hne. exact IH. }
  assert (Hextract : extractRepoInfo env payload
                     = Throw "Cannot read properties of undefined (reading 'trim')").
  { unfold extractRepoInfo. unfold noUrl in Hurl.
    rewrite Hurl, Hset, Hteam, Hsplit, Hfind. reflexivity. }
  split; [assumption|].
  unfold handler.
  rewrite Hpost, WebhookFacts.verifyLinearSignature_accepts, Hparse, Hlabel, Hextract.
  reflexivity.
Qed.

(** X20.  The answer 400 is for an issue that names no repository in an
    environment without [GITHUB_REPOSITORY]: when the handler answers 400
    this variable is not set, the description holds no URL of a
    repository, and nothing was asked of the pipeline. *)
Theorem unresolved_only_without_default (req : Request) :
  status (fst (handler env cloneCompletes fixBug req)) = 400 ->
  isSet (GITHUB_REPOSITORY env) = false /\
  (exists payload,
     parseLinearWebhook (body req) = Ok payload /\ noUrl payload /\
     extractRepoInfo env payload = Ok None) /\
  snd (handler env cloneCompletes fixBug req) = [].
Proof.
  unfold handler. rewrite WebhookFacts.verifyLinearSignature_accepts. cbn [negb].
  destruct (negb (method req =? "POST")%string); [discriminate|].
  destruct (parseLinearWebhook (body req)) as [payload|m] eqn:Hparse; [|discriminate].
  destruct (negb (shouldProcessIssue payload)); [discriminate|].
  destruct (extractRepoInfo env payload) as [[info|]|m] eqn:Hextract;
    [|intros _|discriminate].
  - cbv zeta. destruct (cloneCompletes _ _); [|discriminate].
    destruct (success _); discriminate.
  - assert (Hurl : noUrl payload).
    { unfold noUrl. unfold extractRepoInfo in Hextract.
      destruct (githubUrlMatch _) as [[o r]|]; [discriminate | reflexivity]. }
    split; [|split; [|reflexivity]].
    + unfold extractRepoInfo in Hextract. rewrite Hurl in Hextract.
      cbv zeta in Hextract.
      destruct (if isSet (REPO_MAPPING env) && truthy (teamKeyOf payload)
                then findMapping (teamKeyOf payload)
                       (split "," (orEmpty (REPO_MAPPING env)))
                else Ok None) as [[mapped|]|m]; cbn [bind] in Hextract;
        try discriminate.
      destruct (isSet (GITHUB_REPOSITORY env)); [discriminate | reflexivity].
    + exists payload. split; [reflexivity|]. split; assumption.
Qed.

End Handler.

Lemma fix_only_when_labelled_witness :
  method (requestOf None (issueData None "ai-fix" "NAV")) = "POST"%string /\
  exists payload,
    parseLinearWebhook (body (requestOf None (issueData None "ai-fix" "NAV"))) = Ok payload /\
    shouldProcessIssue payload = true /\
    extractRepoInfo envWithSecret payload
      = Ok (Some {| owner := "acme"; repo := Some "app"%string |}) /\
    cloneAlways "acme" (Some "app"%string) = true /\
    issueOf (issueData None "ai-fix" "NAV") = issueOf (data payload) /\
    ContextEngine.id (issueOf (issueData None "ai-fix" "NAV")) = id (data payload) /\
    ContextEngine.title (issueOf (issueData None "ai-fix" "NAV")) = title (data payload).
Proof.
  apply (fix_only_when_labelled envWithSecret cloneAlways fixNever
           (requestOf None (issueData None "ai-fix" "NAV")) "/tmp/acme-app"
           {| owner := "acme"; repo := Some "app"%string |}
           (issueOf (issueData None "ai-fix" "NAV"))).
  vm_compute. right. left. reflexivity.
Defined.

Lemma entry_without_repository_witness :
  extractRepoInfo envBrokenMapping (payloadOf (issueData None "ai-fix" "nav"))
    = Throw "Cannot read properties of undefined (reading 'trim')" /\
  handler envBrokenMapping cloneAlways fixNever (requestOf None (issueData None "ai-fix" "nav"))
    = ({| status := 500;
          json := InternalError "Cannot read properties of undefined (reading 'trim')" |},
       []).
Proof.
  apply (entry_without_repository envBrokenMapping cloneAlways fixNever
           (requestOf None (issueData None "ai-fix" "nav"))
           (payloadOf (issueData None "ai-fix" "nav"))
           ["API=acme/api"%string] ["OPS=acme/ops"%string] " NAV ").
  - reflexivity.
  - reflexivity.
  - reflexivity.
  - reflexivity.
  - reflexivity.
  - reflexivity.
  - reflexivity.
  - constructor; [|constructor]. vm_compute. discriminate.
  - reflexivity.
  - reflexivity.
Defined.

Lemma unresolved_only_without_default_witness :
  isSet (GITHUB_REPOSITORY envWithoutDefault) = false /\
  (exists payload,
     parseLinearWebhook
       (body (requestOf None (issueData (Some "no link here"%string) "ai-fix" "OPS")))
       = Ok payload /\
     noUrl payload /\
     extractRepoInfo envWithoutDefault payload = Ok None) /\
  snd (handler envWithoutDefault cloneAlways fixNever
         (requestOf None (issueData (Some "no link here"%string) "ai-fix" "OPS"))) = [].
Proof.
  apply (unresolved_only_without_default envWithoutDefault cloneAlways fixNever
           (requestOf None (issueData (Some "no link here"%string) "ai-fix" "OPS"))).
  vm_compute. reflexivity.
Defined.

End WebhookMore.

(** * The handler at run time *)

Module ServedFacts.
Import JS Webhook Notions MoreNotions.

Lemma unitsOf_slice0 (n : nat) (s : string) :
  Json.unitsOf (slice0 n s) = firstn n (Json.unitsOf s).
Proof.
  unfold slice0. revert s; induction n as [|n IH]; intros [|c s]; simpl;
    try reflexivity.
  now rewrite IH.
Qed.

(** A result whose reasoning is a string always gives a comment. *)
Lemma commentOf_string (result : Pipeline.FixResult) (units : list N) :
  Pipeline.reasoning result = Json.JString units ->
  Served.commentOf result =
    Ok (if Pipeline.success result
        then Served.PrCreated (Pipeline.prUrl result) (Pipeline.files result)
                              (Json.JString (firstn 200 units))
        else Served.NoFix (Json.JString units)).
Proof.
  intros H. unfold Served.commentOf. rewrite H.
  destruct (Pipeline.success result); reflexivity.
Qed.

(** No comment can be built exactly when the reasoning of a success has
    no [slice], or when the value to spell holds an object with a member
    [toString]. *)
Lemma commentOf_throws (result : Pipeline.FixResult) :
  (exists m, Served.commentOf result = Throw m) <->
  (if Pipeline.success result
   then match Served.sliceReasoning (Pipeline.reasoning result) with
        | Ok head => Served.printable head = false
        | Throw _ => True
        end
   else Served.printable (Pipeline.reasoning result) = false).
Proof.
  unfold Served.commentOf, Served.toText.
  destruct (Pipeline.success result).
  - destruct (Served.sliceReasoning (Pipeline.reasoning result)) as [head|m];
      cbn [bind].
    + destruct (Served.printable head); cbn [bind]; split;
        [intros [m H]; discriminate | discriminate | reflexivity | eauto].
    + split; [trivial | eauto].
  - destruct (Served.printable (Pipeline.reasoning result)); cbn [bind]; split;
      [intros [m H]; discriminate | discriminate | reflexivity | eauto].
Qed.

Section Handler.

Variable env : Env.
Variable cloneCompletes : string -> option string -> bool.

(** On results of the declared type the handler at run time is
    [Webhook.handler]. *)
Lemma handler_at_declared_type
    (fixBug : string -> RepoInfo -> ContextEngine.LinearIssue -> FixResult)
    (req : Request) :
  Served.handler env cloneCompletes
    (fun repoPath info issue => Ok (atRunTime (fixBug repoPath info issue))) req
  = (fst (handler env cloneCompletes fixBug req),
     map callAtRunTime (snd (handler env cloneCompletes fixBug req))).
Proof.
  unfold Served.handler, handler.
  destruct (negb (method req =? "POST")%string); [reflexivity|].
  destruct (negb (verifyLinearSignature env (body req) (signature req)));
    [reflexivity|].
  destruct (parseLinearWebhook (body req)) as [payload|m]; [|reflexivity].
  destruct (negb (shouldProcessIssue payload)); [reflexivity|].
  destruct (extractRepoInfo env payload) as [[info|]|m]; [|reflexivity..].
  cbv zeta. destruct (cloneCompletes (owner info) (repo info)); [|reflexivity].
  rewrite (commentOf_string _ (Json.unitsOf (reasoning (fixBug _ info _))))
    by reflexivity.
  unfold Served.postLinearComment, postLinearComment, Served.respond, respond, atRunTime.
  cbn [Pipeline.success Pipeline.reasoning Pipeline.prUrl Pipeline.files Pipeline.error].
  destruct (success _); destruct (isSet (LINEAR_API_KEY env));
    cbn [fst snd map app callAtRunTime]; unfold Json.str;
    rewrite ?unitsOf_slice0; reflexivity.
Qed.

Variable fixBug :
  string -> RepoInfo -> ContextEngine.LinearIssue -> Result Pipeline.FixResult.

(** X17.  The answers of the handler and what it asks of its
    collaborators, for a payload of the declared type and whatever
    [fixBug] resolves to or is rejected with: the status is 200, 400, 405
    or 500; either nothing is asked; or the clone alone, which failed, and
    the status is 500; or the clone and then the fix in the directory of
    the clone under [/tmp], and then either one comment at most, on the
    issue of the fix, with the status 200, or no comment and the status
    500, which happens exactly when [fixBug] is rejected or the text of
    the comment cannot be built from its result.  It can be built whenever
    the reasoning of the result is a string, and it cannot for a success
    whose reasoning is [null], a boolean, a number or an object, which
    have no [slice] to call.  Without a key for the tracker no comment is
    posted. *)
Theorem handler_calls (req : Request) :
  let answer := Served.handler env cloneCompletes fixBug req in
  In (status (fst answer)) [200; 400; 405; 500] /\
  (snd answer = [] \/
   (exists o r,
      snd answer = [Served.CloneRepository o r] /\ cloneCompletes o r = false /\
      status (fst answer) = 500) \/
   (exists info issue comments,
      let repoPath := "/tmp/" +++ owner info +++ "-" +++ templateArg (repo info) in
      snd answer =
        Served.CloneRepository (owner info) (repo info)
        :: Served.FixBug repoPath info issue
        :: comments /\
      cloneCompletes (owner info) (repo info) = true /\
      ((exists result comment,
          fixBug repoPath info issue = Ok result /\
          Served.commentOf result = Ok comment /\
          status (fst answer) = 200 /\
          (comments = [] \/
           comments = [Served.PostComment (ContextEngine.id issue) comment]))
       \/
       status (fst answer) = 500 /\ comments = [] /\
       ((exists m, fixBug repoPath info issue = Throw m) \/
        exists result m,
          fixBug repoPath info issue = Ok result /\
          Served.commentOf result = Throw m)) /\
      (isSet (LINEAR_API_KEY env) = false -> comments = []))) /\
  (forall result units,
      Pipeline.reasoning result = Json.JString units ->
      exists comment, Served.commentOf result = Ok comment) /\
  (forall result,
      Pipeline.success result = true ->
      match Pipeline.reasoning result with
      | Json.JString _ | Json.JArray _ => False
      | _ => True
      end ->
      exists m, Served.commentOf result = Throw m).
Proof.
  cbv zeta. split; [|split; [|split]].
  4:{ intros result Hs H. unfold Served.commentOf. rewrite Hs.
      destruct (Pipeline.reasoning result); try contradiction; simpl; eauto. }
  3:{ intros result units H. rewrite (commentOf_string result units H). eauto. }
  all: unfold Served.handler; rewrite WebhookFacts.verifyLinearSignature_accepts;
    cbn [negb].
  all: destruct (negb (method req =? "POST")%string); [simpl; tauto|].
  all: destruct (parseLinearWebhook (body req)) as [payload|m]; [|simpl; tauto].
  all: destruct (negb (shouldProcessIssue payload)); [simpl; tauto|].
  all: destruct (extractRepoInfo env payload) as [[info|]|m]; [|simpl; tauto..].
  all: cbv zeta.
  all: destruct (cloneCompletes (owner info) (repo info)) eqn:Hclone.
  all: try (destruct (fixBug _ info (issueOf (data payload))) as [result|m] eqn:Hfix;
            [destruct (Served.commentOf result) as [comment|m] eqn:Hcomment|]).
  all: try (simpl; tauto).
  - right; right.
    exists info, (issueOf (data payload)),
      (Served.postLinearComment env (id (data payload)) comment).
    split; [reflexivity|]. split; [assumption|].
    unfold Served.postLinearComment.
    destruct (isSet (LINEAR_API_KEY env)).
    + split; [|discriminate]. left. exists result, comment.
      repeat split; try assumption. now right.
    + split; [|reflexivity]. left. exists result, comment.
      repeat split; try assumption. now left.
  - right; right. exists info, (issueOf (data payload)), [].
    split; [reflexivity|]. split; [assumption|]. split; [|reflexivity].
    right. repeat split. right. now exists result, m.
  - right; right. exists info, (issueOf (data payload)), [].
    split; [reflexivity|]. split; [assumption|]. split; [|reflexivity].
    right. repeat split. left. now exists m.
  - right; left. exists (owner info), (repo info). repeat split. assumption.
Qed.

End Handler.

(** A fix whose reasoning is a number, and a declined fix whose reasoning
    is an object with a member [toString]: the clone and the fix are run,
    and the request is answered 500 without a comment. *)
Lemma handler_calls_sample :
  Served.handler envWithSecret cloneAlways fixWithNumber
                 (requestOf None (issueData None "ai-fix" "NAV"))
  = ({| status := 500;
        json := InternalError "result.reasoning.slice is not a function" |},
     [ Served.CloneRepository "acme" (Some "app"%string);
       Served.FixBug "/tmp/acme-app" {| owner := "acme"; repo := Some "app"%string |}
                     (issueOf (issueData None "ai-fix" "NAV")) ]) /\
  Served.handler envWithSecret cloneAlways declinedWithObject
                 (requestOf None (issueData None "ai-fix" "NAV"))
  = ({| status := 500;
        json := InternalError "Cannot convert object to primitive value" |},
     [ Served.CloneRepository "acme" (Some "app"%string);
       Served.FixBug "/tmp/acme-app" {| owner := "acme"; repo := Some "app"%string |}
                     (issueOf (issueData None "ai-fix" "NAV")) ]).
Proof. split; vm_compute; reflexivity. Qed.

End ServedFacts.

(** * The clone of the webhook and the command line *)

Module CloneFacts.
Import JS Effects Clone.


End CloneFacts.

Module CliFacts.
Import JS Cli.

Lemma indexOf_none (x : string) (args : list string) :
  indexOf x args = None <-> ~ In x args.
Proof.
  induction args as [|a args IH]; simpl; [tauto|].
  destruct (String.eqb a x) eqn:E.
  - apply String.eqb_eq in E. split; [discriminate | tauto].
  - apply String.eqb_neq in E. destruct (indexOf x args); simpl.
    + split; [discriminate|]. intros H. exfalso. apply H. right.
      destruct IH as [_ IH]. destruct (in_dec string_dec x args) as [Hin|Hout];
        [assumption | discriminate (IH Hout)].
    + split; [|reflexivity]. intros _ [H|H]; [contradiction|].
      now apply (proj1 IH).
Qed.

(** X22.  The command line starts a fix exactly when one of the flags
    [--issue] and [--description] is among the arguments and the three
    variables of the environment are set; otherwise it exits with the
    code 1 after one message at least.  The issue that it makes up carries
    the label [ai-fix], and the identifier [CLI-TEST] when [--issue] is not
    given. *)
Theorem main_starts (args : list string) (env : Env) :
  ((exists owner repo issue, main args env = Start owner repo issue) <->
   (In "--issue"%string args \/ In "--description"%string args) /\
   Webhook.isSet (ANTHROPIC_API_KEY env) = true /\
   Webhook.isSet (GITHUB_TOKEN env) = true /\
   Webhook.isSet (GITHUB_REPOSITORY env) = true) /\
  (forall code printed, main args env = Exit code printed -> code = 1 /\ printed <> []) /\
  (forall owner repo issue,
     main args env = Start owner repo issue ->
     labels issue = ["ai-fix"%string] /\
     owner = nth 0 (split "/" (Webhook.orEmpty (GITHUB_REPOSITORY env))) EmptyString /\
     (~ In "--issue"%string args -> id issue = Some "CLI-TEST"%string)).
Proof.
  unfold main.
  pose proof (indexOf_none "--issue" args) as Hi.
  pose proof (indexOf_none "--description" args) as Hd.
  destruct (indexOf "--issue" args) as [i|];
    destruct (indexOf "--description" args) as [d|];
    cbv zeta.
  4:{ split; [|split].
      - split; [intros (o & r & issue & H); discriminate|].
        intros [[H|H] _]; exfalso; [now apply (proj1 Hi) | now apply (proj1 Hd)].
      - intros code printed H. split; [congruence|]. intros ->. discriminate.
      - intros o r issue H. discriminate. }
  all: assert (Hflag : In "--issue"%string args \/ In "--description"%string args)
    by first
         [ left; destruct (in_dec string_dec "--issue"%string args) as [Hin|Hout];
           [exact Hin | discriminate (proj2 Hi Hout)]
         | right; destruct (in_dec string_dec "--description"%string args) as [Hin|Hout];
           [exact Hin | discriminate (proj2 Hd Hout)] ].
  all: destruct (Webhook.isSet (ANTHROPIC_API_KEY env));
    destruct (Webhook.isSet (GITHUB_TOKEN env));
    destruct (Webhook.isSet (GITHUB_REPOSITORY env)); cbn [negb].
  all: split; [|split].
  all: try (split; [intros (o & r & issue & H); discriminate
                   | intros (_ & H1 & H2 & H3); discriminate]).
  all: try (intros code printed H; split; [congruence|]; intros ->; discriminate).
  all: try (intros o r issue H; discriminate).
  all: try (split; [intros _; now repeat split | intros _; now eexists _, _, _]).
  all: intros o r issue H; injection H as <- _ <-; cbn [labels id];
    (split; [reflexivity|]); (split; [reflexivity|]); intros Hout;
    first [ reflexivity
          | exfalso; apply Hout;
            destruct (in_dec string_dec "--issue"%string args) as [Hin|Hno];
            [exact Hin | discriminate (proj2 Hi Hno)] ].
Qed.

End CliFacts.
